(** * opendrive-engine: conversion pipeline and k-d tree wrapper

    A shallow embedding of [src/convertor.cc] (the [Convertor] of the
    engine) and of the k-d tree wrapper ([KDTreeAdaptor], [KDTree]).

    Conventions of the embedding.
    - A C++ [double] is an exact rational ([Q]); the one place where a
      square root is taken ([KDTree::Search]) yields a real number.  Rounding
      of the machine arithmetic is therefore not part of the model, and
      equality of positions is [Qeq].
    - [int] and [size_t] counters are [Z] and [N]; they count sections, lanes
      and points and are far from their bounds.
    - Objects held through [std::shared_ptr] and mutated after they were
      stored ([core::Section], [core::Lane]) live in a store and are named
      by their address; a C++ reference to a member is the address of the
      object together with the member it designates.
    - Code of other libraries (the OpenDRIVE parser and its geometry helpers,
      the file system, nanoflann) is a parameter: a field of the class
      [External], or a function stored in the parsed element for a method
      of that element. *)

From Stdlib Require Import QArith Qround Qminmax Lqa Sorted Reals Qreals.
From stdpp Require Import gmap strings list fin_maps pretty.

Set Default Proof Using "Type".
Local Open Scope Q_scope.

(** ** Status *)

Inductive ErrorCode : Type :=
| OK
| INIT_FACTORY_ERROR
| INIT_MAPFILE_ERROR
| CONVERTOR_CENTERLANE_ERROR.

Global Instance ErrorCode_eq_dec : EqDecision ErrorCode.
Proof. solve_decision. Defined.

Record Status : Type := mkStatus { error_code : ErrorCode; msg : string }.

Global Instance Status_eq_dec : EqDecision Status.
Proof. solve_decision. Defined.

(** [std::to_string] on an [int] and on a [size_t]. *)
Definition to_string_Z (z : Z) : string := pretty z.
Definition to_string_N (n : N) : string := pretty n.

(** ** The parsed map tree (namespace [opendrive::element]) *)

Module element.

Record Point : Type := mkPoint { x : Q; y : Q; heading : Q }.

(** A geometry segment: its type tag (the value of
    [static_cast<int>(geometry->type())]) and its virtual [GetPoint]. *)
Record Geometry : Type := mkGeometry { type : Z; GetPoint : Q -> Point }.

Record LaneOffset : Type := mkLaneOffset { GetOffsetValue : Q -> Q }.

Record Lane : Type := mkLane { lane_id : Z; GetLaneWidth : Q -> Q }.

Record LaneSection : Type := mkLaneSection {
  start_position : Q;
  end_position : Q;
  center : list Lane;
  left : list Lane;
  right : list Lane
}.

Record RoadTypeInfo : Type := mkRoadTypeInfo {
  info_start_position : Q;
  info_type : Z
}.

Record Road : Type := mkRoad {
  id : Z;
  name : string;
  junction_id : Z;
  length : Q;
  rule : Z;
  predecessor : Z;
  successor : Z;
  type_info : list RoadTypeInfo;
  geometrys : list Geometry;
  lane_offsets : list LaneOffset;
  lane_sections : list LaneSection
}.

Record Junction : Type := mkJunction {
  junction_attr_id : Z;
  junction_name : string;
  junction_type : Z
}.

Record Header : Type := mkHeader {
  rev_major : string;
  rev_minor : string;
  header_name : string;
  version : string;
  date : string;
  north : Q;
  south : Q;
  west : Q;
  east : Q;
  vendor : string
}.

Record Map : Type := mkMap {
  header : Header;
  roads : list Road;
  junctions : list Junction
}.

End element.

(** ** The engine's own records (namespace [opendrive::engine::core]) *)

Module core.

Record Point : Type := mkPoint {
  x : Q;
  y : Q;
  heading : Q;
  start_position : Q;
  id : string
}.

(** [core::Curve::Line] and [core::Curve::Points]. *)
Abbreviation Line := (list Point).

Definition set_id (s : string) (p : Point) : Point :=
  mkPoint (x p) (y p) (heading p) (start_position p) s.

Record Geomotry : Type := mkGeomotry { type : Z; point : Point }.

Record Lane : Type := mkLane {
  lane_id : string;
  lane_parent_id : string;
  central_curve : Line;
  left_boundary : Line;
  right_boundary : Line;
  geometrys : list Geomotry
}.

(** A default-constructed lane ([std::make_shared<core::Lane>()]). *)
Definition new_Lane : Lane := mkLane "" "" [] [] [] [].

Record Section : Type := mkSection {
  section_id : string;
  section_parent_id : string;
  section_start : Q;
  section_end : Q;
  length : Q;
  center_lane : option nat;
  left_lanes : list nat;
  right_lanes : list nat
}.

Definition new_Section : Section := mkSection "" "" 0 0 0 None [] [].

Record RoadInfo : Type := mkRoadInfo { s : Q; info_type : Z }.

Record Road : Type := mkRoad {
  road_id : string;
  name : string;
  junction_id : string;
  road_length : Q;
  rule : Z;
  predecessor_ids : gset string;
  successor_ids : gset string;
  info : list RoadInfo;
  road_sections : list nat
}.

Definition new_Road : Road := mkRoad "" "" "" 0 0 ∅ ∅ [] [].

Record Junction : Type := mkJunction {
  junction_id_ : string;
  junction_name : string;
  junction_type : Z
}.

Definition new_Junction : Junction := mkJunction "" "" 0.

Record Header : Type := mkHeader {
  rev_major : string;
  rev_minor : string;
  header_name : string;
  version : string;
  date : string;
  north : Q;
  south : Q;
  west : Q;
  east : Q;
  vendor : string
}.

(** [core::Data]: the repository.  Sections and lanes are held by address
    (they are mutated after insertion), roads and junctions by value (they
    are complete when they are inserted). *)
Record Data : Type := mkData {
  header : option Header;
  roads : gmap string Road;
  sections : gmap string nat;
  lanes : gmap string nat;
  junction : gmap string Junction
}.

End core.

(** ** Outcomes of a call

    [Returns a]: the call returns.  [Throws]: it leaves through an
    exception nobody catches ([std::out_of_range] of [vector::at]) or
    dereferences a null pointer.  [OutOfFuel]: the bound given to the model
    of a [while (true)] loop was too small (never a behaviour of the code). *)

Inductive Outcome (A : Type) : Type :=
| Returns (a : A)
| Throws
| OutOfFuel.
Arguments Returns {A} a.
Arguments Throws {A}.
Arguments OutOfFuel {A}.

Global Instance Outcome_ret : MRet Outcome := λ A a, Returns a.
Global Instance Outcome_bind : MBind Outcome := λ A B f m,
  match m with
  | Returns a => f a
  | Throws => Throws
  | OutOfFuel => OutOfFuel
  end.

(** [v.at(i)], and the dereference of the address [i] in the store [v]. *)
Definition at_ {A} (v : list A) (i : nat) : Outcome A :=
  match v !! i with Some a => Returns a | None => Throws end.

(** A range-based [for] whose body may leave through an exception. *)
Fixpoint for_each {A S : Type} (body : A -> S -> Outcome S) (l : list A)
    (s : S) : Outcome S :=
  match l with
  | [] => Returns s
  | a :: l' =>
    match body a s with
    | Returns s' => for_each body l' s'
    | Throws => Throws
    | OutOfFuel => OutOfFuel
    end
  end.

(** ** External collaborators *)

Class External : Type := {
  (** [opendrive::common::GetGtPtrPoloy3]: index of the geometry for an
      arc-length, as an [int]. *)
  GetGtPtrPoloy3 : list element.Geometry -> Q -> Z;
  (** [opendrive::common::GetGeValuePoloy3]: index of the lane offset entry. *)
  GetGeValuePoloy3 : list element.LaneOffset -> Q -> Z;
  (** [opendrive::common::GetOffsetPoint<element::Point>]. *)
  GetOffsetPoint_element : element.Point -> Q -> element.Point;
  (** [opendrive::common::GetOffsetPoint<core::Curve::Point>]. *)
  GetOffsetPoint : core.Point -> Q -> core.Point;
  (** [opendrive::common::Split]. *)
  Split : string -> string -> list string;
  (** [cactus::FileExists]. *)
  FileExists : string -> bool;
  (** [opendrive::Parser::ParseMap]: whether it succeeded, and the map. *)
  ParseMap : string -> bool * element.Map
}.

(** ** The store of shared objects *)

Record Memory : Type := mkMemory {
  mem_sections : list core.Section;
  mem_lanes : list core.Lane
}.

Definition alloc_section (m : Memory) : nat * Memory :=
  (List.length (mem_sections m),
   mkMemory (mem_sections m ++ [core.new_Section]) (mem_lanes m)).

Definition alloc_lane (m : Memory) : nat * Memory :=
  (List.length (mem_lanes m),
   mkMemory (mem_sections m) (mem_lanes m ++ [core.new_Lane])).

Definition update_section (p : nat) (f : core.Section -> core.Section)
    (m : Memory) : Memory :=
  mkMemory (alter f p (mem_sections m)) (mem_lanes m).

Definition update_lane (p : nat) (f : core.Lane -> core.Lane)
    (m : Memory) : Memory :=
  mkMemory (mem_sections m) (alter f p (mem_lanes m)).

(** ** The k-d tree wrapper (namespace [opendrive::engine::kdtree]) *)

Module kdtree.

Record KDTreeParam : Type := mkKDTreeParam { flags : Z; leaf_max_size : N }.

(** [KDTreeNode] is a [std::vector<double>]; [node[i]] is unchecked. *)
Definition node_get (node : list Q) (dim : nat) : Q := nth dim node 0.

Record KDTreeAdaptor : Type := mkKDTreeAdaptor {
  matrix_ : list (list Q);
  ids_ : list string
}.

Definition kdtree_get_point_count (a : KDTreeAdaptor) : nat :=
  List.length (matrix_ a).

Definition kdtree_get_pt (a : KDTreeAdaptor) (idx dim : nat) : Q :=
  node_get (nth idx (matrix_ a) []) dim.

(** [KDTreeAdaptor::Init]: both vectors are swapped with empty ones, then
    one node and one id are pushed per sample. *)
Definition Adaptor_Init (samples : list core.Point) (_ : KDTreeAdaptor)
    : KDTreeAdaptor :=
  fold_left
    (fun a point =>
       let node := [core.x point; core.y point] in
       mkKDTreeAdaptor (matrix_ a ++ [node]) (ids_ a ++ [core.id point]))
    samples (mkKDTreeAdaptor [] []).

(** The nanoflann index object: what it was constructed with. *)
Record KDTreeIndex : Type := mkKDTreeIndex {
  index_size : nat;
  index_params : KDTreeParam
}.

Record KDTree : Type := mkKDTree {
  adaptor_ : KDTreeAdaptor;
  index_ : option KDTreeIndex
}.

(** [KDTree::KDTree()]. *)
Definition new_KDTree : KDTree := mkKDTree (mkKDTreeAdaptor [] []) None.

(** [KDTree::Init]. *)
Definition Init (samples : list core.Point) (param : KDTreeParam)
    (t : KDTree) : KDTree :=
  let adaptor := Adaptor_Init samples (adaptor_ t) in
  mkKDTree adaptor (Some (mkKDTreeIndex (List.length samples) param)).

Record KDTreeResult : Type := mkKDTreeResult {
  x : Q;
  y : Q;
  id : string;
  dist : R
}.

(** A vector of [n] value-initialised elements whose first slots were
    overwritten with [vals]. *)
Definition overwritten {A : Type} (n : nat) (zero : A) (vals : list A)
    : list A :=
  vals ++ drop (List.length vals) (replicate n zero).

Section Search.

(** [nanoflann::KDTreeSingleIndexAdaptor::knnSearch] on an index over
    the adaptor: the neighbours it writes, in the order of the output
    arrays, each as the index of the point and the squared distance. *)
Variable knnSearch : KDTreeAdaptor -> Q * Q -> nat -> list (nat * Q).

(** The body of the loop of [Search] over [i]. *)
Definition Search_body (adaptor : KDTreeAdaptor) (indices : list nat)
    (dists : list Q) (i : nat) (results : list KDTreeResult)
    : Outcome (list KDTreeResult) :=
  idx ← at_ indices i;
  node ← at_ (matrix_ adaptor) idx;
  result_id ← at_ (ids_ adaptor) idx;
  d ← at_ dists i;
  mret (results
        ++ [mkKDTreeResult (node_get node 0) (node_get node 1) result_id
              (sqrt (Q2R d))]).

(** [KDTree::Search]: the code it returns, the vector [results] and the
    tree. *)
Definition Search (qx qy : Q) (num_closest : nat)
    (results : list KDTreeResult) (t : KDTree)
    : Outcome (Z * list KDTreeResult * KDTree) :=
  let results := @nil KDTreeResult in
  _ ← match index_ t with
      | Some index => Returns index
      | None => Throws
      end;
  let found := knnSearch (adaptor_ t) (qx, qy) num_closest in
  let indices := overwritten num_closest 0%nat (map fst found) in
  let dists := overwritten num_closest 0%Q (map snd found) in
  if (List.length (matrix_ (adaptor_ t)) <? List.length indices)%nat then
    mret ((-1)%Z, results, t)
  else
    results ← for_each (Search_body (adaptor_ t) indices dists)
                (seq 0 (List.length indices)) results;
    mret (0%Z, results, t).

End Search.

End kdtree.

(** ** The convertor *)

Record Param : Type := mkParam { step : Q; map_file : string }.

(** The members of [Convertor], the objects that the factory hands out under
    ["engine_param"], ["core_data"] and ["kdtree"] ([None] for a null
    pointer; [Start] binds [param_] and [data_] to the first two), and the
    store of sections and lanes. *)
Record Convertor : Type := mkConvertor {
  status_ : Status;
  step_ : Q;
  param_ : option Param;
  data_ : option core.Data;
  center_line_pts_ : list core.Point;
  kdtree_ : option kdtree.KDTree;
  memory : Memory
}.

Definition set_status (s : Status) (c : Convertor) : Convertor :=
  mkConvertor s (step_ c) (param_ c) (data_ c) (center_line_pts_ c)
    (kdtree_ c) (memory c).

Definition set_step (q : Q) (c : Convertor) : Convertor :=
  mkConvertor (status_ c) q (param_ c) (data_ c) (center_line_pts_ c)
    (kdtree_ c) (memory c).

Definition set_data (d : option core.Data) (c : Convertor) : Convertor :=
  mkConvertor (status_ c) (step_ c) (param_ c) d (center_line_pts_ c)
    (kdtree_ c) (memory c).

Definition set_center_line_pts (pts : list core.Point) (c : Convertor)
    : Convertor :=
  mkConvertor (status_ c) (step_ c) (param_ c) (data_ c) pts
    (kdtree_ c) (memory c).

Definition set_kdtree (t : option kdtree.KDTree) (c : Convertor) : Convertor :=
  mkConvertor (status_ c) (step_ c) (param_ c) (data_ c) (center_line_pts_ c)
    t (memory c).

Definition set_memory (m : Memory) (c : Convertor) : Convertor :=
  mkConvertor (status_ c) (step_ c) (param_ c) (data_ c) (center_line_pts_ c)
    (kdtree_ c) m.

(** [Convertor::SetStatus]. *)
Definition SetStatus (code : ErrorCode) (m : string) (c : Convertor)
    : Convertor :=
  set_status (mkStatus code m) c.

(** [Convertor::Continue]. *)
Definition Continue (c : Convertor) : bool :=
  bool_decide (OK = error_code (status_ c)).

(** A write [f] to the repository that [data_] points to. *)
Definition on_data (f : core.Data -> core.Data) (c : Convertor)
    : Outcome Convertor :=
  match data_ c with
  | Some d => Returns (set_data (Some (f d)) c)
  | None => Throws
  end.

Definition read_section (p : nat) (c : Convertor) : Outcome core.Section :=
  at_ (mem_sections (memory c)) p.

Definition read_lane (p : nat) (c : Convertor) : Outcome core.Lane :=
  at_ (mem_lanes (memory c)) p.

Definition write_section (p : nat) (f : core.Section -> core.Section)
    (c : Convertor) : Convertor :=
  set_memory (update_section p f (memory c)) c.

Definition write_lane (p : nat) (f : core.Lane -> core.Lane) (c : Convertor)
    : Convertor :=
  set_memory (update_lane p f (memory c)) c.

(** Setters of the repository. *)
Definition set_header (h : core.Header) (d : core.Data) : core.Data :=
  core.mkData (Some h) (core.roads d) (core.sections d) (core.lanes d)
    (core.junction d).

Definition put_road (k : string) (r : core.Road) (d : core.Data) : core.Data :=
  core.mkData (core.header d) (<[k:=r]> (core.roads d)) (core.sections d)
    (core.lanes d) (core.junction d).

Definition put_section (k : string) (p : nat) (d : core.Data) : core.Data :=
  core.mkData (core.header d) (core.roads d) (<[k:=p]> (core.sections d))
    (core.lanes d) (core.junction d).

Definition put_lane (k : string) (p : nat) (d : core.Data) : core.Data :=
  core.mkData (core.header d) (core.roads d) (core.sections d)
    (<[k:=p]> (core.lanes d)) (core.junction d).

Definition put_junction (k : string) (j : core.Junction) (d : core.Data)
    : core.Data :=
  core.mkData (core.header d) (core.roads d) (core.sections d) (core.lanes d)
    (<[k:=j]> (core.junction d)).

(** Setters of a lane. *)
Definition lane_set_ids (i parent : string) (l : core.Lane) : core.Lane :=
  core.mkLane i parent (core.central_curve l) (core.left_boundary l)
    (core.right_boundary l) (core.geometrys l).

Definition lane_set_central (pts : core.Line) (l : core.Lane) : core.Lane :=
  core.mkLane (core.lane_id l) (core.lane_parent_id l) pts
    (core.left_boundary l) (core.right_boundary l) (core.geometrys l).

Definition lane_set_left (pts : core.Line) (l : core.Lane) : core.Lane :=
  core.mkLane (core.lane_id l) (core.lane_parent_id l) (core.central_curve l)
    pts (core.right_boundary l) (core.geometrys l).

Definition lane_set_right (pts : core.Line) (l : core.Lane) : core.Lane :=
  core.mkLane (core.lane_id l) (core.lane_parent_id l) (core.central_curve l)
    (core.left_boundary l) pts (core.geometrys l).

Definition lane_add_geometry (g : core.Geomotry) (l : core.Lane) : core.Lane :=
  core.mkLane (core.lane_id l) (core.lane_parent_id l) (core.central_curve l)
    (core.left_boundary l) (core.right_boundary l) (core.geometrys l ++ [g]).

(** The three [emplace_back(point)] that end an iteration of
    [CenterLaneSampling]. *)
Definition lane_push_all (p : core.Point) (l : core.Lane) : core.Lane :=
  core.mkLane (core.lane_id l) (core.lane_parent_id l)
    (core.central_curve l ++ [p]) (core.left_boundary l ++ [p])
    (core.right_boundary l ++ [p]) (core.geometrys l).

(** The tolerance [1e-10] of the clamping test. *)
Definition tolerance : Q := 1 # 10000000000.

(** The local variables of [CenterLaneSampling] that live across
    iterations, with the convertor they act on. *)
Record Sampling : Type := mkSampling {
  section_ds : Q;
  road_ds : Q;
  geometry_type : Z;
  point_idx : N;
  conv : Convertor
}.

Section Sampling.

Context `{External}.

(** [Convertor::GetGeometry]: the geometry ([None] for [nullptr]) and the
    convertor, whose status the negative index changes. *)
Definition GetGeometry (geometrys : list element.Geometry) (road_ds : Q)
    (c : Convertor) : option element.Geometry * Convertor :=
  let geometry_idx := GetGtPtrPoloy3 geometrys road_ds in
  if (geometry_idx <? 0)%Z then
    (None,
     SetStatus CONVERTOR_CENTERLANE_ERROR "get geometry index execption." c)
  else if (geometry_idx <? Z.of_nat (List.length geometrys))%Z then
    (geometrys !! Z.to_nat geometry_idx, c)
  else (None, c).

(** [Convertor::GetLaneOffsetValue].  Inside the bounds test [at] finds
    the entry. *)
Definition GetLaneOffsetValue (offsets : list element.LaneOffset)
    (road_ds : Q) : Q :=
  let offset_idx := GetGeValuePoloy3 offsets road_ds in
  if ((0 <=? offset_idx)%Z && (offset_idx <? Z.of_nat (List.length offsets))%Z)
  then
    match offsets !! Z.to_nat offset_idx with
    | Some o => element.GetOffsetValue o road_ds
    | None => 0
    end
  else 0.

(** The head of the loop of [CenterLaneSampling]: [None] is the [break],
    otherwise the values of [section_ds] and [road_ds] after the test. *)
Definition clamp (len step_v section_ds_v road_ds_v : Q) : option (Q * Q) :=
  if Qlt_le_dec len section_ds_v then
    if Qlt_le_dec (section_ds_v - len) (step_v - tolerance) then
      let section_ds' := len in
      let road_ds' := road_ds_v - (section_ds' - len) in
      Some (section_ds', road_ds')
    else None
  else Some (section_ds_v, road_ds_v).

(** The point built from the reference point, by either branch of the
    test on the offset. *)
Definition center_point (refe_point : element.Point) (offset : Q)
    (section_ds_v : Q) (lane_id : string) (point_idx_v : N) : core.Point :=
  if Qeq_dec 0 offset then
    core.mkPoint (element.x refe_point) (element.y refe_point)
      (element.heading refe_point) section_ds_v
      (lane_id +:+ "_" +:+ to_string_N point_idx_v)
  else
    let offset_point := GetOffsetPoint_element refe_point offset in
    core.mkPoint (element.x offset_point) (element.y offset_point)
      (element.heading offset_point) section_ds_v
      (lane_id +:+ "_" +:+ to_string_N point_idx_v).

(** One iteration of the loop of [CenterLaneSampling]; the boolean tells
    whether the loop goes on ([false] after a [break]).  [len] is
    [section->length()], [lane] the address in [section->center_lane()]
    and [lane_id] its id. *)
Definition sampling_body (geometrys : list element.Geometry)
    (lane_offsets : list element.LaneOffset) (len : Q) (lane : nat)
    (lane_id : string) (s : Sampling) : Sampling * bool :=
  match clamp len (step_ (conv s)) (section_ds s) (road_ds s) with
  | None => (s, false)
  | Some (section_ds1, road_ds1) =>
    match GetGeometry geometrys road_ds1 (conv s) with
    | (None, c1) =>
      (mkSampling section_ds1 road_ds1 (geometry_type s) (point_idx s) c1,
       false)
    | (Some geometry, c1) =>
      let refe_point := element.GetPoint geometry road_ds1 in
      let offset := GetLaneOffsetValue lane_offsets road_ds1 in
      let point :=
        center_point refe_point offset section_ds1 lane_id (point_idx s) in
      let new_geometry :=
        negb (geometry_type s =? element.type geometry)%Z in
      let c2 :=
        if new_geometry then
          write_lane lane
            (lane_add_geometry
               (core.mkGeomotry (element.type geometry) point)) c1
        else c1 in
      let geometry_type1 :=
        if new_geometry then element.type geometry else geometry_type s in
      let c3 := write_lane lane (lane_push_all point) c2 in
      (mkSampling (section_ds1 + step_ c3) (road_ds1 + step_ c3)
         geometry_type1 (point_idx s + 1)%N c3,
       true)
    end
  end.

(** The [while (true)] loop, bounded by [fuel]. *)
Fixpoint sampling_loop (fuel : nat) (geometrys : list element.Geometry)
    (lane_offsets : list element.LaneOffset) (len : Q) (lane : nat)
    (lane_id : string) (s : Sampling) : Outcome Sampling :=
  match fuel with
  | O => OutOfFuel
  | S fuel' =>
    match sampling_body geometrys lane_offsets len lane lane_id s with
    | (s', true) =>
      sampling_loop fuel' geometrys lane_offsets len lane lane_id s'
    | (s', false) => Returns s'
    end
  end.

(** A bound on the number of iterations for a section of length [len]
    walked by [step_v]: one per multiple of the step up to [len], the
    clamped one and the one that breaks. *)
Definition sampling_fuel (len step_v : Q) : nat :=
  S (S (S (Z.to_nat (Qfloor (len / step_v))))).

(** [Convertor::CenterLaneSampling]; the second component is the value
    left in the reference parameter [road_ds]. *)
Definition CenterLaneSampling (geometrys : list element.Geometry)
    (lane_offsets : list element.LaneOffset) (section : nat) (road_ds_v : Q)
    (c : Convertor) : Outcome (Convertor * Q) :=
  sec ← read_section section c;
  lane ← match core.center_lane sec with
         | Some p => Returns p
         | None => Throws
         end;
  ln ← read_lane lane c;
  let c0 := write_lane lane (lane_set_central []) c in
  s ← sampling_loop (sampling_fuel (core.length sec) (step_ c0))
        geometrys lane_offsets (core.length sec) lane (core.lane_id ln)
        (mkSampling 0 road_ds_v (-1) 0 c0);
  mret (conv s, road_ds s).

(** [Convertor::AppendKDTreeSample]. *)
Definition AppendKDTreeSample (point : core.Point) (c : Convertor)
    : Convertor :=
  set_center_line_pts (center_line_pts_ c ++ [point]) c.

(** One iteration of the loop of [LaneSampling], on the convertor and the
    local [point_idx]. *)
Definition LaneSampling_body (ele_lane : element.Lane) (lane : nat)
    (lane_id : string) (lane_dir : Z) (acc : Convertor * Z)
    (refe_point : core.Point) : Convertor * Z :=
  let '(c, point_idx_v) := acc in
  let lane_width :=
    element.GetLaneWidth ele_lane (core.start_position refe_point)
    * inject_Z lane_dir in
  let point_id := lane_id +:+ "_" +:+ to_string_Z point_idx_v in
  (* left boundary point *)
  let point := core.set_id (point_id +:+ "_1") refe_point in
  let c := write_lane lane
             (fun l => lane_set_left (core.left_boundary l ++ [point]) l) c in
  (* center line point *)
  let point :=
    core.set_id (point_id +:+ "_2")
      (GetOffsetPoint refe_point (lane_width / 2)) in
  let c := write_lane lane
             (fun l => lane_set_central (core.central_curve l ++ [point]) l)
             c in
  let c := AppendKDTreeSample point c in
  (* right boundary point *)
  let point :=
    core.set_id (point_id +:+ "_3") (GetOffsetPoint refe_point lane_width) in
  let c := write_lane lane
             (fun l => lane_set_right (core.right_boundary l ++ [point]) l)
             c in
  (c, (point_idx_v + 1)%Z).

(** [Convertor::LaneSampling].  [refe_line] is the value of the vector the
    reference designates; [lane] is a fresh object, so that vector is not
    written while it is read. *)
Definition LaneSampling (ele_lane : element.Lane) (lane : nat)
    (refe_line : core.Line) (c : Convertor) : Outcome Convertor :=
  ln ← read_lane lane c;
  let lane_idx := Split (core.lane_id ln) "_" in
  idx2 ← at_ lane_idx 2;
  let lane_dir := if String.ltb "0" idx2 then 1%Z else (-1)%Z in
  mret (fst (fold_left
               (LaneSampling_body ele_lane lane (core.lane_id ln) lane_dir)
               refe_line (c, 0%Z))).

End Sampling.

Definition section_add_left (lane : nat) (s : core.Section) : core.Section :=
  core.mkSection (core.section_id s) (core.section_parent_id s)
    (core.section_start s) (core.section_end s) (core.length s)
    (core.center_lane s) (core.left_lanes s ++ [lane]) (core.right_lanes s).

Definition section_add_right (lane : nat) (s : core.Section) : core.Section :=
  core.mkSection (core.section_id s) (core.section_parent_id s)
    (core.section_start s) (core.section_end s) (core.length s)
    (core.center_lane s) (core.left_lanes s) (core.right_lanes s ++ [lane]).

Definition section_set_center (lane : nat) (s : core.Section) : core.Section :=
  core.mkSection (core.section_id s) (core.section_parent_id s)
    (core.section_start s) (core.section_end s) (core.length s)
    (Some lane) (core.left_lanes s) (core.right_lanes s).

Definition section_set_attr (i parent : string) (start_v end_v : Q)
    (s : core.Section) : core.Section :=
  core.mkSection i parent start_v end_v (end_v - start_v)
    (core.center_lane s) (core.left_lanes s) (core.right_lanes s).

Definition road_add_section (section : nat) (r : core.Road) : core.Road :=
  core.mkRoad (core.road_id r) (core.name r) (core.junction_id r)
    (core.road_length r) (core.rule r) (core.predecessor_ids r)
    (core.successor_ids r) (core.info r) (core.road_sections r ++ [section]).

Section Pipeline.

Context `{External}.

(** The constant that the one-argument [kdtree->Init] passes on. *)
Variable default_param : kdtree.KDTreeParam.

(** [Convertor::ConvertHeader]. *)
Definition ConvertHeader (ele_map : element.Map) (c : Convertor)
    : Outcome Convertor :=
  if negb (Continue c) then mret c
  else
    let h := element.header ele_map in
    let header :=
      core.mkHeader (element.rev_major h) (element.rev_minor h)
        (element.header_name h) (element.version h) (element.date h)
        (element.north h) (element.south h) (element.west h)
        (element.east h) (element.vendor h) in
    on_data (set_header header) c.

(** [Convertor::ConvertJunctionAttr], as the junction it leaves. *)
Definition ConvertJunctionAttr (ele_junction : element.Junction)
    (junction : core.Junction) (c : Convertor) : core.Junction :=
  if negb (Continue c) then junction
  else
    core.mkJunction (to_string_Z (element.junction_attr_id ele_junction))
      (element.junction_name ele_junction)
      (element.junction_type ele_junction).

Definition ConvertJunction_body (ele_junction : element.Junction)
    (c : Convertor) : Outcome Convertor :=
  if (element.junction_attr_id ele_junction <? 0)%Z then mret c
  else
    let junction := core.new_Junction in
    let junction := ConvertJunctionAttr ele_junction junction c in
    on_data (put_junction (core.junction_id_ junction) junction) c.

(** [Convertor::ConvertJunction]. *)
Definition ConvertJunction (ele_map : element.Map) (c : Convertor)
    : Outcome Convertor :=
  if negb (Continue c) then mret c
  else for_each ConvertJunction_body (element.junctions ele_map) c.

(** [Convertor::ConvertRoadAttr], as the road it leaves. *)
Definition ConvertRoadAttr (ele_road : element.Road) (road : core.Road)
    (c : Convertor) : core.Road :=
  if negb (Continue c) then road
  else
    let predecessor_ids :=
      if bool_decide ((-1)%Z ≠ element.predecessor ele_road) then
        {[to_string_Z (element.predecessor ele_road)]}
        ∪ core.predecessor_ids road
      else core.predecessor_ids road in
    let successor_ids :=
      if bool_decide ((-1)%Z ≠ element.successor ele_road) then
        {[to_string_Z (element.successor ele_road)]}
        ∪ core.successor_ids road
      else core.successor_ids road in
    core.mkRoad (to_string_Z (element.id ele_road)) (element.name ele_road)
      (to_string_Z (element.junction_id ele_road))
      (element.length ele_road) (element.rule ele_road)
      predecessor_ids successor_ids
      (core.info road
       ++ map (fun ele_info =>
                 core.mkRoadInfo (element.info_start_position ele_info)
                   (element.info_type ele_info))
            (element.type_info ele_road))
      (core.road_sections road).

(** The loops over the left and over the right lanes of a section.  [add]
    appends to the section's list of that side; [refe] is the address of
    the lane whose left boundary the reference [refe_line] designates. *)
Fixpoint lanes_loop (add : nat -> core.Section -> core.Section)
    (ele_lanes : list element.Lane) (section : nat) (section_id : string)
    (refe : nat) (c : Convertor) : Outcome Convertor :=
  match ele_lanes with
  | [] => mret c
  | ele_lane :: rest =>
    let '(lane, m) := alloc_lane (memory c) in
    let c := set_memory m c in
    let c := write_section section (add lane) c in
    let c :=
      write_lane lane
        (lane_set_ids
           (section_id +:+ "_" +:+ to_string_Z (element.lane_id ele_lane))
           section_id) c in
    refe_lane ← read_lane refe c;
    c ← LaneSampling ele_lane lane (core.left_boundary refe_lane) c;
    ln ← read_lane lane c;
    c ← on_data (put_lane (core.lane_id ln) lane) c;
    (* refe_line = lane->mutable_right_boundary()...mutable_pts(); *)
    let c := write_lane refe (lane_set_left (core.right_boundary ln)) c in
    lanes_loop add rest section section_id refe c
  end.

(** The loop of [ConvertSection] over the lane sections, with the locals
    [section_idx] and [road_ds]; the [return] of the center lane test ends
    it. *)
Fixpoint ConvertSection_loop (ele_road : element.Road) (road_id : string)
    (ele_sections : list element.LaneSection) (section_idx : Z)
    (road_ds_v : Q) (road : core.Road) (c : Convertor)
    : Outcome (Convertor * core.Road) :=
  match ele_sections with
  | [] => mret (c, road)
  | ele_section :: rest =>
    let '(section, m) := alloc_section (memory c) in
    let c := set_memory m c in
    let road := road_add_section section road in
    let section_id := road_id +:+ "_" +:+ to_string_Z section_idx in
    let c :=
      write_section section
        (section_set_attr section_id road_id
           (element.start_position ele_section)
           (element.end_position ele_section)) c in
    c ← on_data (put_section section_id section) c;
    (* center lane *)
    if bool_decide (1%nat ≠ List.length (element.center ele_section)) then
      mret (SetStatus CONVERTOR_CENTERLANE_ERROR
              (section_id +:+ " center lane size not equal 1.") c,
            road)
    else
      let '(lane, m) := alloc_lane (memory c) in
      let c := set_memory m c in
      let c := write_section section (section_set_center lane) c in
      let c :=
        write_lane lane (lane_set_ids (section_id +:+ "_0") section_id) c in
      '(c, road_ds_v) ← CenterLaneSampling (element.geometrys ele_road)
                          (element.lane_offsets ele_road) section road_ds_v
                          c;
      ln ← read_lane lane c;
      c ← on_data (put_lane (core.lane_id ln) lane) c;
      (* refe_line is bound to the left boundary of the center lane *)
      c ← lanes_loop section_add_left (element.left ele_section) section
            section_id lane c;
      (* refe_line = section->mutable_center_lane()
                       ->mutable_right_boundary()...mutable_pts(); *)
      let c :=
        write_lane lane (fun l => lane_set_left (core.right_boundary l) l)
          c in
      c ← lanes_loop section_add_right (element.right ele_section) section
            section_id lane c;
      ConvertSection_loop ele_road road_id rest (section_idx + 1)%Z
        road_ds_v road c
  end.

(** [Convertor::ConvertSection], with the road it leaves. *)
Definition ConvertSection (ele_road : element.Road) (road : core.Road)
    (c : Convertor) : Outcome (Convertor * core.Road) :=
  if negb (Continue c) then mret (c, road)
  else
    let road_id := to_string_Z (element.id ele_road) in
    ConvertSection_loop ele_road road_id (element.lane_sections ele_road)
      0%Z 0 road c.

Definition ConvertRoad_body (ele_road : element.Road) (c : Convertor)
    : Outcome Convertor :=
  if (element.id ele_road <? 0)%Z then mret c
  else
    let road := core.new_Road in
    let road := ConvertRoadAttr ele_road road c in
    '(c, road) ← ConvertSection ele_road road c;
    on_data (put_road (core.road_id road) road) c.

(** [Convertor::ConvertRoad]. *)
Definition ConvertRoad (ele_map : element.Map) (c : Convertor)
    : Outcome Convertor :=
  if negb (Continue c) then mret c
  else for_each ConvertRoad_body (element.roads ele_map) c.

(** [Convertor::BuildKDTree]. *)
Definition BuildKDTree (c : Convertor) : Outcome Convertor :=
  if negb (Continue c) then mret c
  else
    match kdtree_ c with
    | Some t =>
      mret (set_kdtree
              (Some (kdtree.Init (center_line_pts_ c) default_param t)) c)
    | None => Throws
    end.

(** [Convertor::End]. *)
Definition End (c : Convertor) : Convertor :=
  if negb (Continue c) then c else set_center_line_pts [] c.

(** [Convertor::Start].  The status it returns is [status_] of the
    convertor it leaves. *)
Definition Start (c : Convertor) : Outcome Convertor :=
  let c := set_center_line_pts [] c in
  match param_ c, data_ c with
  | Some param, Some _ =>
    let c := set_step (Qmax (1 # 10) (step param)) c in
    let c := set_status (mkStatus OK "ok") c in
    let map_file_v := map_file param in
    if bool_decide (map_file_v = "") || negb (FileExists map_file_v) then
      mret (SetStatus INIT_MAPFILE_ERROR
              ("input file error: " +:+ map_file_v) c)
    else
      let '(parse_ok, ele_map) := ParseMap map_file_v in
      if negb parse_ok then
        mret (SetStatus INIT_MAPFILE_ERROR
                ("input file error: " +:+ map_file_v) c)
      else
        c ← ConvertHeader ele_map c;
        c ← ConvertRoad ele_map c;
        c ← ConvertJunction ele_map c;
        c ← BuildKDTree c;
        mret (End c)
  | _, _ => mret (SetStatus INIT_FACTORY_ERROR "factory error." c)
  end.

End Pipeline.

(** ** The positions visited by the loop of [CenterLaneSampling]

    [walk len step d ps]: started with [section_ds = d], the loop records
    the positions [ps], one constructor per iteration: the [break], the
    clamped iteration, and an iteration inside the section. *)



(** ** What [LaneSampling] leaves in a lane

    The three points that one reference point yields, and the three curves
    of a lane sampled from a reference curve.  These follow the description
    of the lane sampling; the lemmas relate them to [LaneSampling]. *)

Section LaneSpec.

Context `{External}.

Definition signed_width (ele_lane : element.Lane) (lane_dir : Z)
    (refe_point : core.Point) : Q :=
  element.GetLaneWidth ele_lane (core.start_position refe_point)
  * inject_Z lane_dir.

Definition left_point (lane_id : string) (i : Z) (refe_point : core.Point)
    : core.Point :=
  core.set_id ((lane_id +:+ "_" +:+ to_string_Z i) +:+ "_1") refe_point.

Definition central_point (ele_lane : element.Lane) (lane_dir : Z)
    (lane_id : string) (i : Z) (refe_point : core.Point) : core.Point :=
  core.set_id ((lane_id +:+ "_" +:+ to_string_Z i) +:+ "_2")
    (GetOffsetPoint refe_point
       (signed_width ele_lane lane_dir refe_point / 2)).

Definition right_point (ele_lane : element.Lane) (lane_dir : Z)
    (lane_id : string) (i : Z) (refe_point : core.Point) : core.Point :=
  core.set_id ((lane_id +:+ "_" +:+ to_string_Z i) +:+ "_3")
    (GetOffsetPoint refe_point (signed_width ele_lane lane_dir refe_point)).

(** [ln] holds exactly the three points of every point of [refe_line]. *)
Definition sampled_from (ele_lane : element.Lane) (lane_dir : Z)
    (refe_line : core.Line) (ln : core.Lane) : Prop :=
  core.left_boundary ln
  = imap (fun i => left_point (core.lane_id ln) (Z.of_nat i)) refe_line /\
  core.central_curve ln
  = imap (fun i => central_point ele_lane lane_dir (core.lane_id ln)
                     (Z.of_nat i)) refe_line /\
  core.right_boundary ln
  = imap (fun i => right_point ele_lane lane_dir (core.lane_id ln)
                     (Z.of_nat i)) refe_line.

(** The lanes [lns] of one side, from the center outwards: each is
    sampled from the right boundary of the one before, the first from
    [refe_line]. *)
Fixpoint stitched (refe_line : core.Line) (ele_lanes : list element.Lane)
    (lns : list core.Lane) : Prop :=
  match ele_lanes, lns with
  | [], [] => True
  | ele_lane :: ele_lanes', ln :: lns' =>
    (exists lane_dir : Z,
       (lane_dir = 1 \/ lane_dir = -1)%Z /\
       sampled_from ele_lane lane_dir refe_line ln) /\
    stitched (core.right_boundary ln) ele_lanes' lns'
  | _, _ => False
  end.

End LaneSpec.

(** A point without its id: coordinates, heading and arc-length. *)
Definition place (p : core.Point) : Q * Q * Q * Q :=
  (core.x p, core.y p, core.heading p, core.start_position p).

(** What survives a run of lane sampling: the repository pointer, the
    status, the sections, the number of lanes in the store and every lane
    but [lane]. *)
Definition lanes_frame (lane : nat) (c c' : Convertor) : Prop :=
  data_ c' = data_ c /\
  status_ c' = status_ c /\
  mem_sections (memory c') = mem_sections (memory c) /\
  List.length (mem_lanes (memory c')) = List.length (mem_lanes (memory c)) /\
  forall q : nat,
    q ≠ lane -> mem_lanes (memory c') !! q = mem_lanes (memory c) !! q.

(** ** Notions used to state the properties of the pipeline and of the
    k-d tree *)

(** The parsed map without the roads and junctions of negative id. *)
Definition without_negative_ids (ele_map : element.Map) : element.Map :=
  element.mkMap (element.header ele_map)
    (filter (fun r => (0 <= element.id r)%Z) (element.roads ele_map))
    (filter (fun j => (0 <= element.junction_attr_id j)%Z)
       (element.junctions ele_map)).

(** The squared Euclidean distance from a sample to the query. *)
Definition squared_distance (p : core.Point) (qx qy : Q) : Q :=
  (core.x p - qx) * (core.x p - qx) + (core.y p - qy) * (core.y p - qy).

(** [r] is the result for the neighbour at index [neighbour.1] of
    [samples], reported at squared distance [neighbour.2]: it carries the
    coordinates and the id of that sample and the square root of the
    squared distance, which is the Euclidean distance to the query. *)
Definition result_of (samples : list core.Point) (qx qy : Q)
    (neighbour : nat * Q) (r : kdtree.KDTreeResult) : Prop :=
  exists p,
    samples !! neighbour.1 = Some p /\
    kdtree.x r = core.x p /\ kdtree.y r = core.y p /\
    kdtree.id r = core.id p /\
    kdtree.dist r = sqrt (Q2R neighbour.2) /\
    kdtree.dist r = sqrt (Q2R (squared_distance p qx qy)).

(** The call returns or throws, and a convertor it returns has the step
    [q]: the bound of the sampling loop was large enough. *)
Definition keeps_step {A : Type} (get : A -> Convertor) (q : Q)
    (o : Outcome A) : Prop :=
  match o with
  | Returns a => step_ (get a) = q
  | Throws => True
  | OutOfFuel => False
  end.

(** ** Notions used to state further properties of the conversion *)

(** Geometry markers whose types change from each one to the next, the
    first differing from [t0]. *)
Fixpoint alternating (t0 : Z) (gs : list core.Geomotry) : Prop :=
  match gs with
  | [] => True
  | g :: gs' => core.type g <> t0 /\ alternating (core.type g) gs'
  end.

(** The type of the last marker of [gs], [t0] when there is none. *)
Definition last_type (t0 : Z) (gs : list core.Geomotry) : Z :=
  fold_left (fun _ g => core.type g) gs t0.

(** What center lane sampling leaves alone: everything but the status and
    the lane at [lane]. *)
Definition sampling_frame (lane : nat) (c c' : Convertor) : Prop :=
  step_ c' = step_ c /\
  param_ c' = param_ c /\
  data_ c' = data_ c /\
  center_line_pts_ c' = center_line_pts_ c /\
  kdtree_ c' = kdtree_ c /\
  mem_sections (memory c') = mem_sections (memory c) /\
  List.length (mem_lanes (memory c')) = List.length (mem_lanes (memory c)) /\
  (forall q : nat,
     q ≠ lane -> mem_lanes (memory c') !! q = mem_lanes (memory c) !! q) /\
  (status_ c' = status_ c \/
   status_ c'
   = mkStatus CONVERTOR_CENTERLANE_ERROR "get geometry index execption.").

(** The status of the convertor that a call returns satisfies [P]. *)
Definition returns_status {A : Type} (P : Status -> Prop)
    (get : A -> Convertor) (o : Outcome A) : Prop :=
  match o with
  | Returns a => P (status_ (get a))
  | Throws | OutOfFuel => True
  end.

(** The junction that [ConvertJunctionAttr] makes of a parsed one. *)
Definition converted_junction (j : element.Junction) : core.Junction :=
  core.mkJunction (to_string_Z (element.junction_attr_id j))
    (element.junction_name j) (element.junction_type j).

(** The parsed junctions that are stored under [key]. *)
Definition stored_under (key : string) (j : element.Junction) : Prop :=
  (0 <= element.junction_attr_id j)%Z
  /\ to_string_Z (element.junction_attr_id j) = key.

Global Instance stored_under_dec key j : Decision (stored_under key j) :=
  decide ((0 <= element.junction_attr_id j)%Z
          /\ to_string_Z (element.junction_attr_id j) = key).

(** [road] with [sections] as its list of sections. *)
Definition road_with_sections (road : core.Road) (sections : list nat)
    : core.Road :=
  core.mkRoad (core.road_id road) (core.name road) (core.junction_id road)
    (core.road_length road) (core.rule road) (core.predecessor_ids road)
    (core.successor_ids road) (core.info road) sections.

(** Every lane of the store of [c] is in the store of [c'], at its address
    and with its id. *)
Definition keeps_lane_ids (c c' : Convertor) : Prop :=
  forall (q : nat) (ln : core.Lane),
    mem_lanes (memory c) !! q = Some ln ->
    exists ln',
      mem_lanes (memory c') !! q = Some ln' /\
      core.lane_id ln' = core.lane_id ln.

(** The id [ConvertSection] gives the lane of a parsed lane. *)
Definition lane_key (section_id : string) (e : element.Lane) : string :=
  section_id +:+ "_" +:+ to_string_Z (element.lane_id e).

(** [s'] has the id, the parent, the bounds and the length of [s]. *)
Definition same_attributes (s s' : core.Section) : Prop :=
  core.section_id s' = core.section_id s /\
  core.section_parent_id s' = core.section_parent_id s /\
  core.section_start s' = core.section_start s /\
  core.section_end s' = core.section_end s /\
  core.length s' = core.length s.

(** The store of [c'] has the sections of the store of [c], at their
    addresses and with their attributes, and no other. *)
Definition keeps_sections (c c' : Convertor) : Prop :=
  List.length (mem_sections (memory c'))
  = List.length (mem_sections (memory c)) /\
  forall (q : nat) (sec : core.Section),
    mem_sections (memory c) !! q = Some sec ->
    exists sec',
      mem_sections (memory c') !! q = Some sec' /\ same_attributes sec sec'.

(** The id [ConvertSection] gives the section of index [idx] of a road. *)
Definition section_key (road_id : string) (idx : Z) : string :=
  road_id +:+ "_" +:+ to_string_Z idx.

(** [r] carries the coordinates and the id of one of [samples]. *)
Definition from_sample (samples : list core.Point) (r : kdtree.KDTreeResult)
    : Prop :=
  exists i p,
    samples !! i = Some p /\
    kdtree.x r = core.x p /\ kdtree.y r = core.y p /\
    kdtree.id r = core.id p.

(** ** A straight road, for concrete runs

    A road along the x axis with one line geometry; lateral offsets shift a
    point along y, which is what a perpendicular shift does at heading 0. *)

Module Fixtures.

Definition line : element.Geometry :=
  element.mkGeometry 1 (fun s => element.mkPoint s 0 0).

(** Splitting at every occurrence of a one-character delimiter. *)
Fixpoint split_on (d : Ascii.ascii) (s : string) (cur : string) : list string :=
  match s with
  | EmptyString => [cur]
  | String a s' =>
    if Ascii.eqb a d then cur :: split_on d s' ""
    else split_on d s' (cur +:+ String a EmptyString)
  end.

Definition split (s delim : string) : list string :=
  match delim with
  | String d EmptyString => split_on d s ""
  | _ => [s]
  end.

Definition empty_map : element.Map :=
  element.mkMap (element.mkHeader "" "" "" "" "" 0 0 0 0 "") [] [].

Definition shift_element (p : element.Point) (d : Q) : element.Point :=
  element.mkPoint (element.x p) (element.y p + d) (element.heading p).

Definition shift (p : core.Point) (d : Q) : core.Point :=
  core.mkPoint (core.x p) (core.y p + d) (core.heading p)
    (core.start_position p) (core.id p).

(** Collaborators parameterised by the two index lookups and the parser. *)
Definition collaborators
    (geometry_index : list element.Geometry -> Q -> Z)
    (offset_index : list element.LaneOffset -> Q -> Z)
    (parse : string -> bool * element.Map) : External :=
  {| GetGtPtrPoloy3 := geometry_index;
     GetGeValuePoloy3 := offset_index;
     GetOffsetPoint_element := shift_element;
     GetOffsetPoint := shift;
     Split := split;
     FileExists := fun _ => true;
     ParseMap := parse |}.

(** The first geometry covers every arc-length; no lane offset applies. *)
Definition straight : External :=
  collaborators (fun _ _ => 0%Z) (fun _ _ => (-1)%Z)
    (fun _ => (true, empty_map)).

Definition empty_data : core.Data := core.mkData None ∅ ∅ ∅ ∅.

(** A convertor after a successful start of [Start], with step [step_v]. *)
Definition fresh (step_v : Q) : Convertor :=
  mkConvertor (mkStatus OK "ok") step_v (Some (mkParam step_v "map.xodr"))
    (Some empty_data) [] (Some kdtree.new_KDTree) (mkMemory [] []).

(** The same with one section of length [len] whose center lane is the
    fresh lane at address 0. *)
Definition with_section (step_v len : Q) : Convertor :=
  set_memory
    (mkMemory
       [core.mkSection "0_0" "0" 0 len len (Some 0%nat) [] []]
       [core.mkLane "0_0_0" "0_0" [] [] [] []])
    (fresh step_v).

Definition default_param : kdtree.KDTreeParam := kdtree.mkKDTreeParam 0 10.

(** A section from 0 to [len] with its center lane and the given left and
    right lanes. *)
Definition lane_section (len : Q) (left_lanes right_lanes : list element.Lane)
    : element.LaneSection :=
  element.mkLaneSection 0 len [element.mkLane 0 (fun _ => 0)]
    left_lanes right_lanes.

(** A road with the line geometry, no lane offset and no link. *)
Definition road (road_id : Z) (len : Q)
    (lane_sections : list element.LaneSection) : element.Road :=
  element.mkRoad road_id "road" (-1) len 0 (-1) (-1) [] [line] []
    lane_sections.

Definition map_of (roads : list element.Road) : element.Map :=
  element.mkMap (element.mkHeader "1" "4" "map" "1.0" "" 0 0 0 0 "")
    roads [].

(** Road 0, of length 0.25, is one section with a center lane only. *)
Definition short_map : element.Map :=
  map_of [road 0 (25 # 100) [lane_section (25 # 100) [] []]].

(** The collaborators of [short_map]: the geometry lookup answers the
    index past the end beyond the road length 0.25. *)
Definition short_road_collaborators : External :=
  collaborators
    (fun geometrys s =>
       if Qlt_le_dec (25 # 100) s then Z.of_nat (List.length geometrys)
       else 0%Z)
    (fun _ _ => (-1)%Z)
    (fun _ => (true, short_map)).

(** The convertor of [with_section] after the center lane was sampled at
    the positions 0 and 0.1. *)
Definition with_center_lane : Convertor :=
  let pts := [core.mkPoint 0 0 0 0 "0_0_0_0";
              core.mkPoint (1 # 10) 0 0 (1 # 10) "0_0_0_1"] in
  set_memory
    (mkMemory
       [core.mkSection "0_0" "0" 0 (1 # 10) (1 # 10) (Some 0%nat) [] []]
       [core.mkLane "0_0_0" "0_0" pts pts pts []])
    (fresh (1 # 10)).

(** Two left lanes, of widths 3 and 2. *)
Definition two_left_lanes : list element.Lane :=
  [element.mkLane 1 (fun _ => 3); element.mkLane 2 (fun _ => 2)].

(** A section without center lane. *)
Definition no_center_section : element.LaneSection :=
  element.mkLaneSection 0 (1 # 10) [] [] [].

Definition right_lane : element.Lane := element.mkLane (-1) (fun _ => 3).

(** Road 0 has a section without center lane; road 1 is well formed. *)
Definition bad_then_good_map : element.Map :=
  map_of [road 0 (1 # 10) [no_center_section];
          road 1 (1 # 10) [lane_section (1 # 10) [] []]].

Definition bad_then_good : External :=
  collaborators (fun _ _ => 0%Z) (fun _ _ => (-1)%Z)
    (fun _ => (true, bad_then_good_map)).

(** Road 0: a section with a right lane, then a section without center
    lane; the geometry lookup answers a negative index. *)
Definition no_geometry_map : element.Map :=
  map_of [road 0 (2 # 10)
            [lane_section (1 # 10) [] [right_lane]; no_center_section]].

Definition no_geometry : External :=
  collaborators (fun _ _ => (-1)%Z) (fun _ _ => (-1)%Z)
    (fun _ => (true, no_geometry_map)).

(** Road 0: one section of length 0.1 with a center lane and one right
    lane of width 3. *)
Definition one_right_lane_road : element.Road :=
  road 0 (1 # 10) [lane_section (1 # 10) [] [right_lane]].

Definition one_right_lane : External :=
  collaborators (fun _ _ => 0%Z) (fun _ _ => (-1)%Z)
    (fun _ => (true, map_of [one_right_lane_road])).

(** A point left in [center_line_pts_] by an earlier run. *)
Definition stale_point : core.Point := core.mkPoint 7 7 0 0 "stale".

(** A neighbour search by exhaustion: all points with their squared
    distance, sorted by insertion, the first [k] of them. *)
Fixpoint insert_by_distance (n : nat * Q) (l : list (nat * Q))
    : list (nat * Q) :=
  match l with
  | [] => [n]
  | m :: l' =>
    if Qle_bool n.2 m.2 then n :: l else m :: insert_by_distance n l'
  end.

Definition exhaustive_search (a : kdtree.KDTreeAdaptor) (q : Q * Q)
    (k : nat) : list (nat * Q) :=
  take k
    (foldr insert_by_distance []
       (imap (fun i node =>
                (i,
                 (kdtree.node_get node 0 - q.1)
                 * (kdtree.node_get node 0 - q.1)
                 + (kdtree.node_get node 1 - q.2)
                   * (kdtree.node_get node 1 - q.2)))
          (kdtree.matrix_ a))).

Definition three_samples : list core.Point :=
  [core.mkPoint 0 0 0 0 "a"; core.mkPoint 1 0 0 0 "b";
   core.mkPoint 5 0 0 0 "c"].

(** A convertor whose store holds one lane, of id [lane_id], with empty
    curves. *)
Definition with_lane (lane_id : string) : Convertor :=
  set_memory (mkMemory [] [core.mkLane lane_id "0_0" [] [] [] []])
    (fresh (1 # 10)).

(** Two points of a reference curve. *)
Definition two_points : core.Line :=
  [core.mkPoint 0 0 0 0 "0_0_0_0";
   core.mkPoint (1 # 10) 0 0 (1 # 10) "0_0_0_1"].

(** A map whose junctions are: id 3, id -1, id 3 again. *)
Definition junctions_map : element.Map :=
  element.mkMap (element.mkHeader "1" "4" "map" "1.0" "" 0 0 0 0 "") []
    [element.mkJunction 3 "first" 0; element.mkJunction (-1) "none" 0;
     element.mkJunction 3 "second" 1].

End Fixtures.

(** * Lemmas *)

Lemma tolerance_pos : 0 < tolerance.
Proof. reflexivity. Qed.

(** Running the binds of [Outcome] whose argument is known. *)
Ltac outcome_steps := cbn [mbind Outcome_bind mret Outcome_ret].

Section StoreFacts.

Lemma write_lane_lookup p f c ln :
  mem_lanes (memory c) !! p = Some ln ->
  mem_lanes (memory (write_lane p f c)) !! p = Some (f ln).
Proof.
  intros Hl. cbn. rewrite list_lookup_alter_eq. by rewrite Hl.
Qed.

Lemma write_lane_lookup_ne p q f c :
  p ≠ q ->
  mem_lanes (memory (write_lane p f c)) !! q = mem_lanes (memory c) !! q.
Proof. intros Hne. cbn. by rewrite list_lookup_alter_ne. Qed.

Lemma read_lane_Some p c ln :
  mem_lanes (memory c) !! p = Some ln -> read_lane p c = Returns ln.
Proof. intros Hl. unfold read_lane, at_. by rewrite Hl. Qed.

Lemma read_section_Some p c sec :
  mem_sections (memory c) !! p = Some sec -> read_section p c = Returns sec.
Proof. intros Hl. unfold read_section, at_. by rewrite Hl. Qed.

End StoreFacts.

Section WalkFacts.

Variables len step_v : Q.
Hypothesis step_pos : 0 < step_v.






End WalkFacts.

Section LoopFacts.

Context `{External}.
Variable geometrys : list element.Geometry.
Variable lane_offsets : list element.LaneOffset.
Variable len : Q.
Variable lane : nat.
Variable lane_id : string.




Lemma clamp_cases step_v d r :
  match clamp len step_v d r with
  | None => len < d /\ step_v - tolerance <= d - len
  | Some (d1, r1) =>
    (d <= len /\ d1 = d /\ r1 = r) \/
    (len < d /\ d - len < step_v - tolerance /\ d1 = len /\
     r1 = r - (len - len))
  end.
Proof.
  unfold clamp.
  destruct (Qlt_le_dec len d) as [Hlt | Hle].
  - destruct (Qlt_le_dec (d - len) (step_v - tolerance)) as [Hc | Hb].
    + right. done.
    + done.
  - left. done.
Qed.


End LoopFacts.

(** * Center lane sampling *)

Section CenterLaneFacts.

Context `{External}.



Lemma sampling_fuel_enough len step_v :
  0 < step_v ->
  len - 0
  < inject_Z (Z.of_nat (S (Z.to_nat (Qfloor (len / step_v))))) * step_v.
Proof.
  intros Hpos.
  assert (Hfl : len / step_v < inject_Z (Qfloor (len / step_v) + 1))
    by apply Qlt_floor.
  assert (Hle : inject_Z (Qfloor (len / step_v) + 1)
                <= inject_Z (Z.of_nat (S (Z.to_nat (Qfloor (len / step_v)))))).
  { rewrite <- Zle_Qle. lia. }
  assert (Hq : len / step_v
               < inject_Z (Z.of_nat (S (Z.to_nat (Qfloor (len / step_v))))))
    by lra.
  apply (Qmult_lt_r _ _ step_v Hpos) in Hq.
  assert (Hdiv : len / step_v * step_v == len).
  { field. intros Hz. rewrite Hz in Hpos. by apply Qlt_irrefl in Hpos. }
  rewrite Hdiv in Hq. lra.
Qed.

End CenterLaneFacts.




(** The clamped iteration leaves the road cursor where it was:
    [section_ds] is assigned first, so the amount subtracted from
    [road_ds] is [len - len]. *)
Lemma clamp_keeps_road_cursor `{External} (len step_v d r d1 r1 : Q) :
  len < d -> clamp len step_v d r = Some (d1, r1) -> d1 = len /\ r1 == r.
Proof.
  intros Hlt Hc.
  pose proof (clamp_cases len step_v d r) as Hcl. rewrite Hc in Hcl.
  destruct Hcl as [(Hle & _) | (_ & _ & -> & ->)]; [lra |].
  split; [reflexivity | ring].
Qed.

(** C4 (the code at the failing input).  Step 0.1, a section of length 0.25
    that starts at road arc-length 0, on the straight road whose point at
    arc-length [s] has [x = s]: the last point carries the section-local
    position 0.25 and was evaluated at road arc-length 0.3, and the cursor
    handed to the next section is 0.4. *)
Theorem CenterLaneSampling_clamp_road_cursor :
  exists c' road_ds' ln' pt,
    @CenterLaneSampling Fixtures.straight [Fixtures.line] [] 0 0
      (Fixtures.with_section (1 # 10) (25 # 100))
    = Returns (c', road_ds') /\
    mem_lanes (memory c') !! 0%nat = Some ln' /\
    last (core.central_curve ln') = Some pt /\
    core.start_position pt == 25 # 100 /\
    core.x pt == 3 # 10 /\
    road_ds' == 4 # 10.
Proof.
  eexists _, _, _, _.
  split; [vm_compute; reflexivity |].
  split; [reflexivity |].
  split; [reflexivity |].
  repeat split; reflexivity.
Qed.

(** An index at or past the end of [geometrys] yields [nullptr] and leaves
    the status alone; a negative index records the error. *)
Lemma GetGeometry_past_the_end `{External} geometrys road_ds_v c :
  (Z.of_nat (List.length geometrys) <= GetGtPtrPoloy3 geometrys road_ds_v)%Z ->
  GetGeometry geometrys road_ds_v c = (None, c).
Proof.
  intros Hge. unfold GetGeometry.
  destruct (Z.ltb_spec (GetGtPtrPoloy3 geometrys road_ds_v) 0); [lia |].
  destruct (Z.ltb_spec (GetGtPtrPoloy3 geometrys road_ds_v)
              (Z.of_nat (List.length geometrys))); [lia | reflexivity].
Qed.

Lemma GetGeometry_negative `{External} geometrys road_ds_v c :
  (GetGtPtrPoloy3 geometrys road_ds_v < 0)%Z ->
  GetGeometry geometrys road_ds_v c
  = (None,
     SetStatus CONVERTOR_CENTERLANE_ERROR "get geometry index execption." c).
Proof.
  intros Hneg. unfold GetGeometry.
  destruct (Z.ltb_spec (GetGtPtrPoloy3 geometrys road_ds_v) 0);
    [reflexivity | lia].
Qed.

(** C7 (the code at the failing input).  Road 0 has length 0.25 and one
    section; beyond the road length the geometry lookup answers the index
    past the end.  The clamped sample asks for road arc-length 0.3, no
    geometry is found, the loop stops after the positions 0, 0.1 and 0.2,
    and [Start] returns the status OK. *)
Theorem Start_geometry_not_found_is_silent :
  exists c' lane ln',
    @Start Fixtures.short_road_collaborators Fixtures.default_param
      (Fixtures.fresh (1 # 10))
    = Returns c' /\
    status_ c' = mkStatus OK "ok" /\
    (core.lanes <$> data_ c') ≫= (.!! "0_0_0") = Some lane /\
    mem_lanes (memory c') !! lane = Some ln' /\
    Forall2 Qeq (map core.start_position (core.central_curve ln'))
      [0; 1 # 10; 2 # 10] /\
    @GetGeometry Fixtures.short_road_collaborators [Fixtures.line] (3 # 10) c'
    = (None, c').
Proof.
  eexists _, _, _.
  split; [vm_compute; reflexivity |].
  split; [reflexivity |].
  split; [vm_compute; reflexivity |].
  split; [reflexivity |].
  split; [repeat constructor; reflexivity |].
  reflexivity.
Qed.

(** C9.  When the lookup of the lane offset entry answers an index outside
    the table, which every index is for an empty table,
    [GetLaneOffsetValue] is 0; an iteration of the center lane sampling that
    found its geometry then goes on, records the reference point itself at
    the current position and leaves the status as it was. *)
Theorem GetLaneOffsetValue_out_of_range `{External}
    (lane_offsets : list element.LaneOffset) (road_ds_v : Q) :
  (GetGeValuePoloy3 lane_offsets road_ds_v < 0
   \/ Z.of_nat (List.length lane_offsets)
      <= GetGeValuePoloy3 lane_offsets road_ds_v)%Z ->
  GetLaneOffsetValue lane_offsets road_ds_v = 0 /\
  GetLaneOffsetValue [] road_ds_v = 0 /\
  forall geometrys len lane lane_id s d1 g ln,
    clamp len (step_ (conv s)) (section_ds s) (road_ds s)
    = Some (d1, road_ds_v) ->
    GetGeometry geometrys road_ds_v (conv s) = (Some g, conv s) ->
    mem_lanes (memory (conv s)) !! lane = Some ln ->
    exists s' ln',
      sampling_body geometrys lane_offsets len lane lane_id s = (s', true) /\
      status_ (conv s') = status_ (conv s) /\
      mem_lanes (memory (conv s')) !! lane = Some ln' /\
      core.central_curve ln'
      = core.central_curve ln
        ++ [core.mkPoint (element.x (element.GetPoint g road_ds_v))
              (element.y (element.GetPoint g road_ds_v))
              (element.heading (element.GetPoint g road_ds_v)) d1
              (lane_id +:+ "_" +:+ to_string_N (point_idx s))].
Proof.
  intros Hout.
  assert (Hzero : GetLaneOffsetValue lane_offsets road_ds_v = 0).
  { unfold GetLaneOffsetValue.
    destruct (Z.leb_spec 0 (GetGeValuePoloy3 lane_offsets road_ds_v));
      destruct (Z.ltb_spec (GetGeValuePoloy3 lane_offsets road_ds_v)
                  (Z.of_nat (List.length lane_offsets)));
      cbn [andb]; try reflexivity; lia. }
  split; [exact Hzero |]. split.
  { unfold GetLaneOffsetValue.
    destruct (Z.leb_spec 0 (GetGeValuePoloy3 [] road_ds_v));
      destruct (Z.ltb_spec (GetGeValuePoloy3 [] road_ds_v)
                  (Z.of_nat (List.length (@nil element.LaneOffset))));
      cbn [andb]; try reflexivity; cbn in *; lia. }
  intros geometrys len lane lane_id s d1 g ln Hclamp Hgeo Hln.
  unfold sampling_body. rewrite Hclamp, Hgeo, Hzero.
  unfold center_point. destruct (Qeq_dec 0 0) as [_ | Hne]; [| by destruct Hne].
  destruct (negb (geometry_type s =? element.type g)%Z).
  - eexists _, _. split; [reflexivity |]. split; [reflexivity |].
    split; [apply write_lane_lookup, write_lane_lookup; exact Hln |].
    reflexivity.
  - eexists _, _. split; [reflexivity |]. split; [reflexivity |].
    split; [apply write_lane_lookup; exact Hln |].
    reflexivity.
Qed.

Lemma GetLaneOffsetValue_out_of_range_witness :
  @GetLaneOffsetValue Fixtures.straight [] (1 # 10) = 0.
Proof.
  apply (@GetLaneOffsetValue_out_of_range Fixtures.straight [] (1 # 10)).
  left. cbn. lia.
Defined.

(** * Lane sampling *)

Lemma imap_shift {A B : Type} (F : Z -> A -> B) (k : Z) (p : A) (l : list A) :
  imap (fun i => F (k + Z.of_nat i)%Z) (p :: l)
  = F k p :: imap (fun i => F (k + 1 + Z.of_nat i)%Z) l.
Proof.
  rewrite imap_cons. f_equal.
  - by rewrite Z.add_0_r.
  - apply imap_ext. intros i x _. cbn. f_equal. lia.
Qed.

Section LaneFacts.

Context `{External}.

Lemma LaneSampling_fold ele_lane lane lane_id lane_dir :
  forall (refe_line : core.Line) (c : Convertor) (k : Z) (ln : core.Lane),
    mem_lanes (memory c) !! lane = Some ln ->
    exists c' k' ln',
      fold_left (LaneSampling_body ele_lane lane lane_id lane_dir) refe_line
        (c, k) = (c', k') /\
      mem_lanes (memory c') !! lane = Some ln' /\
      core.lane_id ln' = core.lane_id ln /\
      core.left_boundary ln'
      = core.left_boundary ln
        ++ imap (fun i => left_point lane_id (k + Z.of_nat i)) refe_line /\
      core.central_curve ln'
      = core.central_curve ln
        ++ imap (fun i => central_point ele_lane lane_dir lane_id
                            (k + Z.of_nat i)) refe_line /\
      core.right_boundary ln'
      = core.right_boundary ln
        ++ imap (fun i => right_point ele_lane lane_dir lane_id
                            (k + Z.of_nat i)) refe_line /\
      center_line_pts_ c'
      = center_line_pts_ c
        ++ imap (fun i => central_point ele_lane lane_dir lane_id
                            (k + Z.of_nat i)) refe_line /\
      lanes_frame lane c c'.
Proof.
  induction refe_line as [| p refe_line IH]; intros c k ln Hln.
  - exists c, k, ln. cbn. rewrite !app_nil_r.
    repeat (split; [done |]). by repeat split.
  - cbn [fold_left].
    set (step1 := LaneSampling_body ele_lane lane lane_id lane_dir (c, k) p).
    assert (Hstep : exists c1 ln1,
               step1 = (c1, (k + 1)%Z) /\
               mem_lanes (memory c1) !! lane = Some ln1 /\
               core.lane_id ln1 = core.lane_id ln /\
               core.left_boundary ln1
               = core.left_boundary ln ++ [left_point lane_id k p] /\
               core.central_curve ln1
               = core.central_curve ln
                 ++ [central_point ele_lane lane_dir lane_id k p] /\
               core.right_boundary ln1
               = core.right_boundary ln
                 ++ [right_point ele_lane lane_dir lane_id k p] /\
               center_line_pts_ c1
               = center_line_pts_ c
                 ++ [central_point ele_lane lane_dir lane_id k p] /\
               lanes_frame lane c c1).
    { eexists _, _. split; [reflexivity |].
      split.
      { cbn [AppendKDTreeSample set_center_line_pts memory].
        do 3 apply write_lane_lookup. exact Hln. }
      repeat (split; [reflexivity |]).
      repeat split.
      - cbn. by rewrite !length_alter.
      - intros q Hq. cbn. by rewrite !list_lookup_alter_ne. }
    destruct Hstep as (c1 & ln1 & -> & Hln1 & Hid1 & Hl1 & Hc1 & Hr1 & Hp1
                       & Hf1).
    destruct (IH c1 (k + 1)%Z ln1 Hln1)
      as (c' & k' & ln' & Hfold & Hln' & Hid' & Hl' & Hc' & Hr' & Hp' & Hf').
    exists c', k', ln'. split; [exact Hfold |]. split; [exact Hln' |].
    split; [congruence |].
    rewrite !imap_shift.
    split; [by rewrite Hl', Hl1, <- app_assoc |].
    split; [by rewrite Hc', Hc1, <- app_assoc |].
    split; [by rewrite Hr', Hr1, <- app_assoc |].
    split; [by rewrite Hp', Hp1, <- app_assoc |].
    destruct Hf1 as (Hd1 & Hs1 & Hm1 & Hn1 & Ho1).
    destruct Hf' as (Hd' & Hs' & Hm' & Hn' & Ho').
    repeat split; try congruence.
    intros q Hq. rewrite Ho', Ho1; done.
Qed.

(** [LaneSampling] on a lane whose curves are empty. *)
Lemma LaneSampling_fresh ele_lane lane refe_line c ln idx2 :
  mem_lanes (memory c) !! lane = Some ln ->
  core.left_boundary ln = [] ->
  core.central_curve ln = [] ->
  core.right_boundary ln = [] ->
  Split (core.lane_id ln) "_" !! 2%nat = Some idx2 ->
  exists c' ln' lane_dir,
    LaneSampling ele_lane lane refe_line c = Returns c' /\
    (lane_dir = 1 \/ lane_dir = -1)%Z /\
    mem_lanes (memory c') !! lane = Some ln' /\
    core.lane_id ln' = core.lane_id ln /\
    sampled_from ele_lane lane_dir refe_line ln' /\
    center_line_pts_ c' = center_line_pts_ c ++ core.central_curve ln' /\
    lanes_frame lane c c'.
Proof.
  intros Hln Hl Hc Hr Hsplit.
  unfold LaneSampling. rewrite (read_lane_Some _ _ _ Hln). outcome_steps.
  unfold at_. rewrite Hsplit. outcome_steps.
  set (lane_dir := if String.ltb "0" idx2 then 1%Z else (-1)%Z).
  destruct (LaneSampling_fold ele_lane lane (core.lane_id ln) lane_dir
              refe_line c 0%Z ln Hln)
    as (c' & k' & ln' & Hfold & Hln' & Hid' & Hl' & Hc' & Hr' & Hp' & Hf').
  rewrite Hfold. exists c', ln', lane_dir.
  split; [reflexivity |].
  split; [unfold lane_dir; destruct (String.ltb "0" idx2); auto |].
  split; [exact Hln' |]. split; [exact Hid' |].
  rewrite Hl in Hl'. rewrite Hc in Hc'. rewrite Hr in Hr'.
  cbn [app] in Hl', Hc', Hr'.
  split; [| split; [by rewrite Hp', Hc' | exact Hf']].
  unfold sampled_from. rewrite Hid'. by rewrite Hl', Hc', Hr'.
Qed.

End LaneFacts.

Section LanesLoopFacts.

Context `{External}.

Lemma lanes_loop_step add ele_lane rest section section_id refe c rl d idx2 :
  data_ c = Some d ->
  mem_lanes (memory c) !! refe = Some rl ->
  Split (section_id +:+ "_" +:+ to_string_Z (element.lane_id ele_lane)) "_"
    !! 2%nat = Some idx2 ->
  exists c1 ln lane_dir,
    lanes_loop add (ele_lane :: rest) section section_id refe c
    = lanes_loop add rest section section_id refe c1 /\
    (lane_dir = 1 \/ lane_dir = -1)%Z /\
    mem_lanes (memory c1) !! List.length (mem_lanes (memory c)) = Some ln /\
    sampled_from ele_lane lane_dir (core.left_boundary rl) ln /\
    center_line_pts_ c1 = center_line_pts_ c ++ core.central_curve ln /\
    mem_lanes (memory c1) !! refe
    = Some (lane_set_left (core.right_boundary ln) rl) /\
    is_Some (data_ c1) /\
    status_ c1 = status_ c /\
    List.length (mem_lanes (memory c1))
    = S (List.length (mem_lanes (memory c))) /\
    forall q : nat,
      (q < List.length (mem_lanes (memory c)))%nat -> q ≠ refe ->
      mem_lanes (memory c1) !! q = mem_lanes (memory c) !! q.
Proof.
  intros Hd Hrl Hsplit.
  pose proof (lookup_lt_Some _ _ _ Hrl) as Hrefe.
  set (n0 := List.length (mem_lanes (memory c))) in *.
  set (lid := section_id +:+ "_" +:+ to_string_Z (element.lane_id ele_lane)) in *.
  cbn [lanes_loop alloc_lane]. fold n0. fold lid.
  set (c3 := write_lane n0 (lane_set_ids lid section_id) _).
  assert (Hl3 : mem_lanes (memory c3) !! n0
                = Some (lane_set_ids lid section_id core.new_Lane)).
  { subst c3. cbn. rewrite list_lookup_alter_eq.
    rewrite lookup_app_r by (subst n0; lia).
    subst n0. by rewrite Nat.sub_diag. }
  assert (Hr3 : mem_lanes (memory c3) !! refe = Some rl).
  { subst c3. cbn. rewrite list_lookup_alter_ne by lia.
    by rewrite lookup_app_l. }
  rewrite (read_lane_Some _ _ _ Hr3). outcome_steps.
  destruct (LaneSampling_fresh ele_lane n0 (core.left_boundary rl) c3 _ idx2
              Hl3 eq_refl eq_refl eq_refl Hsplit)
    as (c4 & ln4 & lane_dir & Hrun & Hdir & Hl4 & Hid4 & Hsamp & Hpts & Hfr).
  destruct Hfr as (Hd4 & Hs4 & Hm4 & Hn4 & Ho4).
  rewrite Hrun. outcome_steps.
  rewrite (read_lane_Some _ _ _ Hl4). outcome_steps.
  unfold on_data at 1. rewrite Hd4. subst c3. cbn [data_ write_lane write_section set_memory].
  rewrite Hd. outcome_steps.
  eexists _, ln4, lane_dir. split; [reflexivity |].
  split; [exact Hdir |].
  cbn [memory write_lane set_memory set_data mem_lanes update_lane center_line_pts_ data_ status_].
  split. { rewrite list_lookup_alter_ne by lia. exact Hl4. }
  split; [exact Hsamp |].
  split; [exact Hpts |].
  split. { rewrite list_lookup_alter_eq. rewrite Ho4 by lia. cbn in Hr3. cbn. rewrite Hr3. reflexivity. }
  split; [eauto |].
  split; [exact Hs4 |].
  split. { rewrite length_alter, Hn4. cbn. rewrite length_alter, length_app. cbn. lia. }
  intros q Hq Hne. rewrite list_lookup_alter_ne by done.
  rewrite Ho4 by lia. cbn. rewrite list_lookup_alter_ne by lia.
  by rewrite lookup_app_l.
Qed.

Lemma lanes_loop_spec add section section_id refe :
  forall (ele_lanes : list element.Lane) (c : Convertor) (rl : core.Lane)
         (d : core.Data),
    data_ c = Some d ->
    mem_lanes (memory c) !! refe = Some rl ->
    Forall (fun e =>
              is_Some (Split (section_id +:+ "_"
                              +:+ to_string_Z (element.lane_id e)) "_"
                       !! 2%nat)) ele_lanes ->
    exists c' lns rl',
      lanes_loop add ele_lanes section section_id refe c = Returns c' /\
      List.length lns = List.length ele_lanes /\
      (forall i ln,
         lns !! i = Some ln ->
         mem_lanes (memory c') !! (List.length (mem_lanes (memory c)) + i)%nat
         = Some ln) /\
      stitched (core.left_boundary rl) ele_lanes lns /\
      center_line_pts_ c'
      = center_line_pts_ c ++ concat (map core.central_curve lns) /\
      mem_lanes (memory c') !! refe = Some rl' /\
      core.left_boundary rl'
      = default (core.left_boundary rl) (core.right_boundary <$> last lns) /\
      core.central_curve rl' = core.central_curve rl /\
      core.right_boundary rl' = core.right_boundary rl /\
      is_Some (data_ c') /\
      status_ c' = status_ c /\
      List.length (mem_lanes (memory c'))
      = (List.length (mem_lanes (memory c)) + List.length ele_lanes)%nat /\
      forall q : nat,
        (q < List.length (mem_lanes (memory c)))%nat -> q ≠ refe ->
        mem_lanes (memory c') !! q = mem_lanes (memory c) !! q.
Proof.
  induction ele_lanes as [| ele_lane rest IH]; intros c rl d Hd Hrl Hsplit.
  - exists c, [], rl. cbn. rewrite app_nil_r, Nat.add_0_r.
    split; [done |]. split; [done |]. split; [by intros i ln Hi |].
    repeat (split; [by eauto |]). done.
  - apply Forall_cons in Hsplit as [[idx2 Hidx2] Hsplit].
    destruct (lanes_loop_step add ele_lane rest section section_id refe c rl
                d idx2 Hd Hrl Hidx2)
      as (c1 & ln & lane_dir & Hrun & Hdir & Hln & Hsamp & Hpts & Hrefe
          & [d1 Hd1] & Hst1 & Hlen1 & Hold1).
    destruct (IH c1 _ d1 Hd1 Hrefe Hsplit)
      as (c' & lns & rl' & Hloop & Hlen & Hat & Hstitch & Hpts' & Hrefe'
          & Hleft' & Hcen' & Hright' & Hd' & Hst' & Hlen' & Hold').
    exists c', (ln :: lns), rl'.
    split; [by rewrite Hrun |].
    split; [cbn; by rewrite Hlen |].
    split.
    { intros [| i] ln' Hi; cbn in Hi.
      - injection Hi as <-. rewrite Nat.add_0_r.
        pose proof (lookup_lt_Some _ _ _ Hrl).
        rewrite Hold' by lia. exact Hln.
      - rewrite <- (Hat i ln' Hi). f_equal. lia. }
    split.
    { cbn [stitched]. split; [by exists lane_dir |]. exact Hstitch. }
    split.
    { rewrite Hpts', Hpts. cbn [map concat]. by rewrite <- app_assoc. }
    split; [exact Hrefe' |].
    split.
    { rewrite Hleft'. cbn [core.left_boundary lane_set_left].
      rewrite last_cons. by destruct (last lns). }
    split; [exact Hcen' |]. split; [exact Hright' |].
    split; [exact Hd' |].
    split; [congruence |].
    split; [cbn [List.length]; lia |].
    intros q Hq Hne. rewrite Hold' by lia. by apply Hold1.
Qed.

Lemma map_imap_pointwise {A B C : Type} (g : B -> C) (h : A -> C) :
  forall (l : list A) (F : nat -> A -> B),
    (forall i p, g (F i p) = h p) -> map g (imap F l) = map h l.
Proof.
  induction l as [| p l IH]; intros F HF; [reflexivity |].
  rewrite imap_cons. cbn [map]. rewrite HF. f_equal.
  apply IH. intros i q. apply HF.
Qed.

Lemma place_set_id s p : place (core.set_id s p) = place p.
Proof. reflexivity. Qed.

(** The left boundary of a sampled lane is its reference curve, point by
    point, up to the ids. *)
Lemma sampled_from_left ele_lane lane_dir refe_line ln :
  sampled_from ele_lane lane_dir refe_line ln ->
  map place (core.left_boundary ln) = map place refe_line.
Proof.
  intros (Hl & _ & _). rewrite Hl.
  apply map_imap_pointwise. intros i p. apply place_set_id.
Qed.

Lemma sampled_from_positions ele_lane lane_dir refe_line ln :
  (forall p w,
     core.start_position (GetOffsetPoint p w) = core.start_position p) ->
  sampled_from ele_lane lane_dir refe_line ln ->
  map core.start_position (core.left_boundary ln)
  = map core.start_position refe_line /\
  map core.start_position (core.central_curve ln)
  = map core.start_position refe_line /\
  map core.start_position (core.right_boundary ln)
  = map core.start_position refe_line.
Proof.
  intros Hoff (Hl & Hc & Hr). rewrite Hl, Hc, Hr.
  repeat split; apply map_imap_pointwise; intros i p; cbn; try apply Hoff.
  reflexivity.
Qed.

Lemma stitched_adjacent :
  forall (ele_lanes : list element.Lane) (lns : list core.Lane)
         (refe_line : core.Line) (i : nat) (inner outer : core.Lane),
    stitched refe_line ele_lanes lns ->
    lns !! i = Some inner -> lns !! S i = Some outer ->
    map place (core.left_boundary outer)
    = map place (core.right_boundary inner).
Proof.
  induction ele_lanes as [| e es IH]; intros [| ln lns] refe_line i inner
    outer Hst Hin Hout; try done.
  destruct Hst as [_ Hst].
  destruct i as [| i]; cbn in Hin, Hout.
  - injection Hin as <-.
    destruct es as [| e' es'], lns as [| ln' lns']; try done.
    cbn in Hout. injection Hout as <-.
    destruct Hst as [(lane_dir & _ & Hs) _].
    by eapply sampled_from_left.
  - by eapply IH.
Qed.

Lemma stitched_positions :
  (forall p w,
     core.start_position (GetOffsetPoint p w) = core.start_position p) ->
  forall (ele_lanes : list element.Lane) (lns : list core.Lane)
         (refe_line : core.Line),
    stitched refe_line ele_lanes lns ->
    Forall (fun ln =>
              map core.start_position (core.left_boundary ln)
              = map core.start_position refe_line /\
              map core.start_position (core.central_curve ln)
              = map core.start_position refe_line /\
              map core.start_position (core.right_boundary ln)
              = map core.start_position refe_line) lns.
Proof.
  intros Hoff.
  induction ele_lanes as [| e es IH]; intros [| ln lns] refe_line Hst;
    try done.
  destruct Hst as [(lane_dir & _ & Hs) Hst].
  destruct (sampled_from_positions e lane_dir refe_line ln Hoff Hs)
    as (Hl & Hc & Hr).
  constructor; [done |].
  eapply Forall_impl; [apply (IH lns _ Hst) |].
  cbn. intros ln' (Hl' & Hc' & Hr'). by rewrite Hl', Hc', Hr', Hr.
Qed.

Lemma point_ids_distinct ele_lane lane_dir lane_id i p :
  NoDup [core.id (left_point lane_id i p);
         core.id (central_point ele_lane lane_dir lane_id i p);
         core.id (right_point ele_lane lane_dir lane_id i p)].
Proof.
  cbn. repeat constructor; rewrite ?elem_of_cons, ?elem_of_nil;
    intros Hin; decompose [or] Hin; try done;
    match goal with
    | Heq : _ +:+ _ = _ +:+ _ |- _ =>
      apply (inj (String.app _)) in Heq; discriminate Heq
    end.
Qed.
End LanesLoopFacts.

(** C6.  The loop over the lanes of one side returns when the repository is
    there and the id of every lane splits into at least three parts.  Every
    lane it creates then holds, for each point of its reference curve and in
    the order of that curve, exactly three points with pairwise distinct
    ids: the reference point itself (left boundary), the reference point
    moved by half the signed width (central curve) and by the signed width
    (right boundary); the central points are appended, lane after lane, to
    the flat collection [center_line_pts_]; the reference curve of the first
    lane is the one [refe_line] designates and that of every further lane
    is the right boundary of the lane before it, so the left boundary of a
    lane coincides, in coordinates, heading and arc-length, with the right
    boundary of its inner neighbour.  When [GetOffsetPoint] keeps the
    arc-length of a point, all three curves of every lane carry the
    arc-length positions of the reference curve. *)
Theorem lanes_loop_stitched `{External}
    (add : nat -> core.Section -> core.Section)
    (ele_lanes : list element.Lane) (section : nat) (section_id : string)
    (refe : nat) (c : Convertor) (rl : core.Lane) (d : core.Data) :
  data_ c = Some d ->
  mem_lanes (memory c) !! refe = Some rl ->
  Forall (fun e =>
            is_Some (Split (section_id +:+ "_"
                            +:+ to_string_Z (element.lane_id e)) "_"
                     !! 2%nat)) ele_lanes ->
  (forall p w,
     core.start_position (GetOffsetPoint p w) = core.start_position p) ->
  exists c' lns,
    lanes_loop add ele_lanes section section_id refe c = Returns c' /\
    List.length lns = List.length ele_lanes /\
    (forall i ln,
       lns !! i = Some ln ->
       mem_lanes (memory c') !! (List.length (mem_lanes (memory c)) + i)%nat
       = Some ln) /\
    stitched (core.left_boundary rl) ele_lanes lns /\
    center_line_pts_ c'
    = center_line_pts_ c ++ concat (map core.central_curve lns) /\
    Forall (fun ln =>
              map core.start_position (core.left_boundary ln)
              = map core.start_position (core.left_boundary rl) /\
              map core.start_position (core.central_curve ln)
              = map core.start_position (core.left_boundary rl) /\
              map core.start_position (core.right_boundary ln)
              = map core.start_position (core.left_boundary rl)) lns /\
    (forall i inner outer,
       lns !! i = Some inner -> lns !! S i = Some outer ->
       map place (core.left_boundary outer)
       = map place (core.right_boundary inner)) /\
    (forall ele_lane lane_dir lane_id i p,
       NoDup [core.id (left_point lane_id i p);
              core.id (central_point ele_lane lane_dir lane_id i p);
              core.id (right_point ele_lane lane_dir lane_id i p)]).
Proof.
  intros Hd Hrl Hsplit Hoff.
  destruct (lanes_loop_spec add section section_id refe ele_lanes c rl d Hd
              Hrl Hsplit)
    as (c' & lns & rl' & Hloop & Hlen & Hat & Hstitch & Hpts & _).
  exists c', lns.
  split; [exact Hloop |]. split; [exact Hlen |]. split; [exact Hat |].
  split; [exact Hstitch |]. split; [exact Hpts |].
  split; [by eapply stitched_positions |].
  split; [intros i inner outer; by eapply stitched_adjacent |].
  intros ele_lane lane_dir lane_id i p. apply point_ids_distinct.
Qed.

Lemma lanes_loop_stitched_witness :
  exists c' lns,
    @lanes_loop Fixtures.straight section_add_left Fixtures.two_left_lanes
      0%nat "0_0" 0%nat Fixtures.with_center_lane
    = Returns c' /\
    List.length lns = 2%nat /\
    center_line_pts_ c' = concat (map core.central_curve lns).
Proof.
  destruct (@lanes_loop_stitched Fixtures.straight section_add_left
              Fixtures.two_left_lanes 0%nat "0_0" 0%nat
              Fixtures.with_center_lane
              (core.mkLane "0_0_0" "0_0"
                 [core.mkPoint 0 0 0 0 "0_0_0_0";
                  core.mkPoint (1 # 10) 0 0 (1 # 10) "0_0_0_1"]
                 [core.mkPoint 0 0 0 0 "0_0_0_0";
                  core.mkPoint (1 # 10) 0 0 (1 # 10) "0_0_0_1"]
                 [core.mkPoint 0 0 0 0 "0_0_0_0";
                  core.mkPoint (1 # 10) 0 0 (1 # 10) "0_0_0_1"] [])
              Fixtures.empty_data)
    as (c' & lns & Hrun & Hlen & _ & _ & Hpts & _).
  - reflexivity.
  - reflexivity.
  - repeat constructor; eexists; vm_compute; reflexivity.
  - intros p w. reflexivity.
  - exists c', lns. split; [exact Hrun |]. split; [exact Hlen |]. exact Hpts.
Defined.

(** * The pipeline after an error *)

(** Once the status is not OK, the body of the loop of [ConvertRoad] still
    stores a road, whose attributes were not set, under the empty id. *)
Lemma ConvertRoad_body_after_error `{External} (ele_road : element.Road)
    (c : Convertor) (d : core.Data) :
  Continue c = false ->
  data_ c = Some d ->
  (0 <= element.id ele_road)%Z ->
  ConvertRoad_body ele_road c
  = Returns (set_data (Some (put_road "" core.new_Road d)) c).
Proof.
  intros Hc Hd Hid. unfold ConvertRoad_body.
  destruct (Z.ltb_spec (element.id ele_road) 0); [lia |].
  unfold ConvertRoadAttr, ConvertSection. rewrite Hc. cbn [negb].
  outcome_steps. unfold on_data. rewrite Hd. reflexivity.
Qed.

(** C3 (the code at two failing inputs).  First map: road 0 has a section
    without center lane, road 1 is well formed.  [Start] returns the error
    of section 0_0, and the repository holds road 0 and a road with empty
    id, both stored after the error was recorded.  Second map: the geometry
    lookup fails in the first section of road 0, whose second section has
    no center lane.  The status that [Start] returns carries the message of
    the second error, and the right lane of the first section and the second
    section were stored after the first error. *)
Theorem Start_after_first_error :
  (exists c' d',
     @Start Fixtures.bad_then_good Fixtures.default_param
       (Fixtures.fresh (1 # 10)) = Returns c' /\
     status_ c'
     = mkStatus CONVERTOR_CENTERLANE_ERROR "0_0 center lane size not equal 1."
     /\
     data_ c' = Some d' /\
     is_Some (core.roads d' !! "0") /\
     core.roads d' !! "" = Some core.new_Road /\
     core.roads d' !! "1" = None)
  /\
  (exists c' d',
     @Start Fixtures.no_geometry Fixtures.default_param
       (Fixtures.fresh (1 # 10)) = Returns c' /\
     fst (@GetGeometry Fixtures.no_geometry [Fixtures.line] 0
            (Fixtures.fresh (1 # 10))) = None /\
     status_ (snd (@GetGeometry Fixtures.no_geometry [Fixtures.line] 0
                     (Fixtures.fresh (1 # 10))))
     = mkStatus CONVERTOR_CENTERLANE_ERROR "get geometry index execption." /\
     status_ c'
     = mkStatus CONVERTOR_CENTERLANE_ERROR "0_1 center lane size not equal 1."
     /\
     data_ c' = Some d' /\
     is_Some (core.lanes d' !! "0_0_-1") /\
     is_Some (core.sections d' !! "0_1") /\
     is_Some (core.roads d' !! "0")).
Proof.
  split.
  - eexists _, _. split; [vm_compute; reflexivity |].
    split; [reflexivity |]. split; [reflexivity |].
    split; [eexists; vm_compute; reflexivity |].
    split; vm_compute; reflexivity.
  - eexists _, _. split; [vm_compute; reflexivity |].
    split; [reflexivity |]. split; [reflexivity |].
    split; [reflexivity |]. split; [reflexivity |].
    repeat split; eexists; vm_compute; reflexivity.
Qed.

(** * The curves of the center lane *)

(** C5 (the code at the failing input).  A section of length 0.1 with its
    center lane and one right lane of width 3, step 0.1.  [ConvertSection]
    returns with the status OK; the central curve and the right boundary of
    the center lane are the two sampled points, and its left boundary holds
    the points of the right boundary of the right lane, which the assignment
    to the reference [refe_line] copied there. *)
Theorem ConvertSection_center_left_boundary_overwritten :
  exists c' road' center right_lane,
    @ConvertSection Fixtures.straight Fixtures.one_right_lane_road
      core.new_Road (Fixtures.fresh (1 # 10))
    = Returns (c', road') /\
    status_ c' = mkStatus OK "ok" /\
    mem_lanes (memory c') !! 0%nat = Some center /\
    mem_lanes (memory c') !! 1%nat = Some right_lane /\
    core.lane_id center = "0_0_0" /\
    core.lane_id right_lane = "0_0_-1" /\
    map core.id (core.central_curve center) = ["0_0_0_0"; "0_0_0_1"] /\
    core.right_boundary center = core.central_curve center /\
    core.left_boundary center = core.right_boundary right_lane /\
    map core.id (core.left_boundary center) = ["0_0_-1_0_3"; "0_0_-1_1_3"] /\
    Forall2 Qeq (map core.y (core.left_boundary center)) [-3; -3] /\
    Forall2 Qeq (map core.y (core.central_curve center)) [0; 0] /\
    core.left_boundary center <> core.central_curve center.
Proof.
  eexists _, _, _, _.
  split; [vm_compute; reflexivity |].
  split; [reflexivity |]. split; [reflexivity |]. split; [reflexivity |].
  split; [reflexivity |]. split; [reflexivity |]. split; [reflexivity |].
  split; [reflexivity |]. split; [reflexivity |]. split; [reflexivity |].
  split; [repeat constructor; reflexivity |].
  split; [repeat constructor; reflexivity |].
  discriminate.
Qed.

(** * Elements of negative id *)

Lemma for_each_filter {A S : Type} (body : A -> S -> Outcome S)
    (P : A -> Prop) `{!forall a, Decision (P a)} :
  (forall a s, ~ P a -> body a s = Returns s) ->
  forall (l : list A) (s : S),
    for_each body (filter P l) s = for_each body l s.
Proof.
  intros Hskip. induction l as [| a l IH]; intros s; [reflexivity |].
  rewrite filter_cons. destruct (decide (P a)) as [Hp | Hn].
  - cbn [for_each]. destruct (body a s); [apply IH | reflexivity ..].
  - cbn [for_each]. rewrite (Hskip a s Hn). apply IH.
Qed.

Section PipelineFacts.

Context `{External}.
Variable default_param : kdtree.KDTreeParam.

(** C8.  The body of the loop of [ConvertRoad] and that of
    [ConvertJunction] return the convertor unchanged, status included,
    for an element of negative id; [ConvertRoad] and [ConvertJunction]
    return on a map what they return on the map without the elements of
    negative id. *)
Theorem negative_ids_skipped (ele_map : element.Map) (c : Convertor) :
  (forall ele_road,
     (element.id ele_road < 0)%Z -> ConvertRoad_body ele_road c = Returns c)
  /\
  (forall ele_junction,
     (element.junction_attr_id ele_junction < 0)%Z ->
     ConvertJunction_body ele_junction c = Returns c) /\
  ConvertRoad ele_map c = ConvertRoad (without_negative_ids ele_map) c /\
  ConvertJunction ele_map c = ConvertJunction (without_negative_ids ele_map) c.
Proof.
  split; [| split; [| split]].
  - intros ele_road Hneg. unfold ConvertRoad_body.
    by destruct (Z.ltb_spec (element.id ele_road) 0); [| lia].
  - intros ele_junction Hneg. unfold ConvertJunction_body.
    by destruct (Z.ltb_spec (element.junction_attr_id ele_junction) 0);
      [| lia].
  - unfold ConvertRoad. destruct (negb (Continue c)); [reflexivity |].
    cbn [without_negative_ids element.roads]. symmetry.
    apply for_each_filter. intros a s Hn. unfold ConvertRoad_body.
    by destruct (Z.ltb_spec (element.id a) 0); [| lia].
  - unfold ConvertJunction. destruct (negb (Continue c)); [reflexivity |].
    cbn [without_negative_ids element.junctions]. symmetry.
    apply for_each_filter. intros a s Hn. unfold ConvertJunction_body.
    by destruct (Z.ltb_spec (element.junction_attr_id a) 0); [| lia].
Qed.

Lemma on_data_keeps f c c' :
  on_data f c = Returns c' ->
  center_line_pts_ c' = center_line_pts_ c /\ kdtree_ c' = kdtree_ c /\
  status_ c' = status_ c.
Proof.
  unfold on_data. destruct (data_ c); [| discriminate].
  intros [= <-]. done.
Qed.

Lemma ConvertJunction_keeps ele_map c c' :
  ConvertJunction ele_map c = Returns c' ->
  center_line_pts_ c' = center_line_pts_ c /\ kdtree_ c' = kdtree_ c /\
  status_ c' = status_ c.
Proof.
  unfold ConvertJunction. destruct (negb (Continue c)).
  { intros [= <-]. done. }
  generalize (element.junctions ele_map). intros l. revert c.
  induction l as [| j l IH]; intros c Hrun; cbn in Hrun.
  { injection Hrun as <-. done. }
  destruct (ConvertJunction_body j c) as [c1 | |] eqn:Hbody; try done.
  apply IH in Hrun as (-> & -> & ->).
  unfold ConvertJunction_body in Hbody.
  destruct (element.junction_attr_id j <? 0)%Z.
  - injection Hbody as <-. done.
  - by apply on_data_keeps in Hbody.
Qed.

Lemma ConvertHeader_keeps ele_map c c' :
  ConvertHeader ele_map c = Returns c' ->
  center_line_pts_ c' = center_line_pts_ c /\ kdtree_ c' = kdtree_ c /\
  status_ c' = status_ c.
Proof.
  unfold ConvertHeader. destruct (negb (Continue c)).
  { intros [= <-]. done. }
  apply on_data_keeps.
Qed.

(** C10.  [Start] with points already in [center_line_pts_] is [Start]
    with none.  When it returns with the status OK, the tree object was
    initialised with the points that [ConvertRoad] left in the collection,
    having started from the empty one, and the collection is empty
    again. *)
Theorem Start_forgets_earlier_points (c : Convertor) (pts : list core.Point) :
  Start default_param (set_center_line_pts pts c)
  = Start default_param (set_center_line_pts [] c) /\
  forall c',
    Start default_param (set_center_line_pts pts c) = Returns c' ->
    error_code (status_ c') = OK ->
    exists param ele_map c1 c2 t,
      param_ c = Some param /\
      ParseMap (map_file param) = (true, ele_map) /\
      ConvertHeader ele_map
        (set_status (mkStatus OK "ok")
           (set_step (Qmax (1 # 10) (step param))
              (set_center_line_pts [] c))) = Returns c1 /\
      center_line_pts_ c1 = [] /\
      ConvertRoad ele_map c1 = Returns c2 /\
      kdtree_ c2 = Some t /\
      kdtree_ c'
      = Some (kdtree.Init (center_line_pts_ c2) default_param t) /\
      center_line_pts_ c' = [].
Proof.
  split; [reflexivity |].
  intros c' Hrun Hok. unfold Start in Hrun.
  cbn [param_ data_ set_center_line_pts] in Hrun.
  destruct (param_ c) as [param |] eqn:Hparam;
    [| injection Hrun as <-; discriminate Hok].
  destruct (data_ c) as [d |] eqn:Hdata;
    [| injection Hrun as <-; discriminate Hok].
  destruct (bool_decide (map_file param = "")
            || negb (FileExists (map_file param)));
    [injection Hrun as <-; discriminate Hok |].
  destruct (ParseMap (map_file param)) as [parse_ok ele_map] eqn:Hparse.
  destruct parse_ok; cbn [negb] in Hrun;
    [| injection Hrun as <-; discriminate Hok].
  match type of Hrun with
  | (ConvertHeader ele_map ?c0 ≫= _) = _ => set (cstart := c0) in *
  end.
  destruct (ConvertHeader ele_map cstart) as [c1 | |] eqn:Hheader;
    try discriminate Hrun.
  cbn [mbind Outcome_bind] in Hrun.
  destruct (ConvertRoad ele_map c1) as [c2 | |] eqn:Hroad;
    try discriminate Hrun.
  cbn [mbind Outcome_bind] in Hrun.
  destruct (ConvertJunction ele_map c2) as [c3 | |] eqn:Hjunction;
    try discriminate Hrun.
  cbn [mbind Outcome_bind] in Hrun.
  destruct (BuildKDTree default_param c3) as [c4 | |] eqn:Hbuild;
    try discriminate Hrun.
  cbn [mbind Outcome_bind mret Outcome_ret] in Hrun.
  injection Hrun as <-.
  apply ConvertHeader_keeps in Hheader as Hkeep1.
  destruct Hkeep1 as (Hp1 & Hk1 & Hs1).
  apply ConvertJunction_keeps in Hjunction as (Hp3 & Hk3 & Hs3).
  unfold BuildKDTree in Hbuild. unfold End in Hok |- *.
  unfold Continue in *.
  destruct (decide (OK = error_code (status_ c3))) as [Hok3 | Hbad3].
  - rewrite (bool_decide_eq_true_2 _ Hok3) in Hbuild. cbn [negb] in Hbuild.
    destruct (kdtree_ c3) as [t |] eqn:Hk; [| discriminate Hbuild].
    injection Hbuild as <-.
    cbn [status_ set_kdtree] in Hok |- *.
    rewrite (bool_decide_eq_true_2 _ Hok3). cbn [negb].
    exists param, ele_map, c1, c2, t.
    split; [reflexivity |]. split; [exact Hparse |].
    split; [exact Hheader |].
    split; [by rewrite Hp1 |].
    split; [exact Hroad |]. split; [congruence |].
    split; [| reflexivity].
    cbn. by rewrite Hp3.
  - rewrite (bool_decide_eq_false_2 _ Hbad3) in Hbuild. cbn [negb] in Hbuild.
    injection Hbuild as <-.
    rewrite (bool_decide_eq_false_2 _ Hbad3) in Hok. cbn [negb] in Hok.
    congruence.
Qed.
End PipelineFacts.

Lemma negative_ids_skipped_witness :
  @ConvertRoad_body Fixtures.straight
    (Fixtures.road (-1) (1 # 10) [Fixtures.lane_section (1 # 10) [] []])
    (Fixtures.fresh (1 # 10))
  = Returns (Fixtures.fresh (1 # 10)).
Proof.
  apply (proj1 (@negative_ids_skipped Fixtures.straight Fixtures.empty_map
                  (Fixtures.fresh (1 # 10)))).
  reflexivity.
Defined.

Lemma Start_forgets_earlier_points_witness :
  exists c' pts t,
    @Start Fixtures.one_right_lane Fixtures.default_param
      (set_center_line_pts [Fixtures.stale_point] (Fixtures.fresh (1 # 10)))
    = Returns c' /\
    kdtree_ c' = Some (kdtree.Init pts Fixtures.default_param t) /\
    ~ In Fixtures.stale_point pts.
Proof.
  assert (Hrun : exists c',
             @Start Fixtures.one_right_lane Fixtures.default_param
               (set_center_line_pts [Fixtures.stale_point]
                  (Fixtures.fresh (1 # 10)))
             = Returns c' /\ error_code (status_ c') = OK).
  { eexists. split; vm_compute; reflexivity. }
  destruct Hrun as (c' & Hrun & Hok).
  destruct (proj2 (@Start_forgets_earlier_points Fixtures.one_right_lane
                     Fixtures.default_param (Fixtures.fresh (1 # 10))
                     [Fixtures.stale_point]) c' Hrun Hok)
    as (param & ele_map & c1 & c2 & t & Hparam & Hparse & Hheader & Hempty
        & Hroad & Hk2 & Hk & Hpts).
  exists c', (center_line_pts_ c2), t.
  split; [exact Hrun |]. split; [exact Hk |].
  injection Hparam as <-. injection Hparse as <-.
  vm_compute in Hheader. injection Hheader as <-.
  vm_compute in Hroad. injection Hroad as <-.
  cbn. intros [Heq | [Heq | []]]; discriminate Heq.
Defined.

(** * The k-d tree *)

Lemma Adaptor_Init_fold samples :
  forall a,
    fold_left
      (fun a point =>
         kdtree.mkKDTreeAdaptor
           (kdtree.matrix_ a ++ [[core.x point; core.y point]])
           (kdtree.ids_ a ++ [core.id point])) samples a
    = kdtree.mkKDTreeAdaptor
        (kdtree.matrix_ a ++ map (fun p => [core.x p; core.y p]) samples)
        (kdtree.ids_ a ++ map core.id samples).
Proof.
  induction samples as [| p samples IH]; intros a.
  - cbn. rewrite !app_nil_r. by destruct a.
  - cbn [fold_left]. rewrite IH. cbn. by rewrite <- !app_assoc.
Qed.

Lemma Adaptor_Init_spec samples a :
  kdtree.Adaptor_Init samples a
  = kdtree.mkKDTreeAdaptor (map (fun p => [core.x p; core.y p]) samples)
      (map core.id samples).
Proof. unfold kdtree.Adaptor_Init. by rewrite Adaptor_Init_fold. Qed.

Lemma overwritten_full {A : Type} (n : nat) (zero : A) (vals : list A) :
  List.length vals = n -> kdtree.overwritten n zero vals = vals.
Proof.
  intros Hn. unfold kdtree.overwritten.
  rewrite drop_ge by (rewrite length_replicate; lia). apply app_nil_r.
Qed.

Lemma overwritten_length {A : Type} (n : nat) (zero : A) (vals : list A) :
  (List.length vals <= n)%nat ->
  List.length (kdtree.overwritten n zero vals) = n.
Proof.
  intros Hn. unfold kdtree.overwritten.
  rewrite length_app, length_drop, length_replicate. lia.
Qed.

Section SearchFacts.

Variable knnSearch : kdtree.KDTreeAdaptor -> Q * Q -> nat -> list (nat * Q).

Lemma Search_loop samples qx qy (found : list (nat * Q)) :
  Forall (fun neighbour =>
            exists p, samples !! neighbour.1 = Some p /\
                      neighbour.2 == squared_distance p qx qy) found ->
  forall (n s : nat) (acc : list kdtree.KDTreeResult),
    (s + n = List.length found)%nat ->
    exists new,
      for_each
        (kdtree.Search_body
           (kdtree.mkKDTreeAdaptor
              (map (fun p => [core.x p; core.y p]) samples)
              (map core.id samples))
           (map fst found) (map snd found))
        (seq s n) acc
      = Returns (acc ++ new) /\
      Forall2 (result_of samples qx qy) (drop s found) new.
Proof.
  intros Hvalid. induction n as [| n IH]; intros s acc Hlen.
  - exists []. cbn. rewrite app_nil_r. split; [done |].
    rewrite drop_ge by lia. constructor.
  - cbn [seq for_each].
    destruct (lookup_lt_is_Some_2 found s) as [[i d] Hs]; [lia |].
    pose proof (proj1 (Forall_lookup _ _) Hvalid s _ Hs) as (p & Hp & Hd).
    cbn [fst snd] in Hp, Hd.
    unfold kdtree.Search_body at 1. unfold at_.
    cbn [kdtree.matrix_ kdtree.ids_].
    rewrite !list_lookup_fmap, Hs. cbn [fmap option_fmap option_map fst snd].
    outcome_steps.
    rewrite !list_lookup_fmap, Hp. cbn [fmap option_fmap option_map].
    outcome_steps.
    destruct (IH (S s) (acc ++ [kdtree.mkKDTreeResult (core.x p) (core.y p)
                                  (core.id p) (sqrt (Q2R d))]))
      as (new & Hrun & Hnew); [lia |].
    cbn [kdtree.node_get nth].
    rewrite Hrun. eexists (_ :: new). split.
    { by rewrite <- app_assoc. }
    rewrite (drop_S _ _ _ Hs). constructor; [| exact Hnew].
    exists p. cbn. repeat split; try done.
    f_equal. by apply Qeq_eqR.
Qed.

Lemma results_sorted samples qx qy :
  forall (found : list (nat * Q)) (results : list kdtree.KDTreeResult),
    Forall2 (result_of samples qx qy) found results ->
    Sorted Qle (map snd found) ->
    Sorted Rle (map kdtree.dist results).
Proof.
  induction 1 as [| n r found results Hr Hrest IH]; intros Hs.
  - constructor.
  - cbn [map] in Hs |- *. apply Sorted_inv in Hs as [Hs Hhd].
    constructor; [by apply IH |].
    destruct Hrest as [| n' r' found' results' Hr' _]; constructor.
    cbn [map] in Hhd. apply HdRel_inv in Hhd.
    destruct Hr as (_ & _ & _ & _ & _ & -> & _).
    destruct Hr' as (_ & _ & _ & _ & _ & -> & _).
    apply sqrt_le_1_alt. by apply Qle_Rle.
Qed.

(** C2.  The tree was built by [Init] over [samples], and the neighbours
    that [knnSearch] reports for this query are [min k N] many, each the
    index of a sample with its squared distance to the query, in
    non-decreasing order of that distance. *)
Theorem Search_results (samples : list core.Point)
    (param : kdtree.KDTreeParam) (t0 : kdtree.KDTree) (qx qy : Q)
    (num_closest : nat) (results0 : list kdtree.KDTreeResult) :
  let t := kdtree.Init samples param t0 in
  let found := knnSearch (kdtree.adaptor_ t) (qx, qy) num_closest in
  List.length found = Nat.min num_closest (List.length samples) ->
  Forall (fun neighbour =>
            exists p, samples !! neighbour.1 = Some p /\
                      neighbour.2 == squared_distance p qx qy) found ->
  Sorted Qle (map snd found) ->
  ((num_closest <= List.length samples)%nat ->
   exists results,
     kdtree.Search knnSearch qx qy num_closest results0 t
     = Returns (0%Z, results, t) /\
     List.length results = num_closest /\
     Sorted Rle (map kdtree.dist results) /\
     Forall2 (result_of samples qx qy) found results) /\
  ((List.length samples < num_closest)%nat ->
   kdtree.Search knnSearch qx qy num_closest results0 t
   = Returns ((-1)%Z, [], t)).
Proof.
  intros t found Hcount Hvalid Hsorted.
  assert (Hadaptor : kdtree.adaptor_ t
                     = kdtree.mkKDTreeAdaptor
                         (map (fun p => [core.x p; core.y p]) samples)
                         (map core.id samples)).
  { subst t. cbn. apply Adaptor_Init_spec. }
  split.
  - intros Hk. rewrite Nat.min_l in Hcount by exact Hk.
    unfold kdtree.Search. cbn [kdtree.index_ t kdtree.Init]. outcome_steps.
    fold t. fold found.
    rewrite !overwritten_full by (by rewrite length_map).
    rewrite Hadaptor. cbn [kdtree.matrix_].
    rewrite !length_map, Hcount.
    destruct (Nat.ltb_spec (List.length samples) num_closest); [lia |].
    destruct (Search_loop samples qx qy found Hvalid num_closest 0 [])
      as (results & Hrun & Hres); [lia |].
    rewrite Hrun. outcome_steps. cbn [app]. rewrite drop_0 in Hres.
    exists results. split; [reflexivity |].
    split; [by rewrite <- (Forall2_length _ _ _ Hres) |].
    split; [by eapply results_sorted | exact Hres].
  - intros Hk. rewrite Nat.min_r in Hcount by lia.
    unfold kdtree.Search. cbn [kdtree.index_ t kdtree.Init]. outcome_steps.
    fold t. fold found.
    rewrite (overwritten_length num_closest 0%nat)
      by (rewrite length_map; lia).
    rewrite Hadaptor. cbn [kdtree.matrix_]. rewrite length_map.
    destruct (Nat.ltb_spec (List.length samples) num_closest); [| lia].
    reflexivity.
Qed.
End SearchFacts.

Lemma Search_results_witness :
  let t := kdtree.Init Fixtures.three_samples Fixtures.default_param
             kdtree.new_KDTree in
  (exists results,
     kdtree.Search Fixtures.exhaustive_search 0 0 2 [] t
     = Returns (0%Z, results, t) /\
     map kdtree.id results = ["a"; "b"] /\
     Sorted Rle (map kdtree.dist results)) /\
  kdtree.Search Fixtures.exhaustive_search 0 0 4 [] t = Returns ((-1)%Z, [], t).
Proof.
  intros t. split.
  - destruct (@Search_results Fixtures.exhaustive_search Fixtures.three_samples
                Fixtures.default_param kdtree.new_KDTree 0 0 2 [])
      as [Hsome _].
    + reflexivity.
    + repeat constructor; eexists; (split; [reflexivity | vm_compute; reflexivity]).
    + repeat constructor; vm_compute; discriminate.
    + destruct Hsome as (results & Hrun & Hlen & Hsorted & Hres); [cbn; lia |].
      exists results. split; [exact Hrun |]. split; [| exact Hsorted].
      remember (Fixtures.exhaustive_search _ _ _) as found eqn:Hfound in Hres.
      vm_compute in Hfound. subst found.
      inversion Hres as [| n0 r0 f0 rs0 (p0 & Hp0 & _ & _ & Hid0 & _) Hres0];
        subst.
      inversion Hres0 as [| n1 r1 f1 rs1 (p1 & Hp1 & _ & _ & Hid1 & _) Hres1];
        subst.
      inversion Hres1; subst.
      cbn in Hp0, Hp1. injection Hp0 as <-. injection Hp1 as <-.
      cbn [map]. by rewrite Hid0, Hid1.
  - destruct (@Search_results Fixtures.exhaustive_search Fixtures.three_samples
                Fixtures.default_param kdtree.new_KDTree 0 0 4 [])
      as [_ Hnone].
    + reflexivity.
    + repeat constructor; eexists; (split; [reflexivity | vm_compute; reflexivity]).
    + repeat constructor; vm_compute; discriminate.
    + apply Hnone. cbn. lia.
Defined.

(** * The bound of the sampling loop *)

Section FuelFacts.
Context `{External}.
Variable default_param : kdtree.KDTreeParam.

Lemma keeps_step_bind {A B : Type} (getA : A -> Convertor)
    (getB : B -> Convertor) (q : Q) (m : Outcome A) (f : A -> Outcome B) :
  keeps_step getA q m ->
  (forall a, step_ (getA a) = q -> keeps_step getB q (f a)) ->
  keeps_step getB q (m ≫= f).
Proof.
  intros Hm Hf. destruct m as [a | |]; cbn in *; try done.
  exact (Hf a Hm).
Qed.

Lemma keeps_step_at {A B : Type} (getB : B -> Convertor) (q : Q)
    (v : list A) (i : nat) (f : A -> Outcome B) :
  (forall a, keeps_step getB q (f a)) -> keeps_step getB q (at_ v i ≫= f).
Proof.
  intros Hf. unfold at_. destruct (v !! i); cbn; [apply Hf | done].
Qed.

Lemma keeps_step_on_data f c :
  keeps_step (fun c' : Convertor => c') (step_ c) (on_data f c).
Proof. unfold on_data. by destruct (data_ c). Qed.

Lemma GetGeometry_step_ geometrys r c :
  step_ (GetGeometry geometrys r c).2 = step_ c.
Proof.
  unfold GetGeometry.
  destruct (_ <? 0)%Z; [reflexivity |]. by destruct (_ <? _)%Z.
Qed.

Lemma sampling_body_cases geometrys lane_offsets len lane lane_id s s' b :
  sampling_body geometrys lane_offsets len lane lane_id s = (s', b) ->
  step_ (conv s') = step_ (conv s) /\
  (b = true ->
   exists d1 r1,
     clamp len (step_ (conv s)) (section_ds s) (road_ds s) = Some (d1, r1) /\
     section_ds s' = d1 + step_ (conv s)).
Proof.
  unfold sampling_body.
  destruct (clamp len (step_ (conv s)) (section_ds s) (road_ds s))
    as [[d1 r1] |]; [| intros [= <- <-]; done].
  pose proof (GetGeometry_step_ geometrys r1 (conv s)) as Hg.
  destruct (GetGeometry geometrys r1 (conv s)) as [[g |] c1]; cbn in Hg.
  - destruct (negb (geometry_type s =? element.type g)%Z);
      intros [= <- <-]; cbn; (split; [exact Hg |]); intros _;
      exists d1, r1; by rewrite Hg.
  - intros [= <- <-]. cbn. done.
Qed.

Lemma sampling_loop_returns geometrys lane_offsets len lane lane_id (n : nat) :
  forall (fuel : nat) (s : Sampling),
    0 < step_ (conv s) ->
    (n + 2 <= fuel)%nat ->
    len - section_ds s < inject_Z (Z.of_nat n) * step_ (conv s) ->
    keeps_step conv (step_ (conv s))
      (sampling_loop fuel geometrys lane_offsets len lane lane_id s).
Proof.
  pose proof tolerance_pos as Ht.
  induction n as [| n IH]; intros fuel s Hstep Hfuel Hn.
  - assert (Hbehind : len < section_ds s).
    { change (inject_Z (Z.of_nat 0)) with 0 in Hn. lra. }
    destruct fuel as [| [| fuel]]; [lia | lia |].
    cbn [sampling_loop].
    destruct (sampling_body geometrys lane_offsets len lane lane_id s)
      as [s1 b1] eqn:Hb1.
    apply sampling_body_cases in Hb1 as [Hs1 Hc1].
    destruct b1; [| exact Hs1].
    destruct (Hc1 eq_refl) as (d1 & r1 & Hclamp & Hd1).
    pose proof (clamp_cases len (step_ (conv s)) (section_ds s) (road_ds s))
      as Hcl. rewrite Hclamp in Hcl.
    destruct Hcl as [(Hle & _) | (_ & _ & -> & _)]; [lra |].
    destruct (sampling_body geometrys lane_offsets len lane lane_id s1)
      as [s2 b2] eqn:Hb2.
    apply sampling_body_cases in Hb2 as [Hs2 Hc2].
    destruct b2; [| cbn; congruence].
    exfalso. destruct (Hc2 eq_refl) as (d2 & r2 & Hclamp2 & _).
    pose proof (clamp_cases len (step_ (conv s1)) (section_ds s1)
                  (road_ds s1)) as Hcl. rewrite Hclamp2 in Hcl.
    rewrite Hd1, Hs1 in Hcl.
    destruct Hcl as [(? & _) | (_ & ? & _)]; lra.
  - destruct fuel as [| fuel]; [lia |].
    cbn [sampling_loop].
    destruct (sampling_body geometrys lane_offsets len lane lane_id s)
      as [s1 b1] eqn:Hb1.
    apply sampling_body_cases in Hb1 as [Hs1 Hc1].
    destruct b1; [| exact Hs1].
    destruct (Hc1 eq_refl) as (d1 & r1 & Hclamp & Hd1).
    pose proof (clamp_cases len (step_ (conv s)) (section_ds s) (road_ds s))
      as Hcl. rewrite Hclamp in Hcl.
    assert (len - section_ds s1 < inject_Z (Z.of_nat n) * step_ (conv s1))
      as Hn1.
    { rewrite Hd1, Hs1.
      rewrite Nat2Z.inj_succ, <- Z.add_1_r, inject_Z_plus in Hn.
      set (a := inject_Z (Z.of_nat n)) in *.
      assert (Ha : (a + inject_Z 1) * step_ (conv s)
                   == a * step_ (conv s) + step_ (conv s)) by ring.
      rewrite Ha in Hn.
      assert (Hb0 : 0 <= a * step_ (conv s)).
      { apply Qmult_le_0_compat; [| lra].
        unfold a. rewrite <- (Zle_Qle 0). lia. }
      set (b := a * step_ (conv s)) in *.
      destruct Hcl as [(? & -> & _) | (? & ? & -> & _)]; lra. }
    specialize (IH fuel s1).
    rewrite Hs1 in IH. specialize (IH Hstep ltac:(lia)).
    rewrite <- Hs1 in IH at 1. specialize (IH Hn1).
    destruct (sampling_loop fuel geometrys lane_offsets len lane lane_id s1);
      cbn in *; congruence.
Qed.

Lemma CenterLaneSampling_keeps_step geometrys lane_offsets section r c :
  0 < step_ c ->
  keeps_step fst (step_ c)
    (CenterLaneSampling geometrys lane_offsets section r c).
Proof.
  intros Hstep. unfold CenterLaneSampling, read_section, read_lane.
  apply keeps_step_at. intros sec.
  destruct (core.center_lane sec) as [lane |]; [| done]. outcome_steps.
  apply keeps_step_at. intros ln.
  set (c0 := write_lane lane (lane_set_central []) c).
  pose proof (sampling_loop_returns geometrys lane_offsets (core.length sec)
                lane (core.lane_id ln)
                (S (Z.to_nat (Qfloor (core.length sec / step_ c0))))
                (sampling_fuel (core.length sec) (step_ c0))
                (mkSampling 0 r (-1) 0 c0) Hstep) as Hloop.
  cbn [conv section_ds] in Hloop.
  specialize (Hloop ltac:(unfold sampling_fuel; lia)
                    (sampling_fuel_enough _ _ Hstep)).
  destruct (sampling_loop _ _ _ _ _ _ _); [exact Hloop | done | done].
Qed.

Lemma LaneSampling_fold_step_ ele_lane lane lane_id lane_dir :
  forall refe_line c k,
    step_ (fold_left (LaneSampling_body ele_lane lane lane_id lane_dir)
             refe_line (c, k)).1 = step_ c.
Proof.
  induction refe_line as [| p refe_line IH]; intros c k; [reflexivity |].
  cbn [fold_left]. unfold LaneSampling_body at 2. by rewrite IH.
Qed.

Lemma LaneSampling_keeps_step ele_lane lane refe_line c :
  keeps_step (fun c' : Convertor => c') (step_ c)
    (LaneSampling ele_lane lane refe_line c).
Proof.
  unfold LaneSampling, read_lane.
  apply keeps_step_at. intros ln. apply keeps_step_at. intros idx2.
  cbn. apply LaneSampling_fold_step_.
Qed.

Lemma keeps_step_eq {A : Type} (get : A -> Convertor) (q q' : Q)
    (o : Outcome A) :
  q = q' -> keeps_step get q o -> keeps_step get q' o.
Proof. by intros ->. Qed.

Lemma lanes_loop_keeps_step add section section_id refe :
  forall ele_lanes c,
    keeps_step (fun c' : Convertor => c') (step_ c)
      (lanes_loop add ele_lanes section section_id refe c).
Proof.
  induction ele_lanes as [| ele_lane rest IH]; intros c; [reflexivity |].
  cbn [lanes_loop alloc_lane]. unfold read_lane.
  apply keeps_step_at. intros refe_lane.
  eapply (keeps_step_bind (fun c' : Convertor => c')).
  { eapply keeps_step_eq; [| apply LaneSampling_keeps_step]. reflexivity. }
  intros c1 Hc1. apply keeps_step_at. intros ln.
  eapply (keeps_step_bind (fun c' : Convertor => c')).
  { eapply keeps_step_eq; [| apply keeps_step_on_data]. exact Hc1. }
  intros c2 Hc2.
  eapply keeps_step_eq; [| apply IH]. exact Hc2.
Qed.

Lemma ConvertSection_loop_keeps_step ele_road road_id :
  forall ele_sections section_idx r road c,
    0 < step_ c ->
    keeps_step fst (step_ c)
      (ConvertSection_loop ele_road road_id ele_sections section_idx r road c).
Proof.
  induction ele_sections as [| ele_section rest IH];
    intros section_idx r road c Hstep; [reflexivity |].
  cbn [ConvertSection_loop alloc_section alloc_lane].
  eapply (keeps_step_bind (fun c' : Convertor => c')).
  { eapply keeps_step_eq; [| apply keeps_step_on_data]. reflexivity. }
  intros c1 Hc1.
  destruct (bool_decide _); [exact Hc1 |].
  eapply (keeps_step_bind fst).
  { eapply keeps_step_eq; [| apply CenterLaneSampling_keeps_step].
    - exact Hc1.
    - change (0 < step_ c1). by rewrite Hc1. }
  intros [c2 r2] Hc2. cbn [fst] in Hc2.
  unfold read_lane. apply keeps_step_at. intros ln.
  eapply (keeps_step_bind (fun c' : Convertor => c')).
  { eapply keeps_step_eq; [| apply keeps_step_on_data]. exact Hc2. }
  intros c3 Hc3.
  eapply (keeps_step_bind (fun c' : Convertor => c')).
  { eapply keeps_step_eq; [| apply lanes_loop_keeps_step]. exact Hc3. }
  intros c4 Hc4.
  eapply (keeps_step_bind (fun c' : Convertor => c')).
  { eapply keeps_step_eq; [| apply lanes_loop_keeps_step]. exact Hc4. }
  intros c5 Hc5.
  eapply keeps_step_eq; [| apply IH]; [exact Hc5 | by rewrite Hc5].
Qed.

Lemma for_each_keeps_step {A : Type} (body : A -> Convertor -> Outcome Convertor) :
  (forall a c,
     0 < step_ c -> keeps_step (fun c' : Convertor => c') (step_ c) (body a c)) ->
  forall l c,
    0 < step_ c ->
    keeps_step (fun c' : Convertor => c') (step_ c) (for_each body l c).
Proof.
  intros Hbody. induction l as [| a l IH]; intros c Hstep; [reflexivity |].
  cbn [for_each]. specialize (Hbody a c Hstep).
  destruct (body a c) as [c1 | |]; cbn in Hbody; try done.
  rewrite <- Hbody. apply IH. by rewrite Hbody.
Qed.

Lemma ConvertRoad_body_keeps_step ele_road c :
  0 < step_ c ->
  keeps_step (fun c' : Convertor => c') (step_ c) (ConvertRoad_body ele_road c).
Proof.
  intros Hstep. unfold ConvertRoad_body.
  destruct (element.id ele_road <? 0)%Z; [reflexivity |].
  eapply (keeps_step_bind fst).
  { unfold ConvertSection. destruct (negb (Continue c)); [reflexivity |].
    by apply ConvertSection_loop_keeps_step. }
  intros [c1 road] Hc1. cbn [fst] in Hc1.
  eapply keeps_step_eq; [| apply keeps_step_on_data]. exact Hc1.
Qed.

Lemma ConvertJunction_body_keeps_step ele_junction c :
  keeps_step (fun c' : Convertor => c') (step_ c)
    (ConvertJunction_body ele_junction c).
Proof.
  unfold ConvertJunction_body.
  destruct (element.junction_attr_id ele_junction <? 0)%Z; [reflexivity |].
  apply keeps_step_on_data.
Qed.

(** The bound that the model gives to the loop of [CenterLaneSampling] is
    never exhausted in a run of [Start], which makes the step at least
    0.1. *)
Lemma Start_fuel_enough (c : Convertor) : Start default_param c <> OutOfFuel.
Proof.
  unfold Start.
  destruct (param_ (set_center_line_pts [] c)) as [param |]; [| done].
  destruct (data_ (set_center_line_pts [] c)); [| done].
  destruct (_ || _); [done |].
  destruct (ParseMap (map_file param)) as [parse_ok ele_map].
  destruct (negb parse_ok); [done |].
  set (c0 := set_status _ _).
  assert (Hstep : 0 < step_ c0).
  { subst c0. cbn. eapply Qlt_le_trans; [| apply Q.le_max_l]. reflexivity. }
  assert (Hrun : keeps_step (fun c' : Convertor => c') (step_ c0)
                   (c1 ← ConvertHeader ele_map c0;
                    c2 ← ConvertRoad ele_map c1;
                    c3 ← ConvertJunction ele_map c2;
                    c4 ← BuildKDTree default_param c3;
                    mret (End c4))).
  { eapply (keeps_step_bind (fun c' : Convertor => c')).
    { unfold ConvertHeader. destruct (negb (Continue c0)); [reflexivity |].
      apply keeps_step_on_data. }
    intros c1 Hc1.
    eapply (keeps_step_bind (fun c' : Convertor => c')).
    { unfold ConvertRoad. destruct (negb (Continue c1)); [exact Hc1 |].
      eapply keeps_step_eq; [exact Hc1 |].
      apply for_each_keeps_step; [| by rewrite Hc1].
      intros a c' Hc'. by apply ConvertRoad_body_keeps_step. }
    intros c2 Hc2.
    eapply (keeps_step_bind (fun c' : Convertor => c')).
    { unfold ConvertJunction. destruct (negb (Continue c2)); [exact Hc2 |].
      eapply keeps_step_eq; [exact Hc2 |].
      apply for_each_keeps_step; [| by rewrite Hc2].
      intros a c' _. apply ConvertJunction_body_keeps_step. }
    intros c3 Hc3.
    eapply (keeps_step_bind (fun c' : Convertor => c')).
    { unfold BuildKDTree. destruct (negb (Continue c3)); [exact Hc3 |].
      destruct (kdtree_ c3); [exact Hc3 | done]. }
    intros c4 Hc4. unfold End. by destruct (negb (Continue c4)). }
  intros Hout. rewrite Hout in Hrun. exact Hrun.
Qed.
End FuelFacts.

(** * Further properties of the conversion *)

(** ** The side of a lane *)

(** The decimal form of a positive number starts with a digit from 1 to 9. *)
Lemma pretty_N_go_leading (x : N) :
  forall s : string,
    (0 < x)%N ->
    exists (d : N) (rest : string),
      (0 < d < 10)%N /\ pretty_N_go x s = String (pretty_N_char d) rest.
Proof.
  induction (N.lt_wf_0 x) as [x _ IH]. intros s Hx.
  rewrite pretty_N_go_step by exact Hx.
  destruct (decide (x `div` 10 = 0)%N) as [Hz | Hnz].
  - rewrite Hz, pretty_N_go_0.
    exists (x `mod` 10)%N, s. split; [| reflexivity].
    apply N.div_small_iff in Hz; [| discriminate].
    rewrite N.mod_small by exact Hz. by split.
  - apply IH; [apply N.div_lt; [exact Hx | reflexivity] |].
    by apply N.neq_0_lt_0.
Qed.

Lemma ltb_zero_digit (d : N) (rest : string) :
  (0 < d < 10)%N -> String.ltb "0" (String (pretty_N_char d) rest) = true.
Proof.
  intros [Hlo Hhi].
  destruct d as [| p]; [discriminate Hlo |].
  do 4 (destruct p as [p | p |]; try discriminate Hhi; try reflexivity).
Qed.

(** [std::to_string(k) > "0"], the comparison of [LaneSampling], holds
    exactly for the positive [k]. *)
Lemma to_string_Z_gt_zero (k : Z) :
  String.ltb "0" (to_string_Z k) = (0 <? k)%Z.
Proof.
  destruct k as [| p | p]; [reflexivity | | reflexivity].
  unfold to_string_Z, pretty, pretty_Z, pretty, pretty_positive, pretty,
    pretty_N.
  destruct (decide (N.pos p = 0)%N) as [Hz | _]; [discriminate Hz |].
  destruct (pretty_N_go_leading (N.pos p) "") as (d & rest & Hd & ->);
    [reflexivity |].
  by rewrite ltb_zero_digit.
Qed.

Section DirectionFacts.
Context `{External}.

(** X1.  [LaneSampling] on a lane whose curves are empty and whose id has the
    decimal form of [k] as its third part returns, and the lane is sampled
    from the reference curve towards the left (direction 1) exactly when [k]
    is positive, and towards the right (direction -1) otherwise, [k = 0]
    included. *)
Theorem LaneSampling_direction (ele_lane : element.Lane) (lane : nat)
    (refe_line : core.Line) (c : Convertor) (ln : core.Lane) (k : Z) :
  mem_lanes (memory c) !! lane = Some ln ->
  core.left_boundary ln = [] ->
  core.central_curve ln = [] ->
  core.right_boundary ln = [] ->
  Split (core.lane_id ln) "_" !! 2%nat = Some (to_string_Z k) ->
  exists c' ln',
    LaneSampling ele_lane lane refe_line c = Returns c' /\
    mem_lanes (memory c') !! lane = Some ln' /\
    sampled_from ele_lane (if (0 <? k)%Z then 1%Z else (-1)%Z) refe_line ln'.
Proof.
  intros Hln Hl Hc Hr Hsplit.
  unfold LaneSampling. rewrite (read_lane_Some _ _ _ Hln). outcome_steps.
  unfold at_. rewrite Hsplit. outcome_steps.
  rewrite to_string_Z_gt_zero.
  destruct (LaneSampling_fold ele_lane lane (core.lane_id ln)
              (if (0 <? k)%Z then 1%Z else (-1)%Z) refe_line c 0%Z ln Hln)
    as (c' & k' & ln' & Hfold & Hln' & Hid' & Hl' & Hc' & Hr' & _).
  rewrite Hfold. exists c', ln'.
  split; [reflexivity |]. split; [exact Hln' |].
  rewrite Hl in Hl'. rewrite Hc in Hc'. rewrite Hr in Hr'.
  unfold sampled_from. rewrite Hid'. by rewrite Hl', Hc', Hr'.
Qed.
End DirectionFacts.

(** ** Center lane sampling, whatever the geometry lookup answers *)

Ltac solve_sampling_frame :=
  unfold sampling_frame; cbn; rewrite ?length_alter;
  repeat split; try done; try (by left); try (by right);
  try (intros q Hq; by rewrite !list_lookup_alter_ne).

Lemma sampling_frame_refl lane c : sampling_frame lane c c.
Proof. solve_sampling_frame. Qed.

Section SamplingLoopFacts.
Context `{External}.
Variable geometrys : list element.Geometry.
Variable lane_offsets : list element.LaneOffset.
Variable len : Q.
Variable lane : nat.
Variable lane_id : string.

Lemma GetGeometry_cases r c :
  (exists g, GetGeometry geometrys r c = (Some g, c)) \/
  GetGeometry geometrys r c = (None, c) \/
  GetGeometry geometrys r c
  = (None,
     SetStatus CONVERTOR_CENTERLANE_ERROR "get geometry index execption." c).
Proof.
  unfold GetGeometry.
  destruct (_ <? 0)%Z; [by right; right |].
  destruct (_ <? _)%Z; [| by right; left].
  destruct (geometrys !! _) as [g |]; [left; by exists g | by right; left].
Qed.

(** One iteration, whatever the lookups answer. *)
Lemma sampling_body_general s s' b ln :
  mem_lanes (memory (conv s)) !! lane = Some ln ->
  sampling_body geometrys lane_offsets len lane lane_id s = (s', b) ->
  sampling_frame lane (conv s) (conv s') /\
  (b = false ->
   mem_lanes (memory (conv s')) !! lane = Some ln /\
   geometry_type s' = geometry_type s /\ point_idx s' = point_idx s) /\
  (b = true ->
   status_ (conv s') = status_ (conv s) /\
   exists pt gs,
     mem_lanes (memory (conv s')) !! lane
     = Some (core.mkLane (core.lane_id ln) (core.lane_parent_id ln)
               (core.central_curve ln ++ [pt]) (core.left_boundary ln ++ [pt])
               (core.right_boundary ln ++ [pt]) (core.geometrys ln ++ gs)) /\
     core.id pt = lane_id +:+ "_" +:+ to_string_N (point_idx s) /\
     point_idx s' = (point_idx s + 1)%N /\
     geometry_type s' = last_type (geometry_type s) gs /\
     alternating (geometry_type s) gs /\
     Forall (fun g => core.point g = pt) gs).
Proof.
  intros Hln. unfold sampling_body.
  destruct (clamp len (step_ (conv s)) (section_ds s) (road_ds s))
    as [[d1 r1] |].
  2: { intros [= <- <-]. split; [apply sampling_frame_refl |].
       split; [done | discriminate]. }
  destruct (GetGeometry_cases r1 (conv s)) as [[g ->] | [-> | ->]].
  - set (pt := center_point _ _ _ _ _).
    assert (Hid : core.id pt = lane_id +:+ "_" +:+ to_string_N (point_idx s)).
    { unfold pt, center_point. by destruct (Qeq_dec 0 _). }
    destruct (geometry_type s =? element.type g)%Z eqn:Htype; cbn [negb];
      intros [= <- <-]; cbn [conv geometry_type point_idx].
    + split; [solve_sampling_frame |]. split; [discriminate |].
      intros _. split; [reflexivity |]. exists pt, [].
      split.
      { rewrite (write_lane_lookup _ _ _ _ Hln). cbn. by rewrite app_nil_r. }
      by repeat split.
    + split; [solve_sampling_frame |]. split; [discriminate |].
      intros _. split; [reflexivity |].
      exists pt, [core.mkGeomotry (element.type g) pt].
      split.
      { rewrite (write_lane_lookup _ _ _ _
                   (write_lane_lookup _ _ _ _ Hln)). reflexivity. }
      split; [exact Hid |]. split; [reflexivity |]. split; [reflexivity |].
      split; [| by repeat constructor].
      cbn. split; [| done]. apply Z.eqb_neq in Htype. congruence.
  - intros [= <- <-]. cbn [conv geometry_type point_idx].
    split; [apply sampling_frame_refl |]. split; [done | discriminate].
  - intros [= <- <-]. cbn [conv geometry_type point_idx].
    split; [solve_sampling_frame |]. split; [done | discriminate].
Qed.

Lemma alternating_app t0 gs1 gs2 :
  alternating t0 gs1 -> alternating (last_type t0 gs1) gs2 ->
  alternating t0 (gs1 ++ gs2).
Proof.
  revert t0. induction gs1 as [| g gs1 IH]; intros t0 H1 H2; [exact H2 |].
  destruct H1 as [Hne H1]. split; [exact Hne |]. by apply IH.
Qed.

Lemma last_type_app t0 gs1 gs2 :
  last_type t0 (gs1 ++ gs2) = last_type (last_type t0 gs1) gs2.
Proof. unfold last_type. by rewrite fold_left_app. Qed.

(** The loop, whatever the lookups answer: the points it records go to all
    three curves of the lane, their ids count up from [point_idx], and the
    markers it adds change type from each to the next. *)
Lemma sampling_loop_general :
  forall (fuel : nat) (s s' : Sampling) (ln : core.Lane),
    mem_lanes (memory (conv s)) !! lane = Some ln ->
    sampling_loop fuel geometrys lane_offsets len lane lane_id s = Returns s' ->
    sampling_frame lane (conv s) (conv s') /\
    exists pts gs,
      mem_lanes (memory (conv s')) !! lane
      = Some (core.mkLane (core.lane_id ln) (core.lane_parent_id ln)
                (core.central_curve ln ++ pts) (core.left_boundary ln ++ pts)
                (core.right_boundary ln ++ pts) (core.geometrys ln ++ gs)) /\
      (forall i pt,
         pts !! i = Some pt ->
         core.id pt
         = lane_id +:+ "_" +:+ to_string_N (point_idx s + N.of_nat i)) /\
      alternating (geometry_type s) gs /\
      Forall (fun g => core.point g ∈ pts) gs.
Proof.
  induction fuel as [| fuel IH]; intros s s' ln Hln Hrun; [discriminate Hrun |].
  cbn [sampling_loop] in Hrun.
  destruct (sampling_body geometrys lane_offsets len lane lane_id s)
    as [s1 b] eqn:Hbody.
  destruct (sampling_body_general s s1 b ln Hln Hbody) as (Hfr & Hstop & Hgo).
  destruct b.
  - destruct (Hgo eq_refl)
      as (Hst & pt & gs1 & Hln1 & Hid & Hidx & Hgt & Halt & Hpt).
    destruct (IH s1 s' _ Hln1 Hrun) as (Hfr' & pts & gs2 & Hln' & Hids & Halt'
                                        & Hpts).
    split.
    { destruct Hfr as (? & ? & ? & ? & ? & ? & ? & Ho1 & _).
      destruct Hfr' as (? & ? & ? & ? & ? & ? & ? & Ho2 & Hs2).
      unfold sampling_frame.
      repeat split; try congruence;
        try (intros q Hq; by rewrite Ho2, Ho1); by rewrite <- Hst. }
    exists (pt :: pts), (gs1 ++ gs2). split.
    { rewrite Hln'. cbn. by rewrite <- !app_assoc. }
    split.
    { intros [| i] p Hi; cbn in Hi.
      - injection Hi as <-. by rewrite N.add_0_r.
      - rewrite (Hids i p Hi), Hidx. do 3 f_equal.
        rewrite Nat2N.inj_succ, <- N.add_1_l. by rewrite N.add_assoc. }
    split.
    { apply alternating_app; [exact Halt |]. by rewrite <- Hgt. }
    apply Forall_app. split.
    + eapply Forall_impl; [exact Hpt |]. cbn. intros g ->. apply elem_of_cons. by left.
    + eapply Forall_impl; [exact Hpts |]. cbn. intros g Hg.
      apply elem_of_cons. by right.
  - injection Hrun as <-. destruct (Hstop eq_refl) as (Hln1 & _ & _).
    split; [exact Hfr |]. exists [], []. rewrite !app_nil_r.
    split; [by destruct ln |]. split; [by intros i pt Hi |]. by split.
Qed.

Lemma sampling_loop_no_throw :
  forall (fuel : nat) (s : Sampling),
    sampling_loop fuel geometrys lane_offsets len lane lane_id s <> Throws.
Proof.
  induction fuel as [| fuel IH]; intros s; [discriminate |].
  cbn [sampling_loop].
  destruct (sampling_body geometrys lane_offsets len lane lane_id s)
    as [s1 [|]]; [apply IH | discriminate].
Qed.
End SamplingLoopFacts.

Section CenterLaneGeneralFacts.
Context `{External}.

(** [CenterLaneSampling] returns for a positive step, and what it does to
    the center lane, whatever the lookups answer. *)
Lemma CenterLaneSampling_general (geometrys : list element.Geometry)
    (lane_offsets : list element.LaneOffset) (section : nat) (road_ds_v : Q)
    (c : Convertor) (sec : core.Section) (lane : nat) (ln : core.Lane) :
  mem_sections (memory c) !! section = Some sec ->
  core.center_lane sec = Some lane ->
  mem_lanes (memory c) !! lane = Some ln ->
  0 < step_ c ->
  exists c' road_ds' pts gs,
    CenterLaneSampling geometrys lane_offsets section road_ds_v c
    = Returns (c', road_ds') /\
    sampling_frame lane c c' /\
    mem_lanes (memory c') !! lane
    = Some (core.mkLane (core.lane_id ln) (core.lane_parent_id ln) pts
              (core.left_boundary ln ++ pts) (core.right_boundary ln ++ pts)
              (core.geometrys ln ++ gs)) /\
    (forall i pt,
       pts !! i = Some pt ->
       core.id pt = core.lane_id ln +:+ "_" +:+ to_string_N (N.of_nat i)) /\
    alternating (-1) gs /\
    Forall (fun g => core.point g ∈ pts) gs.
Proof.
  intros Hsec Hcenter Hln Hstep.
  unfold CenterLaneSampling.
  rewrite (read_section_Some _ _ _ Hsec). outcome_steps.
  rewrite Hcenter. outcome_steps.
  rewrite (read_lane_Some _ _ _ Hln). outcome_steps.
  set (c0 := write_lane lane (lane_set_central []) c).
  assert (Hln0 : mem_lanes (memory c0) !! lane = Some (lane_set_central [] ln))
    by (apply write_lane_lookup; exact Hln).
  pose proof (sampling_loop_returns geometrys lane_offsets (core.length sec)
                lane (core.lane_id ln)
                (S (Z.to_nat (Qfloor (core.length sec / step_ c0))))
                (sampling_fuel (core.length sec) (step_ c0))
                (mkSampling 0 road_ds_v (-1) 0 c0) Hstep) as Hret.
  cbn [conv section_ds] in Hret.
  specialize (Hret ltac:(unfold sampling_fuel; lia)
                   (sampling_fuel_enough _ _ Hstep)).
  pose proof (sampling_loop_no_throw geometrys lane_offsets (core.length sec)
                lane (core.lane_id ln)
                (sampling_fuel (core.length sec) (step_ c0))
                (mkSampling 0 road_ds_v (-1) 0 c0)) as Hthrow.
  destruct (sampling_loop (sampling_fuel (core.length sec) (step_ c0))
              geometrys lane_offsets (core.length sec) lane (core.lane_id ln)
              (mkSampling 0 road_ds_v (-1) 0 c0)) as [s' | |] eqn:Hrun;
    [| done | done].
  destruct (sampling_loop_general geometrys lane_offsets (core.length sec)
              lane (core.lane_id ln) _ (mkSampling 0 road_ds_v (-1) 0 c0) s'
              _ Hln0 Hrun)
    as (Hfr & pts & gs & Hln' & Hids & Halt & Hpts).
  outcome_steps. exists (conv s'), (road_ds s'), pts, gs.
  split; [reflexivity |].
  split.
  { destruct Hfr as (? & ? & ? & ? & ? & ? & Hlen & Ho & Hs).
    unfold sampling_frame. cbn [conv] in *.
    repeat split; try done.
    - rewrite Hlen. subst c0. cbn. by rewrite length_alter.
    - intros q Hq. rewrite (Ho q Hq). subst c0. cbn.
      by rewrite list_lookup_alter_ne. }
  split; [exact Hln' |]. split; [| by split].
  intros i pt Hi. by rewrite (Hids i pt Hi).
Qed.


(** X3.  [CenterLaneSampling] writes to the center lane and, when the geometry
    lookup answers a negative index, to the status; the repository, the
    collection for the k-d tree, the tree, the sections and all other lanes
    are as before. *)
Theorem CenterLaneSampling_frame
    (geometrys : list element.Geometry)
    (lane_offsets : list element.LaneOffset) (section : nat) (road_ds_v : Q)
    (c : Convertor) (sec : core.Section) (lane : nat) (ln : core.Lane) :
  mem_sections (memory c) !! section = Some sec ->
  core.center_lane sec = Some lane ->
  mem_lanes (memory c) !! lane = Some ln ->
  0 < step_ c ->
  exists c' road_ds',
    CenterLaneSampling geometrys lane_offsets section road_ds_v c
    = Returns (c', road_ds') /\
    sampling_frame lane c c'.
Proof.
  intros Hsec Hcenter Hln Hstep.
  destruct (CenterLaneSampling_general geometrys lane_offsets section
              road_ds_v c sec lane ln Hsec Hcenter Hln Hstep)
    as (c' & r' & pts & gs & Hrun & Hfr & _).
  by exists c', r'.
Qed.

(** X4.  The [i]-th point of the central curve of the center lane has the id
    of the lane followed by ["_"] and [i]; the ids of the curve are pairwise
    distinct. *)
Theorem CenterLaneSampling_point_ids
    (geometrys : list element.Geometry)
    (lane_offsets : list element.LaneOffset) (section : nat) (road_ds_v : Q)
    (c : Convertor) (sec : core.Section) (lane : nat) (ln : core.Lane) :
  mem_sections (memory c) !! section = Some sec ->
  core.center_lane sec = Some lane ->
  mem_lanes (memory c) !! lane = Some ln ->
  0 < step_ c ->
  exists c' road_ds' ln',
    CenterLaneSampling geometrys lane_offsets section road_ds_v c
    = Returns (c', road_ds') /\
    mem_lanes (memory c') !! lane = Some ln' /\
    (forall i pt,
       core.central_curve ln' !! i = Some pt ->
       core.id pt = core.lane_id ln +:+ "_" +:+ to_string_N (N.of_nat i)) /\
    NoDup (map core.id (core.central_curve ln')).
Proof.
  intros Hsec Hcenter Hln Hstep.
  destruct (CenterLaneSampling_general geometrys lane_offsets section
              road_ds_v c sec lane ln Hsec Hcenter Hln Hstep)
    as (c' & r' & pts & gs & Hrun & _ & Hln' & Hids & _).
  eexists c', r', _. split; [exact Hrun |]. split; [exact Hln' |].
  cbn [core.central_curve]. split; [exact Hids |].
  apply NoDup_alt. intros i j x Hi Hj.
  rewrite list_lookup_fmap in Hi, Hj.
  destruct (pts !! i) as [pi |] eqn:Hpi; [| discriminate Hi].
  destruct (pts !! j) as [pj |] eqn:Hpj; [| discriminate Hj].
  cbn in Hi, Hj. injection Hi as Hi. injection Hj as Hj.
  rewrite (Hids i pi Hpi) in Hi. rewrite (Hids j pj Hpj) in Hj.
  rewrite <- Hj in Hi.
  apply (inj (String.app _)) in Hi. apply (inj (String.app _)) in Hi.
  unfold to_string_N in Hi. apply (inj pretty) in Hi. by apply Nat2N.inj.
Qed.

(** X5.  The geometry markers that [CenterLaneSampling] adds to the center
    lane change type from each to the next, the first differing from the
    initial tag -1, and each marker holds a point of the central curve. *)
Theorem CenterLaneSampling_markers
    (geometrys : list element.Geometry)
    (lane_offsets : list element.LaneOffset) (section : nat) (road_ds_v : Q)
    (c : Convertor) (sec : core.Section) (lane : nat) (ln : core.Lane) :
  mem_sections (memory c) !! section = Some sec ->
  core.center_lane sec = Some lane ->
  mem_lanes (memory c) !! lane = Some ln ->
  0 < step_ c ->
  exists c' road_ds' ln' gs,
    CenterLaneSampling geometrys lane_offsets section road_ds_v c
    = Returns (c', road_ds') /\
    mem_lanes (memory c') !! lane = Some ln' /\
    core.geometrys ln' = core.geometrys ln ++ gs /\
    alternating (-1) gs /\
    Forall (fun g => core.point g ∈ core.central_curve ln') gs.
Proof.
  intros Hsec Hcenter Hln Hstep.
  destruct (CenterLaneSampling_general geometrys lane_offsets section
              road_ds_v c sec lane ln Hsec Hcenter Hln Hstep)
    as (c' & r' & pts & gs & Hrun & _ & Hln' & _ & Halt & Hpts).
  eexists c', r', _, gs. split; [exact Hrun |]. split; [exact Hln' |]. done.
Qed.


End CenterLaneGeneralFacts.

(** ** The status that [Start] returns *)

Section StatusFacts.
Context `{External}.
Variable default_param : kdtree.KDTreeParam.
Variable P : Status -> Prop.
Hypothesis P_center_lane_error :
  forall m : string, P (mkStatus CONVERTOR_CENTERLANE_ERROR m).

Lemma returns_status_bind {A B : Type} (getA : A -> Convertor)
    (getB : B -> Convertor) (m : Outcome A) (f : A -> Outcome B) :
  returns_status P getA m ->
  (forall a, P (status_ (getA a)) -> returns_status P getB (f a)) ->
  returns_status P getB (m ≫= f).
Proof.
  intros Hm Hf. destruct m as [a | |]; cbn in *; try done. exact (Hf a Hm).
Qed.

Lemma returns_status_at {A B : Type} (getB : B -> Convertor) (v : list A)
    (i : nat) (f : A -> Outcome B) :
  (forall a, returns_status P getB (f a)) ->
  returns_status P getB (at_ v i ≫= f).
Proof.
  intros Hf. unfold at_. destruct (v !! i); cbn; [apply Hf | done].
Qed.

Lemma returns_status_on_data f c :
  P (status_ c) -> returns_status P (fun c' : Convertor => c') (on_data f c).
Proof. intros Hc. unfold on_data. by destruct (data_ c). Qed.

Lemma sampling_loop_status geometrys lane_offsets len lane lane_id :
  forall (fuel : nat) (s : Sampling),
    P (status_ (conv s)) ->
    returns_status P conv
      (sampling_loop fuel geometrys lane_offsets len lane lane_id s).
Proof using P_center_lane_error.
  induction fuel as [| fuel IH]; intros s Hs; [done |].
  cbn [sampling_loop]. unfold sampling_body.
  destruct (clamp len (step_ (conv s)) (section_ds s) (road_ds s))
    as [[d1 r1] |]; [| exact Hs].
  unfold GetGeometry.
  destruct (_ <? 0)%Z; [apply P_center_lane_error |].
  destruct (_ <? _)%Z; [| exact Hs].
  destruct (geometrys !! _) as [g |]; [| exact Hs].
  apply IH. cbn [conv].
  by destruct (negb _).
Qed.

Lemma CenterLaneSampling_status geometrys lane_offsets section r c :
  P (status_ c) ->
  returns_status P fst (CenterLaneSampling geometrys lane_offsets section r c).
Proof using P_center_lane_error.
  intros Hc. unfold CenterLaneSampling, read_section, read_lane.
  apply returns_status_at. intros sec.
  destruct (core.center_lane sec) as [lane |]; [| done]. outcome_steps.
  apply returns_status_at. intros ln.
  eapply (returns_status_bind conv).
  - by apply sampling_loop_status.
  - intros s Hs. exact Hs.
Qed.

Lemma LaneSampling_fold_status ele_lane lane lane_id lane_dir :
  forall refe_line c k,
    status_ (fold_left (LaneSampling_body ele_lane lane lane_id lane_dir)
               refe_line (c, k)).1 = status_ c.
Proof.
  induction refe_line as [| p refe_line IH]; intros c k; [reflexivity |].
  cbn [fold_left]. unfold LaneSampling_body at 2. by rewrite IH.
Qed.

Lemma LaneSampling_status ele_lane lane refe_line c :
  P (status_ c) ->
  returns_status P (fun c' : Convertor => c')
    (LaneSampling ele_lane lane refe_line c).
Proof.
  intros Hc. unfold LaneSampling, read_lane.
  apply returns_status_at. intros ln. apply returns_status_at. intros idx2.
  cbn. by rewrite LaneSampling_fold_status.
Qed.

Lemma lanes_loop_status add section section_id refe :
  forall ele_lanes c,
    P (status_ c) ->
    returns_status P (fun c' : Convertor => c')
      (lanes_loop add ele_lanes section section_id refe c).
Proof.
  induction ele_lanes as [| ele_lane rest IH]; intros c Hc; [exact Hc |].
  cbn [lanes_loop alloc_lane]. unfold read_lane.
  apply returns_status_at. intros refe_lane.
  eapply (returns_status_bind (fun c' : Convertor => c')).
  { apply LaneSampling_status. exact Hc. }
  intros c1 Hc1. apply returns_status_at. intros ln.
  eapply (returns_status_bind (fun c' : Convertor => c')).
  { by apply returns_status_on_data. }
  intros c2 Hc2. apply IH. exact Hc2.
Qed.

Lemma ConvertSection_loop_status ele_road road_id :
  forall ele_sections section_idx r road c,
    P (status_ c) ->
    returns_status P fst
      (ConvertSection_loop ele_road road_id ele_sections section_idx r road c).
Proof using P_center_lane_error.
  induction ele_sections as [| ele_section rest IH];
    intros section_idx r road c Hc; [exact Hc |].
  cbn [ConvertSection_loop alloc_section alloc_lane].
  eapply (returns_status_bind (fun c' : Convertor => c')).
  { apply returns_status_on_data. exact Hc. }
  intros c1 Hc1.
  destruct (bool_decide _); [apply P_center_lane_error |].
  eapply (returns_status_bind fst).
  { apply CenterLaneSampling_status. exact Hc1. }
  intros [c2 r2] Hc2. cbn [fst] in Hc2.
  unfold read_lane. apply returns_status_at. intros ln.
  eapply (returns_status_bind (fun c' : Convertor => c')).
  { by apply returns_status_on_data. }
  intros c3 Hc3.
  eapply (returns_status_bind (fun c' : Convertor => c')).
  { by apply lanes_loop_status. }
  intros c4 Hc4.
  eapply (returns_status_bind (fun c' : Convertor => c')).
  { apply lanes_loop_status. exact Hc4. }
  intros c5 Hc5. by apply IH.
Qed.

Lemma for_each_status {A : Type}
    (body : A -> Convertor -> Outcome Convertor) :
  (forall a c,
     P (status_ c) ->
     returns_status P (fun c' : Convertor => c') (body a c)) ->
  forall l c,
    P (status_ c) ->
    returns_status P (fun c' : Convertor => c') (for_each body l c).
Proof.
  intros Hbody. induction l as [| a l IH]; intros c Hc; [exact Hc |].
  cbn [for_each]. specialize (Hbody a c Hc).
  destruct (body a c) as [c1 | |]; cbn in Hbody; try done. by apply IH.
Qed.

Lemma ConvertRoad_status ele_map c :
  P (status_ c) ->
  returns_status P (fun c' : Convertor => c') (ConvertRoad ele_map c).
Proof using P_center_lane_error.
  intros Hc. unfold ConvertRoad. destruct (negb (Continue c)); [exact Hc |].
  apply for_each_status; [| exact Hc].
  intros ele_road c0 Hc0. unfold ConvertRoad_body.
  destruct (element.id ele_road <? 0)%Z; [exact Hc0 |].
  eapply (returns_status_bind fst).
  { unfold ConvertSection. destruct (negb (Continue c0)); [exact Hc0 |].
    by apply ConvertSection_loop_status. }
  intros [c1 road] Hc1. by apply returns_status_on_data.
Qed.

Lemma ConvertJunction_status ele_map c :
  P (status_ c) ->
  returns_status P (fun c' : Convertor => c') (ConvertJunction ele_map c).
Proof.
  intros Hc. unfold ConvertJunction. destruct (negb (Continue c)); [exact Hc |].
  apply for_each_status; [| exact Hc].
  intros ele_junction c0 Hc0. unfold ConvertJunction_body.
  destruct (_ <? 0)%Z; [exact Hc0 |]. by apply returns_status_on_data.
Qed.

(** The stages that [Start] chains after a successful parse. *)
Lemma stages_status ele_map c :
  P (status_ c) ->
  returns_status P (fun c' : Convertor => c')
    (c1 ← ConvertHeader ele_map c;
     c2 ← ConvertRoad ele_map c1;
     c3 ← ConvertJunction ele_map c2;
     c4 ← BuildKDTree default_param c3;
     mret (End c4)).
Proof using P_center_lane_error.
  intros Hc.
  eapply (returns_status_bind (fun c' : Convertor => c')).
  { unfold ConvertHeader. destruct (negb (Continue c)); [exact Hc |].
    by apply returns_status_on_data. }
  intros c1 Hc1.
  eapply (returns_status_bind (fun c' : Convertor => c'));
    [by apply ConvertRoad_status |].
  intros c2 Hc2.
  eapply (returns_status_bind (fun c' : Convertor => c'));
    [by apply ConvertJunction_status |].
  intros c3 Hc3.
  eapply (returns_status_bind (fun c' : Convertor => c')).
  { unfold BuildKDTree. destruct (negb (Continue c3)); [exact Hc3 |].
    destruct (kdtree_ c3); [exact Hc3 | done]. }
  intros c4 Hc4. unfold End. by destruct (negb (Continue c4)).
Qed.

End StatusFacts.

Section StartFacts.
Context `{External}.
Variable default_param : kdtree.KDTreeParam.

(** The three ways in which [Start] returns. *)
Lemma Start_cases (c c' : Convertor) :
  Start default_param c = Returns c' ->
  ((param_ c = None \/ data_ c = None) /\
   c' = SetStatus INIT_FACTORY_ERROR "factory error."
          (set_center_line_pts [] c))
  \/
  (exists param,
     param_ c = Some param /\ is_Some (data_ c) /\
     (map_file param = ""
      \/ FileExists (map_file param) = false
      \/ (ParseMap (map_file param)).1 = false) /\
     c' = SetStatus INIT_MAPFILE_ERROR ("input file error: " +:+ map_file param)
            (set_status (mkStatus OK "ok")
               (set_step (Qmax (1 # 10) (step param))
                  (set_center_line_pts [] c))))
  \/
  (exists param,
     param_ c = Some param /\ is_Some (data_ c) /\
     map_file param <> "" /\
     FileExists (map_file param) = true /\
     (ParseMap (map_file param)).1 = true /\
     (error_code (status_ c') = OK
      \/ error_code (status_ c') = CONVERTOR_CENTERLANE_ERROR)).
Proof.
  unfold Start. cbn [param_ data_ set_center_line_pts].
  destruct (param_ c) as [param |] eqn:Hparam.
  2: { intros Hrun. injection Hrun as <-. left. split; [by left | reflexivity]. }
  destruct (data_ c) as [d |] eqn:Hdata.
  2: { intros Hrun. injection Hrun as <-. left. split; [by right | reflexivity]. }
  destruct (bool_decide (map_file param = "")) eqn:Hname; cbn [orb].
  { apply bool_decide_eq_true in Hname. intros Hrun. injection Hrun as <-.
    right; left.
    exists param. split; [done |]. split; [by eexists |].
    split; [by left | reflexivity]. }
  apply bool_decide_eq_false in Hname.
  destruct (FileExists (map_file param)) eqn:Hfile; cbn [negb].
  2: { intros Hrun. injection Hrun as <-. right; left.
       exists param. split; [done |]. split; [by eexists |].
       split; [by right; left | reflexivity]. }
  destruct (ParseMap (map_file param)) as [parse_ok ele_map] eqn:Hparse.
  destruct parse_ok; cbn [negb].
  2: { intros Hrun. injection Hrun as <-. right; left.
       exists param. split; [done |]. split; [by eexists |].
       split; [right; right; by rewrite Hparse | reflexivity]. }
  intros Hrun. right; right.
  exists param. split; [done |]. split; [by eexists |].
  split; [exact Hname |]. split; [exact Hfile |].
  split; [by rewrite Hparse |].
  pose proof (stages_status default_param
                (fun s => error_code s = OK
                          \/ error_code s = CONVERTOR_CENTERLANE_ERROR)
                ltac:(by right) ele_map
                (set_status (mkStatus OK "ok")
                   (set_step (Qmax (1 # 10) (step param))
                      (set_center_line_pts [] c))) ltac:(by left)) as Hst.
  rewrite Hrun in Hst. exact Hst.
Qed.

(** X7.  Which initialisation error [Start] reports. The factory error is
    returned exactly when a factory object is missing, the map file error
    exactly when the factory objects are there and the name is empty, the file
    does not exist or the parse fails. After either error the repository, the
    tree object and the store are as before, and the collection for the k-d
    tree is empty. *)
Theorem Start_error_codes (c c' : Convertor) :
  Start default_param c = Returns c' ->
  (error_code (status_ c') = INIT_FACTORY_ERROR
   <-> param_ c = None \/ data_ c = None) /\
  (error_code (status_ c') = INIT_MAPFILE_ERROR
   <-> exists param,
         param_ c = Some param /\ is_Some (data_ c) /\
         (map_file param = ""
          \/ FileExists (map_file param) = false
          \/ (ParseMap (map_file param)).1 = false)) /\
  (error_code (status_ c') = INIT_FACTORY_ERROR
   \/ error_code (status_ c') = INIT_MAPFILE_ERROR ->
   data_ c' = data_ c /\ kdtree_ c' = kdtree_ c /\ memory c' = memory c /\
   center_line_pts_ c' = []).
Proof.
  intros Hrun.
  destruct (Start_cases c c' Hrun)
    as [[Hmissing ->]
       | [(param & Hparam & Hdata & Hcond & ->)
         | (param & Hparam & Hdata & Hname & Hfile & Hparse & Hcode)]].
  - split; [by split |]. split; [| done].
    split; [done |]. intros (p & Hp & [d Hd] & _).
    destruct Hmissing; congruence.
  - split; [split; [done |] |].
    { intros [Hn | Hn]; [congruence | destruct Hdata; congruence]. }
    split; [| done]. split; [| done]. intros _. by exists param.
  - split; [split |].
    + intros Hc. destruct Hcode; congruence.
    + intros [Hn | Hn]; [congruence | destruct Hdata; congruence].
    + split; [split |].
      * intros Hc. destruct Hcode; congruence.
      * intros (p & Hp & _ & [Hn | [Hf | Hp']]);
          rewrite Hparam in Hp; injection Hp as <-; congruence.
      * intros [Hc | Hc]; destruct Hcode; congruence.
Qed.



(** X9.  When [ConvertRoad] ends with an error, [Start] returns the convertor
    as [ConvertRoad] left it: no junction is converted, the tree object keeps
    what it held and the points collected so far are not cleared. *)
Theorem Start_after_conversion_error (c c1 c2 : Convertor) (param : Param)
    (ele_map : element.Map) :
  param_ c = Some param ->
  is_Some (data_ c) ->
  map_file param <> "" ->
  FileExists (map_file param) = true ->
  ParseMap (map_file param) = (true, ele_map) ->
  ConvertHeader ele_map
    (set_status (mkStatus OK "ok")
       (set_step (Qmax (1 # 10) (step param)) (set_center_line_pts [] c)))
  = Returns c1 ->
  ConvertRoad ele_map c1 = Returns c2 ->
  error_code (status_ c2) <> OK ->
  Start default_param c = Returns c2.
Proof.
  intros Hparam [d Hdata] Hname Hfile Hparse Hheader Hroad Herr.
  unfold Start. cbn [param_ data_ set_center_line_pts].
  rewrite Hparam, Hdata, (bool_decide_eq_false_2 _ Hname), Hfile, Hparse.
  cbn [orb negb]. rewrite Hheader. outcome_steps. rewrite Hroad.
  outcome_steps.
  assert (Hc : Continue c2 = false).
  { unfold Continue. apply bool_decide_eq_false_2. congruence. }
  unfold ConvertJunction. rewrite Hc. cbn [negb]. outcome_steps.
  unfold BuildKDTree. rewrite Hc. cbn [negb]. outcome_steps.
  unfold End. by rewrite Hc.
Qed.

End StartFacts.

(** ** The repository of junctions and roads *)

(** Case analysis on the first call of a chain that returns. *)
Ltac first_call H :=
  match type of H with
  | (?m ≫= _) = Returns _ =>
    let E := fresh "Hcall" in
    destruct m eqn:E; cbn [mbind Outcome_bind] in H; try discriminate H
  end.

Section RepositoryFacts.
Context `{External}.

Lemma for_each_junctions (key : string) :
  forall (junctions : list element.Junction) (c : Convertor) (d : core.Data),
    Continue c = true ->
    data_ c = Some d ->
    exists d',
      for_each ConvertJunction_body junctions c
      = Returns (set_data (Some d') c) /\
      core.header d' = core.header d /\
      core.roads d' = core.roads d /\
      core.sections d' = core.sections d /\
      core.lanes d' = core.lanes d /\
      core.junction d' !! key
      = match last (filter (stored_under key) junctions) with
        | Some j => Some (converted_junction j)
        | None => core.junction d !! key
        end.
Proof.
  induction junctions as [| j junctions IH]; intros c d Hc Hd.
  - exists d. cbn. repeat split; try done.
    destruct c; cbn in *. by rewrite Hd.
  - cbn [for_each]. unfold ConvertJunction_body at 1.
    unfold ConvertJunctionAttr. rewrite Hc. cbn [negb].
    rewrite filter_cons.
    destruct (Z.ltb_spec (element.junction_attr_id j) 0) as [Hneg | Hpos].
    + outcome_steps. destruct (IH c d Hc Hd) as (d' & -> & ? & ? & ? & ? & Hk).
      exists d'. repeat split; try done.
      destruct (decide (stored_under key j)) as [[Hge _] | _]; [lia |].
      exact Hk.
    + unfold on_data. rewrite Hd.
      set (d1 := put_junction _ _ d).
      destruct (IH (set_data (Some d1) c) d1 Hc eq_refl)
        as (d' & -> & ? & ? & ? & ? & Hk).
      exists d'. split; [reflexivity |]. repeat split; try done.
      rewrite Hk.
      destruct (decide (stored_under key j)) as [[_ Hkey] | Hnot].
      * rewrite last_cons.
        destruct (last (filter (stored_under key) junctions)); [done |].
        subst d1. cbn. rewrite <- Hkey. by rewrite lookup_insert_eq.
      * destruct (last (filter (stored_under key) junctions)); [done |].
        subst d1. cbn. rewrite lookup_insert_ne; [done |].
        intros Heq. apply Hnot. by split.
Qed.

(** X10.  [ConvertJunction] with the status OK returns when the repository is
    there, changes the map of junctions only, and stores under each key the
    last junction of the parsed map whose id is not negative and prints as
    that key; other keys keep what they held. *)
Theorem ConvertJunction_lookup (ele_map : element.Map) (c : Convertor)
    (d : core.Data) (key : string) :
  error_code (status_ c) = OK ->
  data_ c = Some d ->
  exists d',
    ConvertJunction ele_map c = Returns (set_data (Some d') c) /\
    core.header d' = core.header d /\
    core.roads d' = core.roads d /\
    core.sections d' = core.sections d /\
    core.lanes d' = core.lanes d /\
    core.junction d' !! key
    = match last (filter (stored_under key) (element.junctions ele_map)) with
      | Some j => Some (converted_junction j)
      | None => core.junction d !! key
      end.
Proof.
  intros Hok Hd.
  assert (Hc : Continue c = true).
  { unfold Continue. by apply bool_decide_eq_true_2. }
  unfold ConvertJunction. rewrite Hc. cbn [negb].
  by apply for_each_junctions.
Qed.

Lemma ConvertSection_loop_road ele_road road_id :
  forall ele_sections section_idx r road c c' road',
    ConvertSection_loop ele_road road_id ele_sections section_idx r road c
    = Returns (c', road') ->
    exists extra,
      road' = road_with_sections road (core.road_sections road ++ extra) /\
      (List.length extra <= List.length ele_sections)%nat.
Proof.
  induction ele_sections as [| ele_section rest IH];
    intros section_idx r road c c' road' Hrun.
  - injection Hrun as <- <-. exists []. rewrite app_nil_r.
    split; [by destruct road | done].
  - cbn [ConvertSection_loop alloc_section alloc_lane] in Hrun.
    first_call Hrun.
    destruct (bool_decide _).
    + injection Hrun as <- <-. eexists [_]. split; [reflexivity | cbn; lia].
    + first_call Hrun. destruct a0 as [c2 r2].
      first_call Hrun. first_call Hrun. first_call Hrun. first_call Hrun.
      apply IH in Hrun as (extra & -> & Hlen).
      eexists (_ :: extra). split; [| cbn; lia].
      unfold road_with_sections, road_add_section. cbn.
      by rewrite <- app_assoc.
Qed.

(** X11.  When the body of the loop of [ConvertRoad] returns for a road of
    non-negative id, the repository holds a road under that id, with the
    attributes of the parsed road, at most one predecessor and one successor
    (none for the link id -1) and no more sections than the parsed road,
    whether or not the conversion of its sections recorded an error. *)
Theorem ConvertRoad_body_stores_road (ele_road : element.Road)
    (c c' : Convertor) :
  error_code (status_ c) = OK ->
  (0 <= element.id ele_road)%Z ->
  ConvertRoad_body ele_road c = Returns c' ->
  exists d' road,
    data_ c' = Some d' /\
    core.roads d' !! to_string_Z (element.id ele_road) = Some road /\
    core.road_id road = to_string_Z (element.id ele_road) /\
    core.name road = element.name ele_road /\
    core.junction_id road = to_string_Z (element.junction_id ele_road) /\
    core.road_length road = element.length ele_road /\
    core.rule road = element.rule ele_road /\
    core.predecessor_ids road
    = (if decide (element.predecessor ele_road = (-1)%Z) then ∅
       else {[to_string_Z (element.predecessor ele_road)]}) /\
    core.successor_ids road
    = (if decide (element.successor ele_road = (-1)%Z) then ∅
       else {[to_string_Z (element.successor ele_road)]}) /\
    core.info road
    = map (fun ele_info =>
             core.mkRoadInfo (element.info_start_position ele_info)
               (element.info_type ele_info))
        (element.type_info ele_road) /\
    (List.length (core.road_sections road)
     <= List.length (element.lane_sections ele_road))%nat.
Proof.
  intros Hok Hid Hrun.
  assert (Hc : Continue c = true).
  { unfold Continue. by apply bool_decide_eq_true_2. }
  unfold ConvertRoad_body in Hrun.
  destruct (Z.ltb_spec (element.id ele_road) 0); [lia |].
  unfold ConvertSection, ConvertRoadAttr in Hrun. rewrite Hc in Hrun.
  cbn [negb] in Hrun. first_call Hrun. destruct a as [c1 road1].
  apply ConvertSection_loop_road in Hcall as (extra & -> & Hlen).
  unfold on_data in Hrun. destruct (data_ c1) as [d1 |]; [| discriminate Hrun].
  injection Hrun as <-.
  eexists _, _. split; [reflexivity |].
  split; [cbn; apply lookup_insert_eq |].
  cbn. repeat split; try done.
  - destruct (decide (element.predecessor ele_road = (-1)%Z)) as [-> | Hne].
    + reflexivity.
    + rewrite bool_decide_eq_true_2 by congruence. apply union_empty_r_L.
  - destruct (decide (element.successor ele_road = (-1)%Z)) as [-> | Hne].
    + reflexivity.
    + rewrite bool_decide_eq_true_2 by congruence. apply union_empty_r_L.
Qed.

Lemma bind_ext {A B : Type} (m : Outcome A) (f g : A -> Outcome B) :
  (forall a, f a = g a) -> m ≫= f = m ≫= g.
Proof. intros Hfg. destruct m; cbn; [apply Hfg | done | done]. Qed.

(** X12.  The loop of [ConvertSection] ends at the first section whose center
    does not hold exactly one lane: what follows that section in the parsed
    road has no effect. *)
Theorem ConvertSection_loop_stops (ele_road : element.Road) (road_id : string)
    (bad : element.LaneSection) (rest : list element.LaneSection) :
  List.length (element.center bad) <> 1%nat ->
  forall (before : list element.LaneSection) (section_idx : Z) (r : Q)
         (road : core.Road) (c : Convertor),
    ConvertSection_loop ele_road road_id (before ++ bad :: rest) section_idx r
      road c
    = ConvertSection_loop ele_road road_id (before ++ [bad]) section_idx r
        road c.
Proof.
  intros Hbad. induction before as [| ele_section before IH];
    intros section_idx r road c.
  - cbn [app ConvertSection_loop alloc_section]. apply bind_ext. intros c1.
    by rewrite bool_decide_eq_true_2 by congruence.
  - cbn [app ConvertSection_loop alloc_section alloc_lane].
    apply bind_ext. intros c1.
    destruct (bool_decide _); [reflexivity |].
    apply bind_ext. intros [c2 r2].
    apply bind_ext. intros ln.
    apply bind_ext. intros c3.
    apply bind_ext. intros c4.
    apply bind_ext. intros c5. apply IH.
Qed.

End RepositoryFacts.

(** ** The indexed points and the results of a search *)

Section TreeFacts.
Context `{External}.
Variable default_param : kdtree.KDTreeParam.

(** X13.  [BuildKDTree] with the status OK replaces what the tree object held
    by the points of [center_line_pts_]: as many points, and at each index the
    coordinates and the id of the point at that index. *)
Theorem BuildKDTree_indexes_collection (c : Convertor) (t : kdtree.KDTree) :
  error_code (status_ c) = OK ->
  kdtree_ c = Some t ->
  exists t',
    BuildKDTree default_param c = Returns (set_kdtree (Some t') c) /\
    kdtree.kdtree_get_point_count (kdtree.adaptor_ t')
    = List.length (center_line_pts_ c) /\
    forall i p,
      center_line_pts_ c !! i = Some p ->
      kdtree.kdtree_get_pt (kdtree.adaptor_ t') i 0 = core.x p /\
      kdtree.kdtree_get_pt (kdtree.adaptor_ t') i 1 = core.y p /\
      kdtree.ids_ (kdtree.adaptor_ t') !! i = Some (core.id p).
Proof.
  intros Hok Ht. unfold BuildKDTree, Continue.
  rewrite bool_decide_eq_true_2 by done. cbn [negb]. rewrite Ht.
  eexists. split; [reflexivity |].
  cbn [kdtree.Init kdtree.adaptor_]. rewrite Adaptor_Init_spec.
  unfold kdtree.kdtree_get_point_count, kdtree.kdtree_get_pt.
  cbn [kdtree.matrix_ kdtree.ids_]. split; [by rewrite length_map |].
  intros i p Hi.
  rewrite (nth_lookup_Some _ _ _ [core.x p; core.y p]);
    [| by rewrite list_lookup_fmap, Hi].
  split; [reflexivity |]. split; [reflexivity |].
  by rewrite list_lookup_fmap, Hi.
Qed.

End TreeFacts.

Section SearchSound.
Variable knnSearch : kdtree.KDTreeAdaptor -> Q * Q -> nat -> list (nat * Q).

Lemma Search_loop_sound (samples : list core.Point) (indices : list nat)
    (dists : list Q) :
  forall (l : list nat) (acc results : list kdtree.KDTreeResult),
    for_each
      (kdtree.Search_body
         (kdtree.mkKDTreeAdaptor
            (map (fun p => [core.x p; core.y p]) samples)
            (map core.id samples))
         indices dists) l acc
    = Returns results ->
    Forall (from_sample samples) acc ->
    Forall (from_sample samples) results /\
    List.length results = (List.length acc + List.length l)%nat.
Proof.
  induction l as [| i l IH]; intros acc results Hrun Hacc.
  - injection Hrun as <-. split; [exact Hacc |]. cbn. lia.
  - cbn [for_each] in Hrun.
    destruct (kdtree.Search_body _ indices dists i acc) as [acc1 | |] eqn:Hbody;
      try discriminate Hrun.
    unfold kdtree.Search_body, at_ in Hbody.
    cbn [kdtree.matrix_ kdtree.ids_] in Hbody.
    destruct (indices !! i) as [idx |]; [| discriminate Hbody].
    cbn [mbind Outcome_bind] in Hbody.
    rewrite !list_lookup_fmap in Hbody.
    destruct (samples !! idx) as [p |] eqn:Hp; [| discriminate Hbody].
    cbn [fmap option_fmap option_map mbind Outcome_bind] in Hbody.
    destruct (dists !! i) as [d |]; [| discriminate Hbody].
    cbn [mbind Outcome_bind mret Outcome_ret] in Hbody.
    injection Hbody as <-.
    apply IH in Hrun as [Hres Hlen].
    + split; [exact Hres |]. rewrite Hlen, length_app. cbn. lia.
    + apply Forall_app. split; [exact Hacc |].
      repeat constructor. by exists idx, p.
Qed.

(** X14.  Whatever [knnSearch] writes, a [Search] that returns leaves the tree
    as it was and returns either -1 with no result, or 0 with results that
    each carry the coordinates and the id of one and the same indexed point,
    no more of them than there are indexed points. *)
Theorem Search_sound (samples : list core.Point) (param : kdtree.KDTreeParam)
    (t0 : kdtree.KDTree) (qx qy : Q) (num_closest : nat)
    (results0 results : list kdtree.KDTreeResult) (code : Z)
    (t' : kdtree.KDTree) :
  kdtree.Search knnSearch qx qy num_closest results0
    (kdtree.Init samples param t0)
  = Returns (code, results, t') ->
  t' = kdtree.Init samples param t0 /\
  ((code = (-1)%Z /\ results = []) \/
   (code = 0%Z /\ Forall (from_sample samples) results /\
    (List.length results <= List.length samples)%nat)).
Proof.
  unfold kdtree.Search. cbn [kdtree.index_ kdtree.Init kdtree.adaptor_].
  outcome_steps. rewrite Adaptor_Init_spec. cbn [kdtree.matrix_].
  rewrite length_map.
  destruct (Nat.ltb_spec (List.length samples)
              (List.length
                 (kdtree.overwritten num_closest 0%nat
                    (map fst (knnSearch
                                (kdtree.mkKDTreeAdaptor
                                   (map (fun p => [core.x p; core.y p]) samples)
                                   (map core.id samples))
                                (qx, qy) num_closest)))))
    as [Hlt | Hge].
  - intros [= <- <- <-]. split; [reflexivity | by left].
  - intros Hrun.
    destruct (for_each _ _ _) as [res | |] eqn:Hloop; try discriminate Hrun.
    cbn in Hrun. injection Hrun as <- <- <-.
    apply Search_loop_sound in Hloop as [Hres Hlen]; [| constructor].
    split; [reflexivity |]. right. split; [reflexivity |].
    split; [exact Hres |]. rewrite Hlen, length_seq. cbn. lia.
Qed.
End SearchSound.

(** ** The repository of lanes *)

Section RegisterFacts.
Context `{External}.

Lemma keeps_lane_ids_refl c : keeps_lane_ids c c.
Proof. intros q ln Hq. by exists ln. Qed.

Lemma keeps_lane_ids_trans c1 c2 c3 :
  keeps_lane_ids c1 c2 -> keeps_lane_ids c2 c3 -> keeps_lane_ids c1 c3.
Proof.
  intros H12 H23 q ln Hq.
  destruct (H12 q ln Hq) as (ln2 & Hq2 & Hid2).
  destruct (H23 q ln2 Hq2) as (ln3 & Hq3 & Hid3).
  exists ln3. split; [exact Hq3 | congruence].
Qed.

Lemma keeps_lane_ids_write p f c :
  (forall ln, core.lane_id (f ln) = core.lane_id ln) ->
  keeps_lane_ids c (write_lane p f c).
Proof.
  intros Hf q ln Hq. cbn. destruct (decide (p = q)) as [-> | Hne].
  - exists (f ln). rewrite list_lookup_alter_eq, Hq. split; [done | apply Hf].
  - exists ln. by rewrite list_lookup_alter_ne.
Qed.

Lemma LaneSampling_returns ele_lane lane refe_line c c' :
  LaneSampling ele_lane lane refe_line c = Returns c' ->
  data_ c' = data_ c /\
  mem_sections (memory c') = mem_sections (memory c) /\
  List.length (mem_lanes (memory c')) = List.length (mem_lanes (memory c)) /\
  keeps_lane_ids c c'.
Proof.
  unfold LaneSampling, read_lane, at_.
  destruct (mem_lanes (memory c) !! lane) as [ln |] eqn:Hln; [| done].
  outcome_steps.
  destruct (Split (core.lane_id ln) "_" !! 2%nat) as [idx2 |]; [| done].
  outcome_steps.
  set (lane_dir := if String.ltb "0" idx2 then 1%Z else (-1)%Z).
  destruct (LaneSampling_fold ele_lane lane (core.lane_id ln) lane_dir
              refe_line c 0%Z ln Hln)
    as (c1 & k' & ln' & Hfold & Hln' & Hid' & _ & _ & _ & _ & Hfr).
  rewrite Hfold. intros [= <-].
  destruct Hfr as (Hd & _ & Hs & Hlen & Hother).
  split; [exact Hd |]. split; [exact Hs |]. split; [exact Hlen |].
  intros q l Hq. destruct (decide (q = lane)) as [-> | Hne].
  - exists ln'. split; [exact Hln' |]. rewrite Hln in Hq. injection Hq as <-.
    exact Hid'.
  - exists l. by rewrite Hother.
Qed.

Lemma lanes_loop_cons_returns add e rest section section_id refe c c' d :
  data_ c = Some d ->
  lanes_loop add (e :: rest) section section_id refe c = Returns c' ->
  exists c1 ln,
    lanes_loop add rest section section_id refe c1 = Returns c' /\
    data_ c1
    = Some (put_lane (lane_key section_id e)
              (List.length (mem_lanes (memory c))) d) /\
    List.length (mem_lanes (memory c1))
    = S (List.length (mem_lanes (memory c))) /\
    mem_lanes (memory c1) !! List.length (mem_lanes (memory c)) = Some ln /\
    core.lane_id ln = lane_key section_id e /\
    keeps_lane_ids c c1 /\
    mem_sections (memory c1)
    = alter (add (List.length (mem_lanes (memory c)))) section
        (mem_sections (memory c)).
Proof.
  intros Hd.
  set (n0 := List.length (mem_lanes (memory c))) in *.
  cbn [lanes_loop alloc_lane]. fold n0. fold (lane_key section_id e).
  set (lid := lane_key section_id e).
  set (c3 := write_lane n0 (lane_set_ids lid section_id) _).
  assert (Hl3 : mem_lanes (memory c3) !! n0
                = Some (lane_set_ids lid section_id core.new_Lane)).
  { subst c3. cbn. rewrite list_lookup_alter_eq.
    rewrite lookup_app_r by (subst n0; lia).
    subst n0. by rewrite Nat.sub_diag. }
  assert (Hk3 : keeps_lane_ids c c3).
  { intros q ln Hq. pose proof (lookup_lt_Some _ _ _ Hq) as Hlt.
    exists ln. split; [| done]. subst c3. cbn.
    rewrite list_lookup_alter_ne by (subst n0; lia).
    by rewrite lookup_app_l. }
  assert (Hn3 : List.length (mem_lanes (memory c3)) = S n0).
  { subst c3. cbn. rewrite length_alter, length_app. cbn. subst n0. lia. }
  assert (Hd3 : data_ c3 = Some d) by (subst c3; exact Hd).
  destruct (mem_lanes (memory c3) !! refe) as [rl |] eqn:Hr3.
  2:{ unfold read_lane, at_. rewrite Hr3. by outcome_steps. }
  rewrite (read_lane_Some _ _ _ Hr3). outcome_steps.
  destruct (LaneSampling e n0 (core.left_boundary rl) c3) as [c4 | |] eqn:Hrun;
    [| by outcome_steps | by outcome_steps].
  outcome_steps.
  destruct (LaneSampling_returns _ _ _ _ _ Hrun) as (Hd4 & Hs4 & Hn4 & Hk4).
  destruct (Hk4 _ _ Hl3) as (ln4 & Hl4 & Hid4).
  rewrite (read_lane_Some _ _ _ Hl4). outcome_steps.
  unfold on_data at 1. rewrite Hd4, Hd3. outcome_steps.
  intros Hrest.
  exists (write_lane refe (lane_set_left (core.right_boundary ln4))
            (set_data (Some (put_lane (core.lane_id ln4) n0 d)) c4)).
  exists (if decide (refe = n0)
          then lane_set_left (core.right_boundary ln4) ln4 else ln4).
  split; [exact Hrest |].
  cbn [memory write_lane set_memory set_data mem_lanes update_lane data_].
  split. { by rewrite Hid4. }
  split. { by rewrite length_alter, Hn4. }
  split.
  { destruct (decide (refe = n0)) as [-> | Hne].
    - by rewrite list_lookup_alter_eq, Hl4.
    - rewrite list_lookup_alter_ne by done. exact Hl4. }
  split.
  { destruct (decide (refe = n0)) as [-> | Hne]; exact Hid4. }
  split; [| exact Hs4].
  apply (keeps_lane_ids_trans _ c3); [exact Hk3 |].
  apply (keeps_lane_ids_trans _ c4); [exact Hk4 |].
  intros q ln Hq.
  cbn [memory write_lane set_memory set_data mem_lanes update_lane].
  destruct (decide (refe = q)) as [-> | Hne].
  - eexists. rewrite list_lookup_alter_eq, Hq. by split.
  - exists ln. by rewrite list_lookup_alter_ne.
Qed.

(** X15.  [ConvertSection], the loops over the lanes of a side: when the loop
    returns, the lane made for the [i]-th parsed lane is in the store at the
    [i]-th new address under the id [<section id>_<lane id>]; the lane
    repository maps each such id to the address of the last lane made with it
    and is unchanged elsewhere; the headers, roads, sections and junctions of
    the repository are unchanged. *)
Theorem lanes_loop_registers add section section_id refe :
  forall (ele_lanes : list element.Lane) (c c' : Convertor) (d : core.Data),
    data_ c = Some d ->
    lanes_loop add ele_lanes section section_id refe c = Returns c' ->
    exists d',
      data_ c' = Some d' /\
      core.header d' = core.header d /\
      core.roads d' = core.roads d /\
      core.sections d' = core.sections d /\
      core.junction d' = core.junction d /\
      keeps_lane_ids c c' /\
      List.length (mem_lanes (memory c'))
      = (List.length (mem_lanes (memory c)) + List.length ele_lanes)%nat /\
      (forall i e,
         ele_lanes !! i = Some e ->
         exists ln,
           mem_lanes (memory c') !! (List.length (mem_lanes (memory c)) + i)%nat
           = Some ln /\
           core.lane_id ln = lane_key section_id e) /\
      (forall i e,
         ele_lanes !! i = Some e ->
         (forall j e', (i < j)%nat -> ele_lanes !! j = Some e' ->
                       element.lane_id e' <> element.lane_id e) ->
         core.lanes d' !! lane_key section_id e
         = Some (List.length (mem_lanes (memory c)) + i)%nat) /\
      (forall key,
         (forall e, e ∈ ele_lanes -> lane_key section_id e <> key) ->
         core.lanes d' !! key = core.lanes d !! key).
Proof.
  induction ele_lanes as [| e rest IH]; intros c c' d Hd Hrun.
  - cbn in Hrun. injection Hrun as <-. exists d.
    rewrite Nat.add_0_r.
    do 5 (split; [done |]). split; [apply keeps_lane_ids_refl |].
    split; [done |].
    split; [by intros i e Hi |]. split; [by intros i e Hi |]. done.
  - destruct (lanes_loop_cons_returns _ _ _ _ _ _ _ _ _ Hd Hrun)
      as (c1 & ln & Hrest & Hd1 & Hn1 & Hl1 & Hid1 & Hk1 & _).
    set (n0 := List.length (mem_lanes (memory c))) in *.
    destruct (IH _ _ _ Hd1 Hrest)
      as (d' & Hd' & Hh & Hr & Hs & Hj & Hk & Hlen & Hobj & Hreg & Hfr).
    exists d'. split; [exact Hd' |].
    split; [by rewrite Hh |]. split; [by rewrite Hr |].
    split; [by rewrite Hs |]. split; [by rewrite Hj |].
    split; [exact (keeps_lane_ids_trans _ _ _ Hk1 Hk) |].
    split. { rewrite Hlen, Hn1. cbn. lia. }
    split; [| split].
    + intros [| i] e0 Hi.
      * injection Hi as <-. rewrite Nat.add_0_r.
        destruct (Hk _ _ Hl1) as (ln' & Hl' & Hid').
        exists ln'. split; [exact Hl' | congruence].
      * destruct (Hobj i e0 Hi) as (ln' & Hl' & Hid').
        exists ln'. rewrite Hn1 in Hl'.
        replace (n0 + S i)%nat with (S n0 + i)%nat by lia. by split.
    + intros [| i] e0 Hi Hlast.
      * injection Hi as <-. rewrite Nat.add_0_r. rewrite Hfr.
        { cbn. by rewrite lookup_insert_eq. }
        intros e' He' Heq. apply list_elem_of_lookup in He' as (j & Hj').
        apply (Hlast (S j) e'); [lia | exact Hj' |].
        unfold lane_key in Heq. apply (inj (String.app section_id)) in Heq.
        apply (inj (String.app "_")) in Heq.
        by apply (inj pretty) in Heq.
      * rewrite (Hreg i e0 Hi).
        { rewrite Hn1. f_equal. lia. }
        intros j e' Hij Hj'. apply (Hlast (S j) e'); [lia | exact Hj'].
    + intros key Hkey. rewrite Hfr.
      * cbn. rewrite lookup_insert_ne; [done |].
        apply Hkey. apply elem_of_cons. by left.
      * intros e' He'. apply Hkey. apply elem_of_cons. by right.
Qed.
End RegisterFacts.

(** ** The sections of a road *)

(** Case analysis on the first call of a chain that returns, the equation
    of the call named [E] and its result [x]. *)
Ltac call_returns H E x :=
  match type of H with
  | (?m ≫= _) = Returns _ =>
    destruct m as [x | |] eqn:E; cbn [mbind Outcome_bind] in H;
    try discriminate H
  end.

Section SectionFacts.
Context `{External}.

Lemma same_attributes_refl s : same_attributes s s.
Proof. by repeat split. Qed.

Lemma same_attributes_trans s1 s2 s3 :
  same_attributes s1 s2 -> same_attributes s2 s3 -> same_attributes s1 s3.
Proof.
  intros (? & ? & ? & ? & ?) (? & ? & ? & ? & ?).
  repeat split; congruence.
Qed.

Lemma keeps_sections_eq c c' :
  mem_sections (memory c') = mem_sections (memory c) -> keeps_sections c c'.
Proof.
  intros Heq. split; [by rewrite Heq |].
  intros q sec Hq. exists sec. rewrite Heq.
  split; [exact Hq | apply same_attributes_refl].
Qed.

Lemma keeps_sections_trans c1 c2 c3 :
  keeps_sections c1 c2 -> keeps_sections c2 c3 -> keeps_sections c1 c3.
Proof.
  intros [Hn12 H12] [Hn23 H23]. split; [congruence |].
  intros q s1 Hq.
  destruct (H12 q s1 Hq) as (s2 & Hq2 & Ha2).
  destruct (H23 q s2 Hq2) as (s3 & Hq3 & Ha3).
  exists s3. split; [exact Hq3 |]. by apply (same_attributes_trans _ s2).
Qed.

Lemma keeps_sections_alter p f c c' :
  mem_sections (memory c') = alter f p (mem_sections (memory c)) ->
  (forall s, same_attributes s (f s)) ->
  keeps_sections c c'.
Proof.
  intros Heq Hf. split; [by rewrite Heq, length_alter |].
  intros q sec Hq. rewrite Heq.
  destruct (decide (p = q)) as [-> | Hne].
  - exists (f sec). rewrite list_lookup_alter_eq, Hq. split; [done | apply Hf].
  - exists sec. rewrite list_lookup_alter_ne by done.
    split; [exact Hq | apply same_attributes_refl].
Qed.

Lemma lanes_loop_sections add section section_id refe :
  (forall l s, same_attributes s (add l s)) ->
  forall (ele_lanes : list element.Lane) (c c' : Convertor) (d : core.Data),
    data_ c = Some d ->
    lanes_loop add ele_lanes section section_id refe c = Returns c' ->
    keeps_sections c c' /\
    exists d', data_ c' = Some d' /\ core.sections d' = core.sections d.
Proof.
  intros Hadd.
  induction ele_lanes as [| e rest IH]; intros c c' d Hd Hrun.
  - injection Hrun as <-. split; [by apply keeps_sections_eq |]. by exists d.
  - destruct (lanes_loop_cons_returns _ _ _ _ _ _ _ _ _ Hd Hrun)
      as (c1 & ln & Hrest & Hd1 & _ & _ & _ & _ & Hs1).
    destruct (IH _ _ _ Hd1 Hrest) as (Hk & d' & Hd' & Hsec).
    split.
    + apply (keeps_sections_trans _ c1); [| exact Hk].
      exact (keeps_sections_alter _ _ _ _ Hs1 (Hadd _)).
    + exists d'. by split.
Qed.

(** X16.  When the loop of [ConvertSection] over the lane sections of a road
    returns, from a positive step, it has made a section for each of the first
    [n] lane sections: the road has their addresses appended in order, the
    [i]-th of them has the id [<road id>_<idx + i>], the road as its parent,
    the bounds of the parsed section and their difference as its length, and
    the repository maps its id to its address; the sections that were in the
    store keep their attributes and the other keys of the repository what they
    held. *)
Theorem ConvertSection_loop_sections ele_road road_id :
  forall (ele_sections : list element.LaneSection) (section_idx : Z) (r : Q)
         (road : core.Road) (c c' : Convertor) (road' : core.Road)
         (d : core.Data),
    0 < step_ c ->
    data_ c = Some d ->
    ConvertSection_loop ele_road road_id ele_sections section_idx r road c
    = Returns (c', road') ->
    exists (n : nat) (d' : core.Data),
      (n <= List.length ele_sections)%nat /\
      core.road_sections road'
      = core.road_sections road
        ++ seq (List.length (mem_sections (memory c))) n /\
      List.length (mem_sections (memory c'))
      = (List.length (mem_sections (memory c)) + n)%nat /\
      data_ c' = Some d' /\
      (forall q sec,
         mem_sections (memory c) !! q = Some sec ->
         exists sec',
           mem_sections (memory c') !! q = Some sec' /\
           same_attributes sec sec') /\
      (forall i es,
         (i < n)%nat ->
         ele_sections !! i = Some es ->
         exists sec,
           mem_sections (memory c')
           !! (List.length (mem_sections (memory c)) + i)%nat = Some sec /\
           core.section_id sec
           = section_key road_id (section_idx + Z.of_nat i) /\
           core.section_parent_id sec = road_id /\
           core.section_start sec = element.start_position es /\
           core.section_end sec = element.end_position es /\
           core.length sec
           = element.end_position es - element.start_position es /\
           core.sections d'
           !! section_key road_id (section_idx + Z.of_nat i)
           = Some (List.length (mem_sections (memory c)) + i)%nat) /\
      (forall key,
         (forall i, (i < n)%nat ->
                    section_key road_id (section_idx + Z.of_nat i) <> key) ->
         core.sections d' !! key = core.sections d !! key).
Proof.
  induction ele_sections as [| es rest IH];
    intros section_idx r road c c' road' d Hstep Hd Hrun.
  - injection Hrun as <- <-. exists 0%nat, d. cbn. rewrite app_nil_r.
    split; [done |]. split; [done |]. split; [lia |]. split; [done |].
    split. { intros q sec Hq. exists sec. split; [exact Hq |].
             apply same_attributes_refl. }
    split; [intros i es' Hi; lia | done].
  - cbn [ConvertSection_loop alloc_section alloc_lane] in Hrun.
    set (n0 := List.length (mem_sections (memory c))) in *.
    fold (section_key road_id section_idx) in Hrun.
    set (sid := section_key road_id section_idx) in *.
    set (c0 := write_section n0 _ _) in Hrun.
    assert (Hsec0 : mem_sections (memory c0) !! n0
                    = Some (section_set_attr sid road_id
                              (element.start_position es)
                              (element.end_position es) core.new_Section)).
    { subst c0. cbn. rewrite list_lookup_alter_eq.
      rewrite lookup_app_r by (subst n0; lia).
      subst n0. by rewrite Nat.sub_diag. }
    assert (Hold0 : forall q sec,
               mem_sections (memory c) !! q = Some sec ->
               mem_sections (memory c0) !! q = Some sec).
    { intros q sec Hq. pose proof (lookup_lt_Some _ _ _ Hq) as Hlt.
      subst c0. cbn. rewrite list_lookup_alter_ne by (subst n0; lia).
      by rewrite lookup_app_l. }
    assert (Hlen0 : List.length (mem_sections (memory c0)) = S n0).
    { subst c0. cbn. rewrite length_alter, length_app. cbn. subst n0. lia. }
    assert (Hd0 : data_ c0 = Some d) by (subst c0; exact Hd).
    assert (Hstep0 : step_ c0 = step_ c) by (by subst c0).
    assert (Hlanes0 : mem_lanes (memory c0) = mem_lanes (memory c))
      by (by subst c0).
    clearbody c0.
    call_returns Hrun Hdata cd.
    unfold on_data in Hdata. rewrite Hd0 in Hdata. injection Hdata as <-.
    (* what holds of a convertor [cx] that keeps the sections of [c0] and
       whose repository has the sections of [put_section sid n0 d] *)
    assert (Hmade : forall cx dx,
               keeps_sections c0 cx ->
               data_ cx = Some dx ->
               core.sections dx = <[sid:=n0]> (core.sections d) ->
               List.length (mem_sections (memory cx)) = S n0 /\
               (forall q sec,
                  mem_sections (memory c) !! q = Some sec ->
                  exists sec',
                    mem_sections (memory cx) !! q = Some sec' /\
                    same_attributes sec sec') /\
               exists sec,
                 mem_sections (memory cx) !! n0 = Some sec /\
                 core.section_id sec = sid /\
                 core.section_parent_id sec = road_id /\
                 core.section_start sec = element.start_position es /\
                 core.section_end sec = element.end_position es /\
                 core.length sec
                 = element.end_position es - element.start_position es /\
                 core.sections dx !! sid = Some n0).
    { intros cx dx [Hn Hk] Hdx Hsx. split; [congruence |]. split.
      - intros q sec Hq. apply Hk. by apply Hold0.
      - destruct (Hk _ _ Hsec0) as (sec & Hq & Hi & Hp & Hs & He & Hl).
        exists sec. split; [exact Hq |].
        rewrite Hsx, lookup_insert_eq. by repeat split. }
    destruct (bool_decide (1%nat ≠ List.length (element.center es))).
    + injection Hrun as <- <-.
      destruct (Hmade (set_data (Some (put_section sid n0 d)) c0)
                  (put_section sid n0 d))
        as (Hlen & Hold & sec & Hq & Hi & Hp & Hs & He & Hl & Hreg);
        [by apply keeps_sections_eq | done | done |].
      exists 1%nat, (put_section sid n0 d).
      split; [cbn; lia |]. split; [done |].
      split; [cbn in Hlen |- *; lia |]. split; [done |].
      split; [exact Hold |]. split.
      * intros [| i] es' Hi' Hes'; [| lia]. injection Hes' as <-.
        rewrite Nat.add_0_r, Z.add_0_r. exists sec. by repeat split.
      * intros key Hkey. cbn. rewrite lookup_insert_ne; [done |].
        specialize (Hkey 0%nat ltac:(lia)). by rewrite Z.add_0_r in Hkey.
    + set (cd := set_data (Some (put_section sid n0 d)) c0) in *.
      set (l0 := List.length (mem_lanes (memory cd))) in *.
      set (c1 := write_lane l0 (lane_set_ids _ _) _) in Hrun.
      assert (Hk1 : keeps_sections c0 c1).
      { apply (keeps_sections_alter n0 (section_set_center l0));
          [reflexivity |].
        intros s. by repeat split. }
      assert (Hd1 : data_ c1 = Some (put_section sid n0 d)) by done.
      assert (Hstep1 : step_ c1 = step_ c) by (by subst c1).
      destruct (Hk1) as [_ Hk1'].
      destruct (Hk1' _ _ Hsec0) as (sec1 & Hsec1 & _).
      assert (Hcenter1 : core.center_lane sec1 = Some l0).
      { subst c1. cbn in Hsec1. rewrite list_lookup_alter_eq in Hsec1.
        destruct (_ !! n0) as [s |]; [| discriminate Hsec1].
        by injection Hsec1 as <-. }
      assert (Hlane1 : is_Some (mem_lanes (memory c1) !! l0)).
      { apply lookup_lt_is_Some. subst c1 l0 cd. cbn.
        rewrite length_alter, length_app. cbn. lia. }
      destruct Hlane1 as [ln1 Hlane1].
      clearbody c1.
      call_returns Hrun Hsampling cr. destruct cr as [c2 r2].
      destruct (CenterLaneSampling_general (element.geometrys ele_road)
                  (element.lane_offsets ele_road) n0 r c1 sec1 l0 ln1
                  Hsec1 Hcenter1 Hlane1)
        as (c2' & r2' & pts & gs & Hrun2 & Hframe & _);
        [by rewrite Hstep1 |].
      rewrite Hrun2 in Hsampling. injection Hsampling as <- <-.
      destruct Hframe as (Hstep2 & _ & Hd2 & _ & _ & Hs2 & _).
      call_returns Hrun Hread ln2.
      call_returns Hrun Hdata c2d.
      unfold on_data in Hdata. rewrite Hd2, Hd1 in Hdata.
      injection Hdata as <-.
      call_returns Hrun Hleft c3.
      pose proof Hleft as Hleft'.
      eapply lanes_loop_sections in Hleft' as (Hk3 & d3 & Hd3 & Hs3);
        [| by repeat split | reflexivity].
      match type of Hleft with
      | lanes_loop _ _ _ _ _ ?cx = _ =>
        pose proof (lanes_loop_keeps_step section_add_left n0 sid l0
                      (element.left es) cx) as Hstep3
      end.
      rewrite Hleft in Hstep3. cbn in Hstep3.
      call_returns Hrun Hright c4.
      pose proof Hright as Hright'.
      eapply lanes_loop_sections in Hright' as (Hk4 & d4 & Hd4 & Hs4);
        [| by repeat split | exact Hd3].
      match type of Hright with
      | lanes_loop _ _ _ _ _ ?cx = _ =>
        pose proof (lanes_loop_keeps_step section_add_right n0 sid l0
                      (element.right es) cx) as Hstep4
      end.
      rewrite Hright in Hstep4. cbn in Hstep4.
      destruct (Hmade c4 d4)
        as (Hlen & Hold & sec & Hq & Hi & Hp & Hs & He & Hl & Hreg).
      { apply (keeps_sections_trans _ c1); [exact Hk1 |].
        apply (keeps_sections_trans _ c2'); [by apply keeps_sections_eq |].
        apply (keeps_sections_trans _ c3); [| exact Hk4].
        apply (keeps_sections_trans _ _ _ (keeps_sections_eq _ _ eq_refl)).
        exact Hk3. }
      { exact Hd4. }
      { rewrite Hs4, Hs3. reflexivity. }
      assert (Hstep5 : step_ c4 = step_ c).
      { etrans; [exact Hstep4 |]. etrans; [exact Hstep3 |].
        etrans; [exact Hstep2 | exact Hstep1]. }
      rewrite <- Hstep5 in Hstep.
      destruct (IH _ _ _ _ _ _ _ Hstep Hd4 Hrun)
        as (n & d' & Hn & Hroad & Hlen' & Hd' & Hold' & Hnew' & Hother').
      rewrite Hlen in Hroad, Hlen', Hnew'.
      exists (S n), d'. split; [cbn; lia |].
      split. { rewrite Hroad. cbn. by rewrite <- app_assoc. }
      split; [lia |]. split; [exact Hd' |].
      split.
      { intros q s Hqs. destruct (Hold q s Hqs) as (s1 & Hq1 & Ha1).
        destruct (Hold' q s1 Hq1) as (s2 & Hq2 & Ha2).
        exists s2. split; [exact Hq2 |].
        by apply (same_attributes_trans _ s1). }
      split.
      * intros [| i] es' Hi' Hes'.
        -- injection Hes' as <-. rewrite Nat.add_0_r, Z.add_0_r.
           destruct (Hold' _ _ Hq) as (sec' & Hq' & Hi2 & Hp2 & Hs2' & He2 & Hl2).
           exists sec'. split; [exact Hq' |].
           split; [by rewrite Hi2 |]. split; [by rewrite Hp2 |].
           split; [by rewrite Hs2' |]. split; [by rewrite He2 |].
           split; [by rewrite Hl2 |].
           rewrite Hother'.
           ++ rewrite Hs4, Hs3. cbn. by rewrite lookup_insert_eq.
           ++ intros j Hj Heq. unfold sid, section_key in Heq.
              apply (inj (String.app road_id)) in Heq.
              apply (inj (String.app "_")) in Heq.
              apply (inj pretty) in Heq. lia.
        -- destruct (Hnew' i es' ltac:(lia) Hes')
             as (sec' & Hq' & Hi2 & Hp2 & Hs2' & He2 & Hl2 & Hreg2).
           exists sec'.
           replace (n0 + S i)%nat with (S n0 + i)%nat by lia.
           replace (section_idx + Z.of_nat (S i))%Z
             with (section_idx + 1 + Z.of_nat i)%Z by lia.
           by repeat split.
      * intros key Hkey. rewrite Hother'.
        -- rewrite Hs4, Hs3. cbn. rewrite lookup_insert_ne; [done |].
           specialize (Hkey 0%nat ltac:(lia)). by rewrite Z.add_0_r in Hkey.
        -- intros i Hi'. specialize (Hkey (S i) ltac:(lia)).
           by replace (section_idx + Z.of_nat (S i))%Z
             with (section_idx + 1 + Z.of_nat i)%Z in Hkey by lia.
Qed.
End SectionFacts.

(** ** The further properties at concrete inputs *)

Lemma LaneSampling_direction_witness :
  exists c' ln',
    @LaneSampling Fixtures.straight Fixtures.right_lane 0%nat
      Fixtures.two_points (Fixtures.with_lane "0_0_-1")
    = Returns c' /\
    mem_lanes (memory c') !! 0%nat = Some ln' /\
    @sampled_from Fixtures.straight Fixtures.right_lane (-1)
      Fixtures.two_points ln'.
Proof.
  apply (@LaneSampling_direction Fixtures.straight Fixtures.right_lane 0%nat
           Fixtures.two_points (Fixtures.with_lane "0_0_-1")
           (core.mkLane "0_0_-1" "0_0" [] [] [] []) (-1)%Z);
    reflexivity.
Defined.


Lemma CenterLaneSampling_frame_witness :
  exists c' road_ds',
    @CenterLaneSampling Fixtures.no_geometry [Fixtures.line] [] 0 0
      (Fixtures.with_section (1 # 10) (25 # 100))
    = Returns (c', road_ds') /\
    sampling_frame 0 (Fixtures.with_section (1 # 10) (25 # 100)) c'.
Proof.
  apply (@CenterLaneSampling_frame Fixtures.no_geometry [Fixtures.line] []
           0%nat 0 (Fixtures.with_section (1 # 10) (25 # 100))
           (core.mkSection "0_0" "0" 0 (25 # 100) (25 # 100) (Some 0%nat)
              [] [])
           0%nat (core.mkLane "0_0_0" "0_0" [] [] [] []));
    reflexivity.
Defined.

Lemma CenterLaneSampling_point_ids_witness :
  exists c' road_ds' ln',
    @CenterLaneSampling Fixtures.short_road_collaborators [Fixtures.line] []
      0 0 (Fixtures.with_section (1 # 10) (25 # 100))
    = Returns (c', road_ds') /\
    mem_lanes (memory c') !! 0%nat = Some ln' /\
    (forall i pt,
       core.central_curve ln' !! i = Some pt ->
       core.id pt = "0_0_0" +:+ "_" +:+ to_string_N (N.of_nat i)) /\
    NoDup (map core.id (core.central_curve ln')).
Proof.
  apply (@CenterLaneSampling_point_ids Fixtures.short_road_collaborators
           [Fixtures.line] [] 0%nat 0
           (Fixtures.with_section (1 # 10) (25 # 100))
           (core.mkSection "0_0" "0" 0 (25 # 100) (25 # 100) (Some 0%nat)
              [] [])
           0%nat (core.mkLane "0_0_0" "0_0" [] [] [] []));
    reflexivity.
Defined.

Lemma CenterLaneSampling_markers_witness :
  exists c' road_ds' ln' gs,
    @CenterLaneSampling Fixtures.straight [Fixtures.line] [] 0 0
      (Fixtures.with_section (1 # 10) (25 # 100))
    = Returns (c', road_ds') /\
    mem_lanes (memory c') !! 0%nat = Some ln' /\
    core.geometrys ln' = [] ++ gs /\
    alternating (-1) gs /\
    Forall (fun g => core.point g ∈ core.central_curve ln') gs.
Proof.
  apply (@CenterLaneSampling_markers Fixtures.straight [Fixtures.line] []
           0%nat 0 (Fixtures.with_section (1 # 10) (25 # 100))
           (core.mkSection "0_0" "0" 0 (25 # 100) (25 # 100) (Some 0%nat)
              [] [])
           0%nat (core.mkLane "0_0_0" "0_0" [] [] [] []));
    reflexivity.
Defined.


Lemma Start_error_codes_witness :
  exists c',
    @Start Fixtures.straight Fixtures.default_param
      (set_data None (Fixtures.fresh (1 # 10)))
    = Returns c' /\
    error_code (status_ c') = INIT_FACTORY_ERROR /\
    data_ c' = None /\ center_line_pts_ c' = [].
Proof.
  assert (Hrun : exists c',
             @Start Fixtures.straight Fixtures.default_param
               (set_data None (Fixtures.fresh (1 # 10)))
             = Returns c').
  { eexists. vm_compute. reflexivity. }
  destruct Hrun as (c' & Hrun).
  destruct (@Start_error_codes Fixtures.straight Fixtures.default_param
              (set_data None (Fixtures.fresh (1 # 10))) c' Hrun)
    as (Hfactory & _ & Hframe).
  assert (Hcode : error_code (status_ c') = INIT_FACTORY_ERROR).
  { apply Hfactory. by right. }
  destruct (Hframe (or_introl Hcode)) as (Hd & _ & _ & Hpts).
  exists c'. split; [exact Hrun |]. split; [exact Hcode |].
  split; [exact Hd | exact Hpts].
Defined.


Lemma Start_after_conversion_error_witness :
  exists c2,
    @Start Fixtures.bad_then_good Fixtures.default_param
      (Fixtures.fresh (1 # 10))
    = Returns c2 /\
    error_code (status_ c2) = CONVERTOR_CENTERLANE_ERROR.
Proof.
  assert (Hheader : exists c1,
             ConvertHeader Fixtures.bad_then_good_map
               (set_status (mkStatus OK "ok")
                  (set_step (Qmax (1 # 10) (1 # 10))
                     (set_center_line_pts [] (Fixtures.fresh (1 # 10)))))
             = Returns c1).
  { eexists. vm_compute. reflexivity. }
  destruct Hheader as (c1 & Hheader).
  assert (Hroad : exists c2,
             @ConvertRoad Fixtures.bad_then_good Fixtures.bad_then_good_map c1
             = Returns c2
             /\ error_code (status_ c2) = CONVERTOR_CENTERLANE_ERROR).
  { vm_compute in Hheader. injection Hheader as <-.
    eexists. split; vm_compute; reflexivity. }
  destruct Hroad as (c2 & Hroad & Hcode).
  exists c2. split; [| exact Hcode].
  apply (@Start_after_conversion_error Fixtures.bad_then_good
           Fixtures.default_param (Fixtures.fresh (1 # 10)) c1 c2
           (mkParam (1 # 10) "map.xodr") Fixtures.bad_then_good_map).
  - reflexivity.
  - by eexists.
  - discriminate.
  - reflexivity.
  - reflexivity.
  - exact Hheader.
  - exact Hroad.
  - rewrite Hcode. discriminate.
Defined.

Lemma ConvertJunction_lookup_witness :
  exists d',
    ConvertJunction Fixtures.junctions_map
      (Fixtures.fresh (1 # 10))
    = Returns (set_data (Some d') (Fixtures.fresh (1 # 10))) /\
    core.junction d' !! "3" = Some (core.mkJunction "3" "second" 1) /\
    core.junction d' !! "-1" = None.
Proof.
  destruct (ConvertJunction_lookup Fixtures.junctions_map
              (Fixtures.fresh (1 # 10)) Fixtures.empty_data "3")
    as (d' & Hrun & _ & _ & _ & _ & Hthree); [reflexivity | reflexivity |].
  destruct (ConvertJunction_lookup Fixtures.junctions_map
              (Fixtures.fresh (1 # 10)) Fixtures.empty_data "-1")
    as (d'' & Hrun' & _ & _ & _ & _ & Hminus); [reflexivity | reflexivity |].
  rewrite Hrun in Hrun'. injection Hrun' as <-.
  exists d'. split; [exact Hrun |]. split; [exact Hthree | exact Hminus].
Defined.

Lemma ConvertRoad_body_stores_road_witness :
  exists c' d' road,
    @ConvertRoad_body Fixtures.one_right_lane Fixtures.one_right_lane_road
      (Fixtures.fresh (1 # 10))
    = Returns c' /\
    data_ c' = Some d' /\
    core.roads d' !! "0" = Some road /\
    core.road_id road = "0" /\
    core.name road = "road" /\
    core.predecessor_ids road = ∅ /\
    (List.length (core.road_sections road) <= 1)%nat.
Proof.
  assert (Hrun : exists c',
             @ConvertRoad_body Fixtures.one_right_lane
               Fixtures.one_right_lane_road (Fixtures.fresh (1 # 10))
             = Returns c').
  { eexists. vm_compute. reflexivity. }
  destruct Hrun as (c' & Hrun).
  destruct (@ConvertRoad_body_stores_road Fixtures.one_right_lane
              Fixtures.one_right_lane_road (Fixtures.fresh (1 # 10)) c')
    as (d' & road & Hd & Hlookup & Hid & Hname & _ & _ & _ & Hpred & _ & _
        & Hsections).
  - reflexivity.
  - cbn. lia.
  - exact Hrun.
  - exists c', d', road. split; [exact Hrun |]. split; [exact Hd |].
    split; [exact Hlookup |]. split; [exact Hid |]. split; [exact Hname |].
    split; [exact Hpred | exact Hsections].
Defined.

Lemma ConvertSection_loop_stops_witness :
  @ConvertSection_loop Fixtures.straight
    (Fixtures.road 0 (2 # 10) []) "0"
    [Fixtures.lane_section (1 # 10) [] []; Fixtures.no_center_section;
     Fixtures.lane_section (1 # 10) [] [Fixtures.right_lane]]
    0 0 core.new_Road (Fixtures.fresh (1 # 10))
  = @ConvertSection_loop Fixtures.straight
      (Fixtures.road 0 (2 # 10) []) "0"
      [Fixtures.lane_section (1 # 10) [] []; Fixtures.no_center_section]
      0 0 core.new_Road (Fixtures.fresh (1 # 10)).
Proof.
  apply (@ConvertSection_loop_stops Fixtures.straight
           (Fixtures.road 0 (2 # 10) []) "0" Fixtures.no_center_section
           [Fixtures.lane_section (1 # 10) [] [Fixtures.right_lane]]
           ltac:(cbn; lia) [Fixtures.lane_section (1 # 10) [] []]).
Defined.

Lemma BuildKDTree_indexes_collection_witness :
  exists t',
    BuildKDTree Fixtures.default_param
      (set_center_line_pts Fixtures.three_samples (Fixtures.fresh (1 # 10)))
    = Returns
        (set_kdtree (Some t')
           (set_center_line_pts Fixtures.three_samples
              (Fixtures.fresh (1 # 10)))) /\
    kdtree.kdtree_get_point_count (kdtree.adaptor_ t') = 3%nat /\
    kdtree.kdtree_get_pt (kdtree.adaptor_ t') 2 0 = 5 /\
    kdtree.ids_ (kdtree.adaptor_ t') !! 2%nat = Some "c".
Proof.
  destruct (BuildKDTree_indexes_collection Fixtures.default_param
              (set_center_line_pts Fixtures.three_samples
                 (Fixtures.fresh (1 # 10)))
              kdtree.new_KDTree)
    as (t' & Hrun & Hcount & Hpts); [reflexivity | reflexivity |].
  exists t'. split; [exact Hrun |]. split; [exact Hcount |].
  destruct (Hpts 2%nat (core.mkPoint 5 0 0 0 "c") eq_refl) as (Hx & _ & Hid).
  split; [exact Hx | exact Hid].
Defined.

Lemma Search_sound_witness :
  exists results,
    kdtree.Search Fixtures.exhaustive_search 0 0 2 []
      (kdtree.Init Fixtures.three_samples Fixtures.default_param
         kdtree.new_KDTree)
    = Returns
        (0%Z, results,
         kdtree.Init Fixtures.three_samples Fixtures.default_param
           kdtree.new_KDTree) /\
    Forall (from_sample Fixtures.three_samples) results /\
    (List.length results <= 3)%nat.
Proof.
  assert (Hrun : exists code results t',
             kdtree.Search Fixtures.exhaustive_search 0 0 2 []
               (kdtree.Init Fixtures.three_samples Fixtures.default_param
                  kdtree.new_KDTree)
             = Returns (code, results, t') /\ code = 0%Z).
  { eexists _, _, _. split; reflexivity. }
  destruct Hrun as (code & results & t' & Hrun & ->).
  destruct (@Search_sound Fixtures.exhaustive_search Fixtures.three_samples
              Fixtures.default_param kdtree.new_KDTree 0 0 2%nat [] results
              0%Z t' Hrun)
    as (-> & [[Hcode _] | (_ & Hfrom & Hlen)]); [discriminate Hcode |].
  exists results. split; [exact Hrun |]. split; [exact Hfrom | exact Hlen].
Defined.

Lemma lanes_loop_registers_witness :
  exists c' d',
    @lanes_loop Fixtures.straight section_add_left Fixtures.two_left_lanes
      0%nat "0_0" 0%nat Fixtures.with_center_lane
    = Returns c' /\
    data_ c' = Some d' /\
    core.lanes d' !! "0_0_1" = Some 1%nat /\
    core.lanes d' !! "0_0_2" = Some 2%nat /\
    core.lanes d' !! "0_0_0" = None.
Proof.
  assert (Hrun : exists c',
             @lanes_loop Fixtures.straight section_add_left
               Fixtures.two_left_lanes 0%nat "0_0" 0%nat
               Fixtures.with_center_lane
             = Returns c').
  { eexists. vm_compute. reflexivity. }
  destruct Hrun as (c' & Hrun).
  destruct (@lanes_loop_registers Fixtures.straight section_add_left 0%nat
              "0_0" 0%nat Fixtures.two_left_lanes Fixtures.with_center_lane
              c' Fixtures.empty_data eq_refl Hrun)
    as (d' & Hd & _ & _ & _ & _ & _ & _ & _ & Hreg & Hother).
  exists c', d'. split; [exact Hrun |]. split; [exact Hd |].
  split; [| split].
  - apply (Hreg 0%nat (element.mkLane 1 (fun _ => 3)) eq_refl).
    intros [| [| j]] e' Hlt He'; [lia | | discriminate He'].
    injection He' as <-. discriminate.
  - apply (Hreg 1%nat (element.mkLane 2 (fun _ => 2)) eq_refl).
    intros [| [| j]] e' Hlt He'; [lia | lia | discriminate He'].
  - rewrite Hother; [reflexivity |].
    intros e He. apply elem_of_cons in He as [-> | He]; [discriminate |].
    apply elem_of_cons in He as [-> | He]; [discriminate |].
    by apply elem_of_nil in He.
Defined.

Lemma ConvertSection_loop_sections_witness :
  exists c' road' d' sec,
    @ConvertSection_loop Fixtures.straight Fixtures.one_right_lane_road "0"
      [Fixtures.lane_section (1 # 10) [] [Fixtures.right_lane];
       Fixtures.no_center_section]
      0 0 core.new_Road (Fixtures.fresh (1 # 10))
    = Returns (c', road') /\
    data_ c' = Some d' /\
    mem_sections (memory c') !! 0%nat = Some sec /\
    core.section_id sec = "0_0" /\
    core.length sec = (1 # 10) - 0 /\
    core.sections d' !! "0_0" = Some 0%nat.
Proof.
  assert (Hrun : exists c' road',
             @ConvertSection_loop Fixtures.straight
               Fixtures.one_right_lane_road "0"
               [Fixtures.lane_section (1 # 10) [] [Fixtures.right_lane];
                Fixtures.no_center_section]
               0 0 core.new_Road (Fixtures.fresh (1 # 10))
             = Returns (c', road') /\
             List.length (mem_sections (memory c')) = 2%nat).
  { eexists _, _. split; vm_compute; reflexivity. }
  destruct Hrun as (c' & road' & Hrun & Hlen).
  destruct (@ConvertSection_loop_sections Fixtures.straight
              Fixtures.one_right_lane_road "0"
              [Fixtures.lane_section (1 # 10) [] [Fixtures.right_lane];
               Fixtures.no_center_section]
              0%Z 0 core.new_Road (Fixtures.fresh (1 # 10)) c' road'
              Fixtures.empty_data)
    as (n & d' & _ & _ & Hn & Hd' & _ & Hnew & _).
  - reflexivity.
  - reflexivity.
  - exact Hrun.
  - rewrite Hlen in Hn. cbn in Hn.
    destruct (Hnew 0%nat
                (Fixtures.lane_section (1 # 10) [] [Fixtures.right_lane]))
      as (sec & Hsec & Hid & _ & _ & _ & Hl & Hreg); [lia | reflexivity |].
    exists c', road', d', sec. split; [exact Hrun |]. split; [exact Hd' |].
    split; [exact Hsec |]. split; [exact Hid |]. split; [exact Hl |].
    exact Hreg.
Defined.
